(** * Linear models and learning curves: a shallow embedding

    The development follows the Python sources module by module:

    - [Py]: outcomes of a Python call (value or exception) threaded through a
      world that records the warnings issued so far;
    - [LearningCurve]: [learning_curve.py];
    - [Np], [Ridge]: [linear_model/ridge.py];
    - [CoordinateDescent]: [linear_model/coordinate_descent.py];
    - [SGD]: [linear_model/stochastic_gradient.py].

    Number models.  [learning_curve.py] turns float fractions into integer
    counts, where rounding matters, so binary64 values are the kernel's
    primitive floats there.  [ridge.py] and [stochastic_gradient.py] combine
    field operations and comparisons only, so float64 is idealised as exact
    rationals ([Q]); the LAPACK / ARPACK routines and [sqrt] are parameters.
    [coordinate_descent.py] builds its grid with [log10] and powers of ten, so
    its numbers are the reals ([R]). *)

From Stdlib Require Import String.
From Stdlib Require Import ZArith List Sorted Lia Bool Arith PeanoNat.
From Stdlib Require Import QArith Qabs.
From Stdlib Require Import PrimFloat SpecFloat FloatOps Uint63.
From Stdlib Require FloatAxioms.
From Stdlib Require Permutation.
From Stdlib Require Lqa.
From Stdlib Require Import Reals Lra.
Import ListNotations.

Set Implicit Arguments.

(* ================================================================== *)
(** ** Python outcomes *)

Module Py.

Inductive exn : Type :=
| ValueError (msg : string)
| TypeError (msg : string)
| IndexError (msg : string)
| KeyError (key : string)
| UnboundLocalError (name : string)
| LinAlgError.

Inductive warning : Type :=
| UserWarning (msg : string)
| RuntimeWarning (msg : string)
| DeprecationWarning (msg : string).

Inductive result (A : Type) : Type :=
| Ok (a : A)
| Raise (e : exn).
Arguments Ok {A} a.
Arguments Raise {A} e.

(** The world: warnings issued so far (oldest first) and the state [W] of
    whatever objects the collaborators of a function own. *)
Record world (W : Type) : Type := World { warnings : list warning; ext : W }.
Arguments World {W} warnings ext.

Definition M (W A : Type) : Type := world W -> result A * world W.

Definition ret {W A} (a : A) : M W A := fun w => (Ok a, w).

Definition bind {W A B} (m : M W A) (k : A -> M W B) : M W B :=
  fun w => match m w with
           | (Ok a, w') => k a w'
           | (Raise e, w') => (Raise e, w')
           end.

Definition raise {W A} (e : exn) : M W A := fun w => (Raise e, w).

Definition warn {W} (x : warning) : M W unit :=
  fun w => (Ok tt, World (warnings w ++ [x]) (ext w)).

(** [try: m except e: h] for the handlers of the sources, which catch one
    exception class. *)
Definition try_except {W A} (m : M W A) (catches : exn -> bool) (h : M W A)
  : M W A :=
  fun w => match m w with
           | (Ok a, w') => (Ok a, w')
           | (Raise e, w') => if catches e then h w' else (Raise e, w')
           end.

Definition lift {W A} (r : result A) : M W A := fun w => (r, w).

(** Reading a local variable that may not have been assigned. *)
Definition local {W A} (name : string) (v : option A) : M W A :=
  match v with
  | Some a => ret a
  | None => raise (UnboundLocalError name)
  end.

Fixpoint mapM {W A B} (f : A -> M W B) (l : list A) : M W (list B) :=
  match l with
  | [] => ret []
  | a :: t => bind (f a) (fun b => bind (mapM f t) (fun bs => ret (b :: bs)))
  end.

Definition is_LinAlgError (e : exn) : bool :=
  match e with LinAlgError => true | _ => false end.

End Py.

Import Py.

Declare Scope py_scope.
Delimit Scope py_scope with py.
Notation "x <- m ;; k" := (Py.bind m (fun x => k))
  (at level 100, m at next level, right associativity) : py_scope.
Notation "' p <- m ;; k" := (Py.bind m (fun p => k))
  (at level 100, p pattern, m at next level, right associativity) : py_scope.
Notation "m ;;; k" := (Py.bind m (fun _ => k))
  (at level 100, right associativity) : py_scope.

(* ================================================================== *)
(** ** learning_curve.py *)

Module LearningCurve.

Local Open Scope Z_scope.
Local Open Scope py_scope.

(** *** Conversions between Python ints and float64 *)

(** An int operand of a float array is converted to float64. *)
Definition float_of_Z (z : Z) : float :=
  if z <? 0 then PrimFloat.opp (PrimFloat.of_uint63 (Uint63.of_Z (- z)))
  else PrimFloat.of_uint63 (Uint63.of_Z z).

(** [ndarray.astype(np.int)]: truncation toward zero.  NaN and the
    infinities convert to the "integer indefinite" value of x86-64. *)
Definition float_to_int (f : float) : Z :=
  match Prim2SF f with
  | S754_zero _ => 0
  | S754_finite s m e =>
      let a := if 0 <=? e then Z.shiftl (Zpos m) e
               else Z.shiftr (Zpos m) (- e) in
      if s then - a else a
  | S754_infinity _ | S754_nan => - 2 ^ 63
  end.

(** [np.min] / [np.max] of a float array: a NaN element wins. *)
Definition fmin (a b : float) : float :=
  if PrimFloat.is_nan a then a else if PrimFloat.is_nan b then b
  else if PrimFloat.ltb b a then b else a.
Definition fmax (a b : float) : float :=
  if PrimFloat.is_nan a then a else if PrimFloat.is_nan b then b
  else if PrimFloat.ltb a b then b else a.

Definition np_min_float (l : list float) : option float :=
  match l with [] => None | x :: t => Some (fold_left fmin t x) end.
Definition np_max_float (l : list float) : option float :=
  match l with [] => None | x :: t => Some (fold_left fmax t x) end.
Definition np_min_int (l : list Z) : option Z :=
  match l with [] => None | x :: t => Some (fold_left Z.min t x) end.
Definition np_max_int (l : list Z) : option Z :=
  match l with [] => None | x :: t => Some (fold_left Z.max t x) end.

(** [np.clip(a, lo, hi)] on one element: [minimum(maximum(a, lo), hi)]. *)
Definition clip (lo hi a : Z) : Z := Z.min (Z.max a lo) hi.

(** [np.unique]: the sorted distinct values. *)
Fixpoint insert_unique (x : Z) (l : list Z) : list Z :=
  match l with
  | [] => [x]
  | y :: t => if x <? y then x :: y :: t
              else if x =? y then y :: t
              else y :: insert_unique x t
  end.
Definition np_unique (l : list Z) : list Z := fold_right insert_unique [] l.

(** [train_sizes] after [np.asarray]: a float array or an integer array. *)
Inductive sizes : Type :=
| Floats (l : list float)
| Ints (l : list Z).

Definition n_ticks (s : sizes) : nat :=
  match s with Floats l => length l | Ints l => length l end.

(** The absolute sizes before [np.unique] (lines 183-186 for fractions; an
    integer array is kept as it is). *)
Definition absolute_sizes (s : sizes) (n_max_training_samples : Z) : list Z :=
  match s with
  | Floats l =>
      map (fun f => clip 1 n_max_training_samples
                      (float_to_int
                         (PrimFloat.mul f (float_of_Z n_max_training_samples))))
          l
  | Ints l => l
  end.

Definition empty_reduction : exn :=
  ValueError "zero-size array to reduction operation has no identity".
Definition fractions_out_of_range : exn :=
  ValueError "train_sizes has been interpreted as fractions of the maximum number of training samples and must be within (0, 1]".
Definition counts_out_of_range : exn :=
  ValueError "train_sizes has been interpreted as absolute numbers of training samples and is out of range".
Definition duplicates_removed : warning :=
  RuntimeWarning "Removed duplicate entries from 'train_sizes'. Number of ticks will be less than than the size of 'train_sizes'".

Definition _translate_train_sizes {W} (train_sizes : sizes)
    (n_max_training_samples : Z) : M W (list Z) :=
  let n_ticks := n_ticks train_sizes in
  train_sizes_abs <-
    match train_sizes with
    | Floats l =>
        match np_min_float l, np_max_float l with
        | Some n_min_required_samples, Some n_max_required_samples =>
            if PrimFloat.leb n_min_required_samples 0%float
               || PrimFloat.ltb 1%float n_max_required_samples
            then raise fractions_out_of_range
            else ret (absolute_sizes train_sizes n_max_training_samples)
        | _, _ => raise empty_reduction
        end
    | Ints l =>
        match np_min_int l, np_max_int l with
        | Some n_min_required_samples, Some n_max_required_samples =>
            if (n_min_required_samples <=? 0)
               || (n_max_training_samples <? n_max_required_samples)
            then raise counts_out_of_range
            else ret (absolute_sizes train_sizes n_max_training_samples)
        | _, _ => raise empty_reduction
        end
    end ;;
  let train_sizes_abs := np_unique train_sizes_abs in
  (if (length train_sizes_abs <? n_ticks)%nat
   then warn duplicates_removed else ret tt) ;;;
  ret train_sizes_abs.

(** *** The driver *)

(** A fold's index set: a boolean mask or a list of integer indices. *)
Inductive index_array : Type :=
| Mask (m : list bool)
| Idx (l : list nat).

Definition is_bool_dtype (a : index_array) : bool :=
  match a with Mask _ => true | Idx _ => false end.

Definition len (a : index_array) : nat :=
  match a with Mask m => List.length m | Idx l => List.length l end.

(** [np.nonzero(a)[0]]. *)
Fixpoint nonzero_from {A} (nz : A -> bool) (i : nat) (l : list A) : list nat :=
  match l with
  | [] => []
  | x :: t => if nz x then i :: nonzero_from nz (S i) t
              else nonzero_from nz (S i) t
  end.
Definition np_nonzero (a : index_array) : index_array :=
  match a with
  | Mask m => Idx (nonzero_from (fun b : bool => b) 0 m)
  | Idx l => Idx (nonzero_from (fun n => negb (Nat.eqb n 0)) 0 l)
  end.

(** [a[lo:hi]] for [0 <= lo], [0 <= hi]. *)
Definition slice (lo hi : nat) (a : index_array) : index_array :=
  match a with
  | Mask m => Mask (firstn (hi - lo) (skipn lo m))
  | Idx l => Idx (firstn (hi - lo) (skipn lo l))
  end.

(** [zip(train_sizes, np.split(train, train_sizes)[:-1])]. *)
Fixpoint partitions_from (start : nat) (train : index_array)
    (train_sizes : list Z) : list (Z * index_array) :=
  match train_sizes with
  | [] => []
  | n :: rest =>
      (n, slice start (Z.to_nat n) train)
        :: partitions_from (Z.to_nat n) train rest
  end.

(** Mean over the folds, tick by tick, of (train score, test score). *)
Definition qsum (l : list Q) : Q := fold_right Qplus 0%Q l.
Definition qmean (l : list Q) : Q := (qsum l / inject_Z (Z.of_nat (List.length l)))%Q.
Definition mean_axis0 (n_unique_ticks : nat) (out : list (list (Q * Q)))
  : list (Q * Q) :=
  map (fun k => (qmean (map (fun fold => fst (nth k fold (0%Q, 0%Q))) out),
                 qmean (map (fun fold => snd (nth k fold (0%Q, 0%Q))) out)))
      (seq 0 n_unique_ticks).

(** [out.reshape(n_cv_folds, n_unique_ticks, 2)] of the flat task list. *)
Fixpoint reshape_folds {A} (n_cv_folds n_unique_ticks : nat) (out : list A)
  : list (list A) :=
  match n_cv_folds with
  | O => []
  | S k => firstn n_unique_ticks out
             :: reshape_folds k n_unique_ticks (skipn n_unique_ticks out)
  end.

Section Driver.

(** Collaborators from [base], [cross_validation], [utils], [metrics] and
    [grid_search]; an estimator is an object whose state lives in the
    world. *)
Variables W Est Data CV Scoring Scorer Classes : Type.
Variable has_partial_fit : Est -> bool.
Variable is_classifier : Est -> bool.
Variable check_arrays : Data -> M W Data.
Variable _check_cv : CV -> Data -> bool -> M W (list (index_array * index_array)).
Variable _check_scorable : Est -> Scoring -> M W unit.
Variable get_scorer : Scoring -> M W Scorer.
Variable np_unique_y : Data -> Classes.
Variable clone : Est -> M W Est.
Variable _split : Est -> Data -> index_array -> option index_array -> M W Data.
Variable _fit : Est -> Data -> M W unit.
Variable _fit_partial : Est -> Data -> option Classes -> M W unit.
Variable _score : Est -> Data -> Scorer -> M W Q.

Definition _fit_estimator (base_estimator : Est) (Xy : Data)
    (train test : index_array) (n_train_samples : Z) (scorer : Scorer)
  : M W (Q * Q) :=
  let train_subset := slice 0 (Z.to_nat n_train_samples) train in
  estimator <- clone base_estimator ;;
  train_data <- _split estimator Xy train_subset None ;;
  test_data <- _split estimator Xy test (Some train_subset) ;;
  _fit estimator train_data ;;;
  train_score <- _score estimator train_data scorer ;;
  test_score <- _score estimator test_data scorer ;;
  ret (train_score, test_score).

Definition _incremental_fit_estimator (base_estimator : Est) (Xy : Data)
    (classes : option Classes) (train test : index_array)
    (train_sizes : list Z) (scorer : Scorer) : M W (list (Q * Q)) :=
  estimator <- clone base_estimator ;;
  mapM (fun '(n_train_samples, partial_train) =>
          let seen := slice 0 (Z.to_nat n_train_samples) train in
          train_data <- _split estimator Xy seen None ;;
          partial_data <- _split estimator Xy partial_train None ;;
          test_data <- _split estimator Xy test (Some seen) ;;
          _fit_partial estimator partial_data classes ;;;
          train_score <- _score estimator train_data scorer ;;
          test_score <- _score estimator test_data scorer ;;
          ret (train_score, test_score))
       (partitions_from 0 train train_sizes).

Definition no_partial_fit : exn :=
  ValueError "An estimator must support the partial_fit interface to exploit incremental learning".

Definition learning_curve (estimator : Est) (Xy : Data) (train_sizes : sizes)
    (cv : CV) (scoring : Scoring) (exploit_incremental_learning : bool)
  : M W (list Z * list Q * list Q) :=
  if exploit_incremental_learning && negb (has_partial_fit estimator)
  then raise no_partial_fit
  else
    Xy <- check_arrays Xy ;;
    cv <- _check_cv cv Xy (is_classifier estimator) ;;
    match cv with
    | [] => raise (IndexError "list index out of range")
    | (train0, _) :: _ =>
        let cv := if is_bool_dtype train0
                  then map (fun f => (np_nonzero (fst f), np_nonzero (snd f))) cv
                  else cv in
        let n_max_training_samples :=
          match cv with (t, _) :: _ => len t | [] => O end in
        train_sizes_abs <-
          _translate_train_sizes train_sizes (Z.of_nat n_max_training_samples) ;;
        let n_unique_ticks := List.length train_sizes_abs in
        _check_scorable estimator scoring ;;;
        scorer <- get_scorer scoring ;;
        out <-
          (if exploit_incremental_learning then
             let classes := if is_classifier estimator
                            then Some (np_unique_y Xy) else None in
             mapM (fun '(train, test) =>
                     _incremental_fit_estimator estimator Xy classes
                       train test train_sizes_abs scorer) cv
           else
             out <- mapM (fun '(train, test, n_train_samples) =>
                            _fit_estimator estimator Xy train test
                              n_train_samples scorer)
                      (flat_map (fun f => map (fun n => (f, n)) train_sizes_abs) cv) ;;
             let n_cv_folds := (List.length out / n_unique_ticks)%nat in
             ret (reshape_folds n_cv_folds n_unique_ticks out)) ;;
        let avg_over_cv := mean_axis0 n_unique_ticks out in
        ret (train_sizes_abs, map fst avg_over_cv, map snd avg_over_cv)
    end.

End Driver.

End LearningCurve.

(* ================================================================== *)
(** ** Dense arrays over exact rationals *)

Module Np.

Local Open Scope Q_scope.

(** An [ndarray]: its shape and its elements in C order. *)
Record ndarray : Type := Array { shape : list nat; data : list Q }.

Definition ndim (a : ndarray) : nat := List.length (shape a).
Definition dim (k : nat) (a : ndarray) : nat := nth k (shape a) 0%nat.
Definition size (a : ndarray) : nat := fold_right Nat.mul 1%nat (shape a).
(** Number of elements under one index of the leading axis. *)
Definition row_size (a : ndarray) : nat := fold_right Nat.mul 1%nat (tl (shape a)).

Definition qltb (a b : Q) : bool := negb (Qle_bool b a).
Definition qsum (l : list Q) : Q := fold_right Qplus 0 l.
Fixpoint map2 {A B C} (f : A -> B -> C) (u : list A) (v : list B) : list C :=
  match u, v with
  | a :: u', b :: v' => f a b :: map2 f u' v'
  | _, _ => []
  end.
Definition vdot (u v : list Q) : Q := qsum (map2 Qmult u v).

Definition get1 (a : ndarray) (i : nat) : Q := nth i (data a) 0.
Definition get2 (a : ndarray) (i j : nat) : Q :=
  nth (i * dim 1 a + j) (data a) 0.

Definition tabulate1 (n : nat) (f : nat -> Q) : ndarray :=
  Array [n] (map f (seq 0 n)).
Definition tabulate2 (n p : nat) (f : nat -> nat -> Q) : ndarray :=
  Array [n; p] (flat_map (fun i => map (f i) (seq 0 p)) (seq 0 n)).

Definition vector (v : list Q) : ndarray := Array [List.length v] v.
Definition of_rows (n p : nat) (rows : list (list Q)) : ndarray :=
  tabulate2 n p (fun i j => nth j (nth i rows []) 0).

(** [a[i]] and [a[:, j]] of a 2-D array, [a.T], [a.ravel()],
    [y.reshape(-1, 1)] of a 1-D array. *)
Definition row (a : ndarray) (i : nat) : list Q :=
  map (fun j => get2 a i j) (seq 0 (dim 1 a)).
Definition column (a : ndarray) (j : nat) : list Q :=
  map (fun i => get2 a i j) (seq 0 (dim 0 a)).
Definition rows (a : ndarray) : list (list Q) := map (row a) (seq 0 (dim 0 a)).
Definition transpose (a : ndarray) : ndarray :=
  tabulate2 (dim 1 a) (dim 0 a) (fun i j => get2 a j i).
Definition ravel (a : ndarray) : ndarray := Array [size a] (data a).
Definition reshape_column (a : ndarray) : ndarray := Array [size a; 1%nat] (data a).

(** [np.dot] / [safe_sparse_dot(..., dense_output=True)] of two matrices. *)
Definition dot (a b : ndarray) : result ndarray :=
  if Nat.eqb (dim 1 a) (dim 0 b)
  then Ok (tabulate2 (dim 0 a) (dim 1 b)
             (fun i j => vdot (row a i) (column b j)))
  else Raise (ValueError "matrices are not aligned").

(** [X1.matvec(x)] and [X1.rmatvec(x)]. *)
Definition matvec (a : ndarray) (x : list Q) : list Q :=
  map (fun i => vdot (row a i) x) (seq 0 (dim 0 a)).
Definition rmatvec (a : ndarray) (x : list Q) : list Q :=
  map (fun j => vdot (column a j) x) (seq 0 (dim 1 a)).

(** [A.flat[::n + 1] += c] on a square matrix: [c] is added on the diagonal. *)
Definition add_diag (a : ndarray) (c : Q) : ndarray :=
  tabulate2 (dim 0 a) (dim 1 a)
    (fun i j => if Nat.eqb i j then get2 a i j + c else get2 a i j).

(** Broadcasting of one axis, and the element-wise product of two matrices
    under it. *)
Definition broadcast_dim (m n : nat) : option nat :=
  if Nat.eqb m n then Some m
  else if Nat.eqb m 1 then Some n
  else if Nat.eqb n 1 then Some m
  else None.
Definition bidx (d i : nat) : nat := if Nat.eqb d 1 then 0%nat else i.
Definition mul2 (a b : ndarray) : result ndarray :=
  match broadcast_dim (dim 0 a) (dim 0 b), broadcast_dim (dim 1 a) (dim 1 b) with
  | Some n, Some p =>
      Ok (tabulate2 n p
            (fun i j => get2 a (bidx (dim 0 a) i) (bidx (dim 1 a) j)
                        * get2 b (bidx (dim 0 b) i) (bidx (dim 1 b) j)))
  | _, _ => Raise (ValueError "operands could not be broadcast together")
  end.
(** [a *= b]: the product must have the shape of [a]. *)
Definition imul2 (a b : ndarray) : result ndarray :=
  match mul2 a b with
  | Ok c => if andb (Nat.eqb (dim 0 c) (dim 0 a)) (Nat.eqb (dim 1 c) (dim 1 a))
            then Ok c
            else Raise (ValueError "non-broadcastable output operand")
  | Raise e => Raise e
  end.

(** A column ([v[:, np.newaxis]]) and a row ([v[np.newaxis, :]]) vector. *)
Definition as_column (v : list Q) : ndarray := Array [List.length v; 1%nat] v.
Definition as_row (v : list Q) : ndarray := Array [1%nat; List.length v] v.
Definition outer (u v : list Q) : ndarray :=
  tabulate2 (List.length u) (List.length v) (fun i j => nth i u 0 * nth j v 0).

(** The routines of LAPACK, ARPACK and libm behind [scipy.linalg],
    [scipy.sparse.linalg] and [np.sqrt], and the contents of fresh
    [np.empty] memory.  A routine yields the elements of its result; the
    wrappers below give them the shape that the library documents.  [None]
    stands for [LinAlgError]. *)
Record numerics : Type := Numerics {
  lapack_posv : ndarray -> ndarray -> option (list Q);
  lapack_gesdd : ndarray -> option (list Q * list Q * list Q);
  lapack_syevd : ndarray -> option (list Q * list Q);
  sp_cg : nat -> (list Q -> list Q) -> list Q -> option Z -> Q -> list Q * Z;
  sp_lsqr : ndarray -> list Q -> Q -> Q -> option Z -> list Q;
  np_sqrt : Q -> Q;
  np_empty : nat -> list Q;
  has_lsqr : bool
}.

(** [scipy.linalg.solve(A, b, sym_pos=True)]: [x] has the shape of [b]. *)
Definition linalg_solve (L : numerics) (a b : ndarray) : result ndarray :=
  if andb (Nat.eqb (dim 0 a) (dim 1 a)) (Nat.eqb (dim 0 a) (dim 0 b))
  then match lapack_posv L a b with
       | Some x => Ok (Array (shape b) x)
       | None => Raise LinAlgError
       end
  else Raise (ValueError "incompatible dimensions").

(** [scipy.linalg.svd(X, full_matrices=False)]: [U] is (n, k), [s] is (k,)
    and [Vt] is (k, p) for k = min(n, p). *)
Definition linalg_svd (L : numerics) (x : ndarray)
  : result (ndarray * ndarray * ndarray) :=
  match lapack_gesdd L x with
  | Some (u, s, vt) =>
      let k := Nat.min (dim 0 x) (dim 1 x) in
      Ok (Array [dim 0 x; k] u, Array [k] s, Array [k; dim 1 x] vt)
  | None => Raise LinAlgError
  end.

(** [scipy.linalg.eigh(K)]: eigenvalues (n,) and eigenvectors (n, n). *)
Definition linalg_eigh (L : numerics) (k : ndarray) : result (ndarray * ndarray) :=
  match lapack_syevd L k with
  | Some (v, q) => Ok (Array [dim 0 k] v, Array [dim 0 k; dim 0 k] q)
  | None => Raise LinAlgError
  end.

End Np.

(* ================================================================== *)
(** ** linear_model/ridge.py: the solvers and their dispatch *)

Module Ridge.

Import Np.
Local Open Scope Q_scope.
Local Open Scope py_scope.
Local Open Scope string_scope.

(** [sample_weight]: a float or an array. *)
Inductive weight : Type :=
| WFloat (q : Q)
| WArray (v : list Q).

(** [isinstance(sample_weight, np.ndarray) or sample_weight != 1.0]. *)
Definition has_sample_weight (sample_weight : weight) : bool :=
  match sample_weight with
  | WArray _ => true
  | WFloat q => negb (Qeq_bool q 1)
  end.

(** [alpha[i]]. *)
Definition index {W} (alpha : list Q) (i : nat) : M W Q :=
  match nth_error alpha i with
  | Some a => ret a
  | None => raise (IndexError "index out of bounds")
  end.

(** [np.array_equal(alpha, len(alpha) * [alpha[0]])]. *)
Definition all_equal_to (a0 : Q) (alpha : list Q) : bool :=
  forallb (Qeq_bool a0) alpha.

(** [np.empty((n, p))] whose first rows have been assigned. *)
Definition fill_rows (L : numerics) (n p : nat) (assigned : list (list Q))
  : ndarray :=
  of_rows n p
    (assigned ++ map (fun _ => np_empty L p) (seq 0 (n - List.length assigned))).

Section Solvers.

Variable W : Type.
Variable L : numerics.

Definition _solve_sparse_cg (X y : ndarray) (alpha : list Q)
    (max_iter : option Z) (tol : Q) : M W ndarray :=
  let n_samples := dim 0 X in
  let n_features := dim 1 X in
  let create_mv (curr_alpha : Q) (x : list Q) : list Q :=
    if (n_samples <? n_features)%nat
    then map2 Qplus (matvec X (rmatvec X x)) (map (Qmult curr_alpha) x)
    else map2 Qplus (rmatvec X (matvec X x)) (map (Qmult curr_alpha) x) in
  coefs <-
    mapM (fun i =>
            let y_column := column y i in
            a <- index alpha i ;;
            let mv := create_mv a in
            '(coef, info) <-
              (if (n_samples <? n_features)%nat then
                 (* kernel ridge: w = X.T * inv(X X^t + alpha*Id) y *)
                 let '(coef, info) := sp_cg L n_samples mv y_column None tol in
                 ret (rmatvec X coef, info)
               else
                 (* linear ridge: w = inv(X^t X + alpha*Id) * X.T y *)
                 let y_column := rmatvec X y_column in
                 ret (sp_cg L n_features mv y_column max_iter tol)) ;;
            if (info =? 0)%Z then ret coef
            else raise (ValueError "Failed with error code"))
         (seq 0 (dim 1 y)) ;;
  ret (fill_rows L (dim 1 y) n_features coefs).

Definition _solve_lsqr (X y : ndarray) (alpha : list Q)
    (max_iter : option Z) (tol : Q) : M W ndarray :=
  let n_features := dim 1 X in
  (* According to the lsqr documentation, alpha = damp^2. *)
  let sqrt_alpha := map (np_sqrt L) alpha in
  coefs <-
    mapM (fun i =>
            let y_column := column y i in
            damp <- index sqrt_alpha i ;;
            ret (sp_lsqr L X y_column damp tol max_iter))
         (seq 0 (dim 1 y)) ;;
  ret (fill_rows L (dim 1 y) n_features coefs).

(** The loop [for coef, target, current_alpha in zip(coefs, targets,
    alpha)] of the two Cholesky solvers: the penalty is added on the
    diagonal, the system solved, and the penalty taken off again. *)
Fixpoint solve_each (A : ndarray) (targets : list (list Q * Q))
  : M W (list (list Q)) :=
  match targets with
  | [] => ret []
  | (target, current_alpha) :: rest =>
      let A := add_diag A current_alpha in
      x <- lift (linalg_solve L A (vector target)) ;;
      let A := add_diag A (- current_alpha) in
      xs <- solve_each A rest ;;
      ret (data (ravel x) :: xs)
  end.

Definition _solve_dense_cholesky (X y : ndarray) (alpha : list Q)
  : M W ndarray :=
  (* w = inv(X^t X + alpha*Id) * X.T y *)
  let n_features := dim 1 X in
  let n_targets := dim 1 y in
  A <- lift (dot (transpose X) X) ;;
  Xy <- lift (dot (transpose X) y) ;;
  alpha0 <- index alpha 0 ;;
  let one_alpha := all_equal_to alpha0 alpha in
  if one_alpha then
    let A := add_diag A alpha0 in
    x <- lift (linalg_solve L A Xy) ;;
    ret (transpose x)
  else
    coefs <- solve_each A (combine (firstn n_targets (rows (transpose Xy))) alpha) ;;
    ret (fill_rows L n_targets n_features coefs).

Definition _solve_dense_cholesky_kernel (K y : ndarray) (alpha : list Q)
    (sample_weight : weight) : M W ndarray :=
  (* dual_coef = inv(X X^t + alpha*Id) y *)
  let n_samples := dim 0 K in
  let n_targets := dim 1 y in
  alpha0 <- index alpha 0 ;;
  let one_alpha := all_equal_to alpha0 alpha in
  let has_sw := has_sample_weight sample_weight in
  '(sw, y, K) <-
    (if has_sw then
       match sample_weight with
       | WFloat _ =>
           (* [sw] is a numpy scalar: [sw[:, np.newaxis]] has no axis to slice *)
           raise (IndexError "invalid index to scalar variable.")
       | WArray v =>
           let sw := map (np_sqrt L) v in
           y <- lift (mul2 y (as_column sw)) ;;
           K <- lift (imul2 K (outer sw sw)) ;;
           ret (sw, y, K)
       end
     else ret ([], y, K)) ;;
  if one_alpha then
    (* Only one penalty, we can solve multi-target problems in one time. *)
    let K := add_diag K alpha0 in
    dual_coef <- lift (linalg_solve L K y) ;;
    if has_sw then lift (imul2 dual_coef (as_column sw)) else ret dual_coef
  else
    (* One penalty per target. We need to solve each target separately. *)
    rows_ <- solve_each K (combine (firstn n_targets (rows (transpose y))) alpha) ;;
    let dual_coefs := fill_rows L n_targets n_samples rows_ in
    dual_coefs <- (if has_sw then lift (imul2 dual_coefs (as_row sw))
                   else ret dual_coefs) ;;
    ret (transpose dual_coefs).

Definition _solve_svd (X y : ndarray) (alpha : list Q) : M W ndarray :=
  '(U, s, Vt) <- lift (linalg_svd L X) ;;
  (* same default value as scipy.linalg.pinv *)
  let idx (s_i : Q) : bool := qltb (1 # 1000000000000000) s_i in
  UTy <- lift (dot (transpose U) y) ;;
  let d := of_rows (size s) (List.length alpha)
             (map (fun s_i =>
                     if idx s_i then map (fun a => s_i / (s_i * s_i + a)) alpha
                     else map (fun _ => 0) alpha)
                  (data s)) in
  d_UT_y <- lift (mul2 d UTy) ;;
  c <- lift (dot (transpose Vt) d_UT_y) ;;
  ret (transpose c).

(** The design matrix: its elements, and whether it is a dense array
    ([hasattr(X, '__array__')]) rather than a sparse matrix. *)
Record design : Type := Design { values : ndarray; is_array : bool }.

Definition unpack2 (a : ndarray) : M W (nat * nat) :=
  match shape a with
  | [n; p] => ret (n, p)
  | _ => raise (ValueError "wrong number of values to unpack")
  end.

Definition ridge_regression (Xd : design) (y : ndarray) (alpha : list Q)
    (sample_weight : weight) (solver : string) (max_iter : option Z)
    (tol : Q) : M W ndarray :=
  let X := values Xd in
  '(n_samples, n_features) <- unpack2 X ;;
  if (2 <? ndim y)%nat then raise (ValueError "Target y has the wrong shape")
  else
  let '(y, ravel_) := if (ndim y =? 1)%nat then (reshape_column y, true)
                      else (y, false) in
  '(n_samples_, n_targets) <- unpack2 y ;;
  if negb (n_samples =? n_samples_)%nat
  then raise (ValueError "Number of samples in X and y does not correspond")
  else
  let has_sw := has_sample_weight sample_weight in
  solver <-
    (if solver =? "auto" then
       (* cholesky if it's a dense array and cg in any other case *)
       ret (if is_array Xd then "dense_cholesky" else "sparse_cg")
     else if (solver =? "lsqr") && negb (has_lsqr L) then
       warn (UserWarning "lsqr not available on this machine, falling back to sparse_cg.") ;;;
       ret "sparse_cg"
     else ret solver) ;;
  solver <-
    (if has_sw && negb (solver =? "dense_cholesky") then
       warn (UserWarning "sample_weight and class_weight not supported, fall back to dense_cholesky.") ;;;
       ret "dense_cholesky"
     else ret solver) ;;
  (* There should be either 1 or n_targets penalties *)
  if negb ((List.length alpha =? 1)%nat || (List.length alpha =? n_targets)%nat)
  then raise (ValueError "Number of targets and number of penalties do not correspond")
  else
  let alpha := if (List.length alpha =? 1)%nat && (1 <? n_targets)%nat
               then flat_map (fun a => repeat a n_targets) alpha
               else alpha in
  (* line 275-276: the exception is built and dropped, nothing is raised *)
  let _ := if negb (existsb (String.eqb solver)
                      ["sparse_cg"; "dense_cholesky"; "svd"; "lsqr"])
           then Some (ValueError "Solver not understood") else None in
  '(solver, coef) <-
    (if solver =? "sparse_cg" then
       coef <- _solve_sparse_cg X y alpha max_iter tol ;;
       ret (solver, Some coef)
     else if solver =? "lsqr" then
       coef <- _solve_lsqr X y alpha max_iter tol ;;
       ret (solver, Some coef)
     else if solver =? "dense_cholesky" then
       if (n_samples <? n_features)%nat || has_sw then
         K <- lift (dot X (transpose X)) ;;
         '(solver, dual_coef) <-
           try_except
             (dual_coef <- _solve_dense_cholesky_kernel K y alpha sample_weight ;;
              ret (solver, Some dual_coef))
             is_LinAlgError
             (* use SVD solver if matrix is singular *)
             (ret ("svd", None)) ;;
         dual_coef <- local "dual_coef" dual_coef ;;
         c <- lift (dot (transpose X) dual_coef) ;;
         ret (solver, Some (transpose c))
       else
         try_except
           (coef <- _solve_dense_cholesky X y alpha ;;
            ret (solver, Some coef))
           is_LinAlgError
           (* use SVD solver if matrix is singular *)
           (ret ("svd", None))
     else ret (solver, None)) ;;
  coef <-
    (if solver =? "svd" then
       coef <- _solve_svd X y alpha ;;
       ret (Some coef)
     else ret coef) ;;
  coef <-
    (if ravel_ : bool then
       (* When y was passed as a 1d-array, we flatten the coefficients. *)
       coef <- local "coef" coef ;;
       ret (Some (ravel coef))
     else ret coef) ;;
  local "coef" coef.

End Solvers.

End Ridge.

(* ================================================================== *)
(** ** Exact reference numerics

    An instance of [Np.numerics] in exact rational arithmetic, to run the
    solvers on concrete inputs.  The Cholesky solve fails exactly when a pivot
    of the elimination is not positive, that is, when the matrix is not
    positive definite.  The decompositions cover matrices for which they are
    rational: diagonal matrices (singular values and eigenvalues are then
    listed in the order of the diagonal) and one-by-one matrices. *)

Module Exact.

Import Np.
Local Open Scope Q_scope.

(** Elimination on the rows of the augmented matrix [A | B]; the result is
    the rows of the solution. *)
Fixpoint eliminate (n t : nat) (aug : list (list Q)) : option (list (list Q)) :=
  match n, aug with
  | S n', (pivot :: r) :: rest =>
      if Qle_bool pivot 0 then None
      else
        let r1 := map (fun c => c / pivot) r in
        let rest' := map (fun row => match row with
                                     | [] => []
                                     | c :: row' =>
                                         map2 Qminus row' (map (Qmult c) r1)
                                     end) rest in
        match eliminate n' t rest' with
        | None => None
        | Some xs =>
            let x1 := map (fun c => nth (n' + c) r1 0
                                    - qsum (map2 (fun a x => a * nth c x 0)
                                              (firstn n' r1) xs))
                          (seq 0 t) in
            Some (x1 :: xs)
        end
  | O, [] => Some []
  | _, _ => None
  end.

Definition posv (a b : ndarray) : option (list Q) :=
  let n := dim 0 a in
  let t := row_size b in
  let aug := map (fun i => row a i ++ firstn t (skipn (i * t) (data b))) (seq 0 n) in
  option_map (@concat Q) (eliminate n t aug).

Definition is_nonneg_diagonal (a : ndarray) : bool :=
  forallb (fun i => forallb (fun j => if Nat.eqb i j then Qle_bool 0 (get2 a i j)
                                      else Qeq_bool 0 (get2 a i j))
                      (seq 0 (dim 1 a)))
          (seq 0 (dim 0 a)).
Definition eye (n p : nat) : list Q :=
  data (tabulate2 n p (fun i j => if Nat.eqb i j then 1 else 0)).

Definition gesdd (x : ndarray) : option (list Q * list Q * list Q) :=
  let n := dim 0 x in
  let p := dim 1 x in
  let k := Nat.min n p in
  if is_nonneg_diagonal x
  then Some (eye n k, map (fun i => get2 x i i) (seq 0 k), eye k p)
  else if andb (Nat.eqb n 1) (Nat.eqb p 1)
  then let v := get2 x 0 0 in
       Some ([if Qle_bool 0 v then 1 else - (1)], [Qabs v], [1])
  else None.

Definition is_diagonal (a : ndarray) : bool :=
  forallb (fun i => forallb (fun j => orb (Nat.eqb i j) (Qeq_bool 0 (get2 a i j)))
                      (seq 0 (dim 1 a)))
          (seq 0 (dim 0 a)).
Definition syevd (k : ndarray) : option (list Q * list Q) :=
  if is_diagonal k
  then Some (map (fun i => get2 k i i) (seq 0 (dim 0 k)), eye (dim 0 k) (dim 0 k))
  else None.

(** The operator as a matrix, column by column, then the exact solve. *)
Definition unit_vector (n j : nat) : list Q :=
  map (fun i => if Nat.eqb i j then 1 else 0) (seq 0 n).
Definition cg (n : nat) (mv : list Q -> list Q) (b : list Q)
    (maxiter : option Z) (tol : Q) : list Q * Z :=
  let c := transpose (of_rows n n (map (fun j => mv (unit_vector n j)) (seq 0 n))) in
  match posv c (vector b) with
  | Some x => (x, 0%Z)
  | None => (repeat 0 n, 1%Z)
  end.

Definition lsqr (x : ndarray) (b : list Q) (damp tol : Q) (iter_lim : option Z)
  : list Q :=
  let xt := transpose x in
  match dot xt x with
  | Ok a =>
      match posv (add_diag a (damp * damp)) (vector (rmatvec x b)) with
      | Some w => w
      | None => repeat 0 (dim 1 x)
      end
  | Raise _ => repeat 0 (dim 1 x)
  end.

(** Exact on squares of rationals. *)
Definition sqrt (q : Q) : Q := Z.sqrt (Qnum q) # Pos.sqrt (Qden q).

Definition reference : numerics :=
  Numerics posv gesdd syevd cg lsqr sqrt (fun n => repeat 0 n) true.

End Exact.

(* ================================================================== *)
(** ** linear_model/ridge.py: generalized cross-validation *)

Module RidgeGCV.

Import Np Ridge.
Local Open Scope Q_scope.
Local Open Scope py_scope.
Local Open Scope string_scope.

Definition shape_error {A} : result A :=
  Raise (ValueError "operands could not be broadcast together").

(** One-dimensional [u op v] with broadcasting. *)
Definition broadcast1 (f : Q -> Q -> Q) (u v : list Q) : result (list Q) :=
  if (List.length u =? List.length v)%nat then Ok (map2 f u v)
  else match u, v with
       | [a], _ => Ok (map (f a) v)
       | _, [b] => Ok (map (fun x => f x b) u)
       | _, _ => shape_error
       end.

(** [v op alpha] for a penalty that is a float or one value per sample. *)
Definition with_penalty (f : Q -> Q -> Q) (v : list Q) (alpha : weight)
  : result (list Q) :=
  match alpha with
  | WFloat a => Ok (map (fun x => f x a) v)
  | WArray l => broadcast1 f v l
  end.

(** [sample_weight * alpha]. *)
Definition scale_penalty (sample_weight : weight) (alpha : Q) : weight :=
  match sample_weight with
  | WFloat s => WFloat (s * alpha)
  | WArray l => WArray (map (fun s => s * alpha) l)
  end.

(** [f(d[i], b[i, ...])] for every index [i] of the leading axis: the
    product [d[:, np.newaxis] * b] and the quotient [b / d[:, np.newaxis]]. *)
Definition along_rows (f : Q -> Q -> Q) (d : list Q) (b : ndarray)
  : result ndarray :=
  if (List.length d =? dim 0 b)%nat
  then Ok (Array (shape b)
             (flat_map (fun i => map (fun c => f (nth i d 0)
                                                 (nth (i * row_size b + c) (data b) 0))
                                   (seq 0 (row_size b)))
                       (seq 0 (dim 0 b))))
  else shape_error.

(** [np.dot(q, b)] for a matrix [q] and a vector or matrix [b]. *)
Definition dot_left (q b : ndarray) : result ndarray :=
  if (dim 1 q =? dim 0 b)%nat
  then Ok (Array (dim 0 q :: tl (shape b))
             (flat_map (fun i =>
                          map (fun c =>
                                 qsum (map (fun k => get2 q i k
                                                     * nth (k * row_size b + c) (data b) 0)
                                           (seq 0 (dim 1 q))))
                              (seq 0 (row_size b)))
                       (seq 0 (dim 0 q))))
  else Raise (ValueError "matrices are not aligned").

(** [np.dot(c.T, X)]: [c] is (n,) or (n, t). *)
Definition dot_transposed (c X : ndarray) : result ndarray :=
  if (ndim c =? 1)%nat
  then if (dim 0 c =? dim 0 X)%nat
       then Ok (vector (rmatvec X (data c)))
       else Raise (ValueError "matrices are not aligned")
  else dot (transpose c) X.

(** [_decomp_diag]: the diagonal of [dot(Q, dot(diag(v_prime), Q^T))]. *)
Definition _decomp_diag (v_prime : list Q) (q : ndarray) : result (list Q) :=
  if (List.length v_prime =? dim 1 q)%nat || (List.length v_prime =? 1)%nat
     || (dim 1 q =? 1)%nat
  then Ok (map (fun i =>
                  qsum (map (fun j =>
                               nth (bidx (List.length v_prime) j) v_prime 0
                               * (get2 q i (bidx (dim 1 q) j) * get2 q i (bidx (dim 1 q) j)))
                            (seq 0 (Nat.max (List.length v_prime) (dim 1 q)))))
               (seq 0 (dim 0 q)))
  else shape_error.

(** [_diag_dot]: [dot(diag(D), B)]. *)
Definition _diag_dot (D : list Q) (B : ndarray) : result ndarray :=
  along_rows Qmult D B.

Definition rbind {A B} (r : result A) (k : A -> result B) : result B :=
  match r with Ok a => k a | Raise e => Raise e end.

Definition _errors (alpha : weight) (y v q QT_y : ndarray)
  : result (ndarray * ndarray) :=
  (* don't construct matrix G, instead compute action on y & diagonal *)
  rbind (with_penalty (fun x a => 1 / (x + a)) (data v) alpha) (fun w =>
  rbind (_diag_dot w QT_y) (fun wQT_y =>
  rbind (dot_left q wQT_y) (fun c =>
  rbind (_decomp_diag w q) (fun G_diag =>
  rbind (along_rows (fun g x => (x / g) * (x / g)) G_diag c) (fun out =>
  Ok (out, c)))))).

Definition _values (alpha : weight) (y v q QT_y : ndarray)
  : result (ndarray * ndarray) :=
  rbind (with_penalty (fun x a => 1 / (x + a)) (data v) alpha) (fun w =>
  rbind (_diag_dot w QT_y) (fun wQT_y =>
  rbind (dot_left q wQT_y) (fun c =>
  rbind (_decomp_diag w q) (fun G_diag =>
  rbind (along_rows (fun g x => x / g) G_diag c) (fun ratio =>
  if list_eq_dec Nat.eq_dec (shape y) (shape ratio)
  then Ok (Array (shape y) (map2 Qminus (data y) (data ratio)), c)
  else shape_error))))).

(** The SVD variants receive a float penalty: array weights force the
    eigen mode before they are selected. *)
Definition svd_c_and_diag (alpha : Q) (y v U UT_y : ndarray)
  : result (ndarray * list Q) :=
  let w := map (fun x => / (x + alpha) - / alpha) (data v) in
  rbind (_diag_dot w UT_y) (fun wUT_y =>
  rbind (dot_left U wUT_y) (fun Uw =>
  if list_eq_dec Nat.eq_dec (shape Uw) (shape y)
  then let c := Array (shape y)
                  (map2 Qplus (data Uw) (map (Qmult (/ alpha)) (data y))) in
       rbind (_decomp_diag w U) (fun d =>
       Ok (c, map (fun g => g + / alpha) d))
  else shape_error)).

Definition _errors_svd (alpha : Q) (y v U UT_y : ndarray)
  : result (ndarray * ndarray) :=
  rbind (svd_c_and_diag alpha y v U UT_y) (fun '(c, G_diag) =>
  rbind (along_rows (fun g x => (x / g) * (x / g)) G_diag c) (fun out =>
  Ok (out, c))).

Definition _values_svd (alpha : Q) (y v U UT_y : ndarray)
  : result (ndarray * ndarray) :=
  rbind (svd_c_and_diag alpha y v U UT_y) (fun '(c, G_diag) =>
  rbind (along_rows (fun g x => x / g) G_diag c) (fun ratio =>
  Ok (Array (shape y) (map2 Qminus (data y) (data ratio)), c))).

Definition float_penalty {A} (f : Q -> result A) (alpha : weight) : result A :=
  match alpha with
  | WFloat a => f a
  | WArray _ => shape_error
  end.

(** [argmin] and [np.argmax]: the first index of an extremal element. *)
Fixpoint arg_from (better : Q -> Q -> bool) (best_i : nat) (best : Q) (i : nat)
    (l : list Q) : nat :=
  match l with
  | [] => best_i
  | x :: t => if better x best then arg_from better i x (S i) t
              else arg_from better best_i best (S i) t
  end.
Definition arg_first {W} (better : Q -> Q -> bool) (l : list Q) : M W nat :=
  match l with
  | [] => raise (ValueError "attempt to get argmin/argmax of an empty sequence")
  | x :: t => ret (arg_from better 0 x 1 t)
  end.
Definition argmin {W} : list Q -> M W nat := arg_first qltb.
Definition argmax {W} : list Q -> M W nat := arg_first (fun x best => qltb best x).

Definition qmean (l : list Q) : Q :=
  qsum l / inject_Z (Z.of_nat (List.length l)).

Section Estimator.

Variable W : Type.
Variable L : numerics.

(** A scorer is called as [scorer(estimator, X, y)]; the estimator is
    represented by its [predict] / [decision_function]. *)
Definition Scorer : Type := (list Q -> list Q) -> list Q -> list Q -> Q.

(** From [linear_model/base.py] and [metrics/scorer.py]. *)
Variables ScoreArgs Means Intercept : Type.
Variable _center_data :
  ndarray -> ndarray -> bool -> bool -> bool -> weight ->
  M W (ndarray * ndarray * Means).
Variable _set_intercept : ndarray -> Means -> M W Intercept.
Variable _deprecate_loss_and_score_funcs : ScoreArgs -> M W (option Scorer).

Record _RidgeGCV : Type := {
  alphas : list Q;
  fit_intercept : bool;
  normalize : bool;
  score_args : ScoreArgs;      (* scoring, score_func, loss_func *)
  copy_X : bool;
  gcv_mode : option string;
  store_cv_values : bool;
  (* set by fit *)
  alpha_ : option Q;
  dual_coef_ : option ndarray;
  coef_ : option ndarray;
  intercept_ : option Intercept;
  cv_values_ : option ndarray
}.

Definition _pre_compute (X : design) (y : ndarray)
  : M W (ndarray * ndarray * ndarray) :=
  (* even if X is very sparse, K is usually very dense *)
  K <- lift (dot (values X) (transpose (values X))) ;;
  '(v, q) <- lift (linalg_eigh L K) ;;
  QT_y <- lift (dot_left (transpose q) y) ;;
  ret (v, q, QT_y).

Definition _pre_compute_svd (X : design) (y : ndarray)
  : M W (ndarray * ndarray * ndarray) :=
  if negb (is_array X)
  then raise (TypeError "SVD not supported for sparse matrices")
  else
    '(U, s, _) <- lift (linalg_svd L (values X)) ;;
    let v := Array (shape s) (map (fun x => x * x) (data s)) in
    UT_y <- lift (dot_left (transpose U) y) ;;
    ret (v, U, UT_y).

Inductive mode : Type := Eigen | Svd.

(** The loop over the candidate penalties (lines 738-744): one column of
    [cv_values] and one dual coefficient array per alpha. *)
(** The function that the locals [_errors] / [_values] of [fit] denote
    (lines 714-722), as called at lines 739-742: leave-one-out squared
    errors when [error] holds, leave-one-out predictions otherwise. *)
Definition leave_one_out (m : mode) (error : bool) (alpha : weight)
    (y v q QT_y : ndarray) : result (ndarray * ndarray) :=
  match m, error with
  | Eigen, true => _errors alpha y v q QT_y
  | Eigen, false => _values alpha y v q QT_y
  | Svd, true => float_penalty (fun a => _errors_svd a y v q QT_y) alpha
  | Svd, false => float_penalty (fun a => _values_svd a y v q QT_y) alpha
  end.

Definition cv_column (m : mode) (error : bool) (sample_weight : weight)
    (y v q QT_y : ndarray) (n_rows : nat) (alpha : Q) : M W (list Q * ndarray) :=
  '(out, c) <- lift (leave_one_out m error (scale_penalty sample_weight alpha)
                       y v q QT_y) ;;
  if (size out =? n_rows)%nat then ret (data (ravel out), c)
  else raise (ValueError "could not broadcast input array").

Definition cv_columns (m : mode) (error : bool) (sample_weight : weight)
    (y v q QT_y : ndarray) (n_rows : nat) (candidates : list Q)
  : M W (list (list Q * ndarray)) :=
  mapM (cv_column m error sample_weight y v q QT_y n_rows) candidates.

(** Lines 746-759. *)
Definition select_best (scorer : option Scorer) (y : ndarray)
    (cv_values : list (list Q)) : M W nat :=
  match scorer with
  | None => argmin (map qmean cv_values)
  | Some scorer =>
      (* identity_estimator returns the predictions it is given *)
      let identity_estimator := fun y_predict : list Q => y_predict in
      let out := map (fun column_i =>
                        scorer identity_estimator (data (ravel y)) column_i)
                     cv_values in
      argmax out
  end.

Definition fit (self : _RidgeGCV) (X : design) (y : ndarray)
    (sample_weight : weight) : M W _RidgeGCV :=
  '(n_samples, n_features) <- unpack2 (values X) ;;
  '(Xc, y, means) <-
    _center_data (values X) y (fit_intercept self) (normalize self)
      (copy_X self) sample_weight ;;
  let X := Design Xc (is_array X) in
  let with_sw := match sample_weight with WFloat _ => false | WArray _ => true end in
  mode_name <-
    (match gcv_mode self with
     | None => ret (if negb (is_array X) || (n_samples <? n_features)%nat || with_sw
                    then "eigen" else "svd")
     | Some g =>
         if g =? "auto"
         then ret (if negb (is_array X) || (n_samples <? n_features)%nat || with_sw
                   then "eigen" else "svd")
         else if (g =? "svd") && with_sw then
           (* FIXME non-uniform sample weights not yet supported *)
           warn (UserWarning "non-uniform sample weights unsupported for svd, forcing usage of eigen") ;;;
           ret "eigen"
         else ret g
     end) ;;
  m <- (if mode_name =? "eigen" then ret Eigen
        else if mode_name =? "svd" then ret Svd
        else raise (ValueError "bad gcv_mode")) ;;
  '(v, q, QT_y) <- match m with
                   | Eigen => _pre_compute X y
                   | Svd => _pre_compute_svd X y
                   end ;;
  let n_y := if (ndim y =? 1)%nat then 1%nat else dim 1 y in
  scorer <- _deprecate_loss_and_score_funcs (score_args self) ;;
  let error := match scorer with None => true | Some _ => false end in
  columns <- cv_columns m error sample_weight y v q QT_y (n_samples * n_y)
               (alphas self) ;;
  let cv_values := map fst columns in
  let C := map snd columns in
  best <- select_best scorer y cv_values ;;
  alpha_best <- index (alphas self) best ;;
  dual_coef <- match nth_error C best with
               | Some c => ret c
               | None => raise (IndexError "list index out of range")
               end ;;
  coef <- lift (dot_transposed dual_coef (values X)) ;;
  intercept <- _set_intercept coef means ;;
  let stored :=
    if store_cv_values self then
      let cv_values_shape :=
        if (ndim y =? 1)%nat then [n_samples; List.length (alphas self)]
        else [n_samples; n_y; List.length (alphas self)] in
      Some (Array cv_values_shape
              (flat_map (fun r => map (fun col => nth r col 0) cv_values)
                        (seq 0 (n_samples * n_y))))
    else cv_values_ self in
  ret {| alphas := alphas self;
         fit_intercept := fit_intercept self;
         normalize := normalize self;
         score_args := score_args self;
         copy_X := copy_X self;
         gcv_mode := gcv_mode self;
         store_cv_values := store_cv_values self;
         alpha_ := Some alpha_best;
         dual_coef_ := Some dual_coef;
         coef_ := Some coef;
         intercept_ := Some intercept;
         cv_values_ := stored |}.

End Estimator.

End RidgeGCV.

(* ================================================================== *)
(** ** linear_model/coordinate_descent.py *)

Module CoordinateDescent.

Local Open Scope R_scope.
Local Open Scope py_scope.

(** Arrays of reals: shape and elements in C order. *)
Record ndarray : Type := Array { shape : list nat; data : list R }.
Definition ndim (a : ndarray) : nat := List.length (shape a).
Definition dim (k : nat) (a : ndarray) : nat := nth k (shape a) 0%nat.
Definition get2 (a : ndarray) (i j : nat) : R := nth (i * dim 1 a + j) (data a) 0.
Definition column (a : ndarray) (j : nat) : list R :=
  map (fun i => get2 a i j) (seq 0 (dim 0 a)).
Definition row (a : ndarray) (i : nat) : list R :=
  map (fun j => get2 a i j) (seq 0 (dim 1 a)).
Definition of_rows (n p : nat) (rows : list (list R)) : ndarray :=
  Array [n; p] (flat_map (fun i => map (fun j => nth j (nth i rows []) 0) (seq 0 p))
                         (seq 0 n)).
(** [np.squeeze]: the axes of length one are dropped. *)
Definition squeeze (a : ndarray) : ndarray :=
  Array (filter (fun d => negb (d =? 1)%nat) (shape a)) (data a).

(** The design matrix and whether it is a scipy sparse matrix. *)
Record design : Type := Design { values : ndarray; is_sparse : bool }.

Definition rsum (l : list R) : R := fold_right Rplus 0 l.
(** [safe_sparse_dot(X.T, y, dense_output=True)] for a vector [y]. *)
Definition dot_T (X : ndarray) (y : list R) : list R :=
  map (fun j => rsum (map (fun i => get2 X i j * nth i y 0) (seq 0 (dim 0 X))))
      (seq 0 (dim 1 X)).

(** [np.abs(v).max()]. *)
Definition abs_max {W} (v : list R) : M W R :=
  match v with
  | [] => raise (ValueError "zero-size array to reduction operation maximum which has no identity")
  | x :: t => ret (fold_left Rmax (map Rabs t) (Rabs x))
  end.

Definition log10 (x : R) : R := ln x / ln 10.
Definition power10 (x : R) : R := Rpower 10 x.

(** [np.linspace(start, stop, num)] with the end point, and [np.logspace]. *)
Definition linspace (start stop : R) (num : Z) : list R :=
  if (num <=? 0)%Z then []
  else if (num =? 1)%Z then [start]
  else
    let step := (stop - start) / IZR (num - 1) in
    map (fun i => INR i * step + start) (seq 0 (Z.to_nat num - 1)) ++ [stop].
Definition logspace (start stop : R) (num : Z) : list R :=
  map power10 (linspace start stop num).

(** [np.sort(alphas)[::-1]]. *)
Fixpoint insert_desc (x : R) (l : list R) : list R :=
  match l with
  | [] => [x]
  | y :: t => if Rle_dec y x then x :: y :: t else y :: insert_desc x t
  end.
Definition sort_desc (l : list R) : list R := fold_right insert_desc [] l.

Definition none_operand {A} : result A :=
  Raise (TypeError "unsupported operand type(s): 'NoneType'").

(** Keyword arguments forwarded to the coordinate descent solver. *)
Record cd_params : Type := Params {
  p_tol : option R;
  p_positive : option bool;
  p_max_iter : option Z;
  p_X_mean : option (list R);
  p_X_std : option (list R)
}.
Definition no_params : cd_params := Params None None None None None.

Section Path.

Variable W : Type.

(** Collaborators: [utils], [linear_model/base.py], the compiled
    [cd_fast] solvers, and the contents of fresh [np.empty] memory. *)
Variables Gram Means : Type.
Variable atleast2d_or_csc : design -> bool -> M W design.
Variable array2d : design -> bool -> M W design.
Variable center_data :
  design -> ndarray -> bool -> bool -> bool -> M W (design * ndarray * Means).
Variable _pre_fit :
  design -> ndarray -> option ndarray -> Gram -> bool -> bool -> bool ->
  M W (design * ndarray * Means * Gram * option ndarray).
Variable X_mean_of : Means -> list R.
Variable X_std_of : Means -> list R.
Variable enet_coordinate_descent :
  list R -> R -> R -> design -> list R -> Z -> R -> bool -> M W (list R * R * R).
Variable sparse_enet_coordinate_descent :
  list R -> R -> R -> design -> list R -> list R -> Z -> R -> bool ->
  M W (list R * R * R).
Variable enet_coordinate_descent_multi_task :
  ndarray -> R -> R -> design -> ndarray -> Z -> R -> M W (ndarray * R * R).
Variable Intercept : Type.
Variable _set_intercept : ndarray -> Means -> M W Intercept.
Variable uninitialised : nat -> R.

(** [np.empty(n)]: whatever the memory holds. *)
Definition np_empty (n : nat) : list R := map uninitialised (seq 0 n).

Definition _alpha_grid (X : design) (y : ndarray) (Xy : option ndarray)
    (l1_ratio : R) (fit_intercept : bool) (eps : option R)
    (n_alphas : option Z) (normalize copy_X : bool) : M W (list R) :=
  '(Xy, n_samples) <-
    match Xy with
    | None =>
        X <- atleast2d_or_csc X
               (copy_X && fit_intercept && negb (is_sparse X)) ;;
        '(X, y) <-
          (if negb (is_sparse X) then
             (* X can be touched inplace thanks to the above line *)
             '(X, y, _) <- center_data X y fit_intercept normalize false ;;
             ret (X, y)
           else ret (X, y)) ;;
        ret (dot_T (values X) (data y), dim 0 (values X))
    | Some Xy => ret (data Xy, dim 0 y)
    end ;;
  m <- abs_max Xy ;;
  let alpha_max := m / (INR n_samples * l1_ratio) in
  eps <- lift (match eps with Some e => Ok e | None => none_operand end) ;;
  n_alphas <- lift (match n_alphas with Some n => Ok n | None => none_operand end) ;;
  ret (rev (logspace (log10 (alpha_max * eps)) (log10 alpha_max) n_alphas)).

Record ElasticNet : Type := {
  alpha : R;
  l1_ratio : R;
  coef_ : option ndarray;
  fit_intercept : bool;
  normalize : bool;
  precompute : Gram;
  max_iter : Z;
  copy_X : bool;
  tol : R;
  warm_start : bool;
  positive : bool;
  intercept_ : option Intercept;
  dual_gap_ : option ndarray
}.

(** A model of the path returned under [return_models=True]: the
    attributes that [enet_path] sets. *)
Record path_model : Type := PathModel {
  m_alpha : R;
  m_l1_ratio : R;
  m_fit_intercept : bool;
  m_precompute : Gram;
  m_coef_ : list R;
  m_dual_gap_ : R;
  m_intercept_ : option Intercept
}.

Inductive path_result : Type :=
| Models (models : list path_model)
| Path (alphas : list R) (coefs : list (list R)) (dual_gaps : list R).

Definition did_not_converge : warning :=
  UserWarning "Objective did not converge. You might want to increase the number of iterations".

(** [a[i] = v]. *)
Fixpoint set_nth {A} (i : nat) (v : A) (l : list A) : list A :=
  match l, i with
  | [], _ => []
  | _ :: t, O => v :: t
  | x :: t, S i' => x :: set_nth i' v t
  end.

(** The state of the loop over the alphas (lines 409-448): the current
    coefficients, the columns of [coefs], [dual_gaps], [models] and the
    local variable [model]. *)
Record path_state : Type := PathState {
  s_coef_ : list R;
  s_coefs : list (list R);
  s_dual_gaps : list R;
  s_models : list path_model;
  s_model : option path_model
}.

Section Loop.

Variables (X : design) (y : ndarray) (l1_ratio : R) (n_samples : nat)
          (X_sparse_scaling : option (list R)) (means : Means)
          (precompute : Gram) (fit_intercept : bool) (verbose : Z)
          (return_models : bool) (max_iter : Z) (tol : R)
          (positive : bool) (n_alphas : nat).

Definition path_step (i : nat) (alpha : R) (s : path_state)
  : M W path_state :=
  let l1_reg := alpha * l1_ratio * INR n_samples in
  let l2_reg := alpha * (1 - l1_ratio) * INR n_samples in
  '(coef_, dual_gap_, eps_) <-
    (if is_sparse X then
       scaling <- local "X_sparse_scaling" X_sparse_scaling ;;
       sparse_enet_coordinate_descent (s_coef_ s) l1_reg l2_reg X (data y)
         scaling max_iter tol positive
     else
       enet_coordinate_descent (s_coef_ s) l1_reg l2_reg X (data y)
         max_iter tol positive) ;;
  (if Rgt_dec dual_gap_ eps_ then warn did_not_converge else ret tt) ;;;
  let coefs := set_nth i coef_ (s_coefs s) in
  let dual_gaps := set_nth i dual_gap_ (s_dual_gaps s) in
  '(models, model) <-
    (if return_models then
       let model := {| m_alpha := alpha;
                       m_l1_ratio := l1_ratio;
                       m_fit_intercept :=
                         if is_sparse X then fit_intercept else false;
                       m_precompute := precompute;
                       m_coef_ := nth i coefs [];
                       m_dual_gap_ := nth (n_alphas - 1) dual_gaps 0;
                       m_intercept_ := None |} in
       model <-
         (if fit_intercept && negb (is_sparse X) then
            b <- _set_intercept (Array [List.length (m_coef_ model)] (m_coef_ model))
                   means ;;
            ret {| m_alpha := m_alpha model;
                   m_l1_ratio := m_l1_ratio model;
                   m_fit_intercept := true;
                   m_precompute := m_precompute model;
                   m_coef_ := m_coef_ model;
                   m_dual_gap_ := m_dual_gap_ model;
                   m_intercept_ := Some b |}
          else ret model) ;;
       ret (s_models s ++ [model], Some model)
     else ret (s_models s, s_model s)) ;;
  (if negb (verbose =? 0)%Z then
     if (2 <? verbose)%Z then
       (* print(model) *)
       _ <- local "model" model ;; ret tt
     else ret tt
   else ret tt) ;;;
  ret (PathState coef_ coefs dual_gaps models model).

Fixpoint path_loop (i : nat) (alphas : list R) (s : path_state)
  : M W path_state :=
  match alphas with
  | [] => ret s
  | alpha :: rest =>
      s <- path_step i alpha s ;;
      path_loop (S i) rest s
  end.

End Loop.

Definition return_models_deprecated : warning :=
  DeprecationWarning "Use enet_path(return_models=False), as it returns the coefficients and alphas instead of just a list of models".
Definition normalize_deprecated : warning :=
  DeprecationWarning "normalize param will be removed in 0.16.".
Definition fit_intercept_deprecated : warning :=
  DeprecationWarning "fit_intercept param will be removed in 0.16.".

Definition enet_path (X : design) (y : ndarray) (l1_ratio : R)
    (eps : option R) (n_alphas : option Z) (alphas : option (list R))
    (precompute : Gram) (Xy : option ndarray)
    (fit_intercept normalize : option bool) (copy_X : bool)
    (coef_init : option (list R)) (verbose : Z) (return_models : bool)
    (params : cd_params) : M W path_result :=
  (if return_models then warn return_models_deprecated else ret tt) ;;;
  normalize <-
    (match normalize with
     | Some true => warn normalize_deprecated ;;; ret true
     | _ => ret false
     end) ;;
  (match fit_intercept with
   | Some true | None => warn fit_intercept_deprecated
   | Some false => ret tt
   end) ;;;
  let fit_intercept := match fit_intercept with None => true | Some b => b end in
  X <- atleast2d_or_csc X (copy_X && fit_intercept) ;;
  let n_features := dim 1 (values X) in
  X_sparse_scaling <-
    (if is_sparse X then
       match p_X_mean params with
       | Some X_mean =>
           (* As sparse matrices are not actually centered we need this
              to be passed to the CD solver. *)
           match p_X_std params with
           | Some X_std => ret (Some (map (fun '(m, s) => m / s) (combine X_mean X_std)))
           | None => raise (KeyError "X_std")
           end
       | None => ret (Some (repeat 1 n_features))
       end
     else ret None) ;;
  '(X, y, means, precompute, Xy) <-
    _pre_fit X y Xy precompute normalize fit_intercept false ;;
  let n_samples := dim 0 (values X) in
  alphas <-
    (match alphas with
     | None =>
         (* No need to normalize of fit_intercept: it has been done above *)
         _alpha_grid X y Xy l1_ratio false eps n_alphas false false
     | Some alphas =>
         (* make sure alphas are properly ordered *)
         ret (sort_desc alphas)
     end) ;;
  let n_alphas := List.length alphas in
  let coef_ := match coef_init with
               | None => repeat 0 n_features
               | Some c => c
               end in
  let coefs := map (fun _ => np_empty n_features) (seq 0 n_alphas) in
  let dual_gaps := np_empty n_alphas in
  let tol := match p_tol params with Some t => t | None => 1 / 10000 end in
  let positive := match p_positive params with Some b => b | None => false end in
  let max_iter := match p_max_iter params with Some n => n | None => 1000%Z end in
  s <- path_loop X y l1_ratio n_samples X_sparse_scaling means precompute
         fit_intercept verbose return_models max_iter tol positive n_alphas
         0 alphas (PathState coef_ coefs dual_gaps [] None) ;;
  if return_models then ret (Models (s_models s))
  else ret (Path alphas (s_coefs s) (s_dual_gaps s)).

Definition lasso_path (X : design) (y : ndarray)
    (eps : option R) (n_alphas : option Z) (alphas : option (list R))
    (precompute : Gram) (Xy : option ndarray)
    (fit_intercept normalize : option bool) (copy_X : bool)
    (coef_init : option (list R)) (verbose : Z) (return_models : bool)
    (params : cd_params) : M W path_result :=
  enet_path X y 1 eps n_alphas alphas precompute Xy fit_intercept normalize
    copy_X coef_init verbose return_models params.

(** *** The estimators *)

Definition ElasticNet_init (alpha l1_ratio : R) (fit_intercept normalize : bool)
    (precompute : Gram) (max_iter : Z) (copy_X : bool) (tol : R)
    (warm_start positive : bool) : ElasticNet :=
  {| alpha := alpha;
     l1_ratio := l1_ratio;
     coef_ := None;
     fit_intercept := fit_intercept;
     normalize := normalize;
     precompute := precompute;
     max_iter := max_iter;
     copy_X := copy_X;
     tol := tol;
     warm_start := warm_start;
     positive := positive;
     intercept_ := None;
     dual_gap_ := None |}.

(** [Lasso(ElasticNet)]: only [__init__] is overridden; [fit] and [path]
    are those of [ElasticNet]. *)
Definition Lasso_init (alpha : R) (fit_intercept normalize : bool)
    (precompute : Gram) (copy_X : bool) (max_iter : Z) (tol : R)
    (warm_start positive : bool) : ElasticNet :=
  ElasticNet_init alpha 1 fit_intercept normalize precompute max_iter copy_X
    tol warm_start positive.

Definition alpha_is_zero : warning :=
  UserWarning "With alpha=0, this algorithm does not converge well. You are advised to use the LinearRegression estimator".

(** [a[:, np.newaxis]] of a 1-D array. *)
Definition newaxis_column (a : ndarray) : ndarray :=
  if (ndim a =? 1)%nat then Array [dim 0 a; 1%nat] (data a) else a.

Definition fit (self : ElasticNet) (X : design) (y : ndarray) : M W ElasticNet :=
  (if Req_dec_T (alpha self) 0 then warn alpha_is_zero else ret tt) ;;;
  X <- atleast2d_or_csc X (copy_X self && fit_intercept self) ;;
  (* From now on X can be touched inplace *)
  '(X, y, means, gram, Xy) <-
    _pre_fit X y None (precompute self) (normalize self) (fit_intercept self) true ;;
  let y := newaxis_column y in
  let Xy := option_map newaxis_column Xy in
  let n_features := dim 1 (values X) in
  let n_targets := dim 1 y in
  let coef_ :=
    match warm_start self, coef_ self with
    | true, Some c => if (ndim c =? 1)%nat then Array [1%nat; dim 0 c] (data c) else c
    | _, _ => of_rows n_targets n_features []
    end in
  fitted <-
    mapM (fun k =>
            let this_Xy := option_map (fun Xy => Array [dim 0 Xy] (column Xy k)) Xy in
            r <- enet_path X (Array [dim 0 y] (column y k)) (l1_ratio self)
                   None None (Some [alpha self]) gram this_Xy
                   (Some false) (Some false) true (Some (row coef_ k)) 0 false
                   (Params (Some (tol self)) (Some (positive self))
                      (Some (max_iter self)) (Some (X_mean_of means))
                      (Some (X_std_of means))) ;;
            match r with
            | Path _ this_coef this_dual_gap =>
                match this_coef, this_dual_gap with
                | c :: _, g :: _ => ret (c, g)
                | _, _ => raise (IndexError "index out of bounds")
                end
            | Models _ => raise (ValueError "need more than 2 values to unpack")
            end)
         (seq 0 n_targets) ;;
  let coef_ := of_rows n_targets n_features (map fst fitted) in
  let dual_gaps_ := Array [n_targets] (map snd fitted) in
  b <- _set_intercept (squeeze coef_) means ;;
  (* return self for chaining fit and predict calls *)
  ret {| alpha := alpha self;
         l1_ratio := l1_ratio self;
         coef_ := Some (squeeze coef_);
         fit_intercept := fit_intercept self;
         normalize := normalize self;
         precompute := precompute self;
         max_iter := max_iter self;
         copy_X := copy_X self;
         tol := tol self;
         warm_start := warm_start self;
         positive := positive self;
         intercept_ := Some b;
         dual_gap_ := Some (squeeze dual_gaps_) |}.

Record MultiTaskElasticNet : Type := {
  mt_l1_ratio : R;
  mt_alpha : R;
  mt_coef_ : option ndarray;
  mt_fit_intercept : bool;
  mt_normalize : bool;
  mt_max_iter : Z;
  mt_copy_X : bool;
  mt_tol : R;
  mt_warm_start : bool;
  mt_intercept_ : option Intercept;
  mt_dual_gap_ : option R;
  mt_eps_ : option R
}.

Definition multi_task_did_not_converge : warning :=
  UserWarning "Objective did not converge, you might want to increase the number of iterations".

Definition unpack2 (a : ndarray) : M W (nat * nat) :=
  match shape a with
  | [n; p] => ret (n, p)
  | _ => raise (ValueError "wrong number of values to unpack")
  end.

Definition multi_task_fit (self : MultiTaskElasticNet) (X : design)
    (y : ndarray) : M W MultiTaskElasticNet :=
  (* X and y must be of type float64 *)
  X <- array2d X (mt_copy_X self && mt_fit_intercept self) ;;
  let squeeze_me := (ndim y =? 1)%nat in
  let y := newaxis_column y in
  '(n_samples, n_features) <- unpack2 (values X) ;;
  '(_, n_tasks) <- unpack2 y ;;
  '(X, y, means) <-
    center_data X y (mt_fit_intercept self) (mt_normalize self) false ;;
  let coef_ :=
    match mt_warm_start self, mt_coef_ self with
    | true, Some c => c
    | _, _ => of_rows n_tasks n_features []
    end in
  let l1_reg := mt_alpha self * mt_l1_ratio self * INR n_samples in
  let l2_reg := mt_alpha self * (1 - mt_l1_ratio self) * INR n_samples in
  '(coef_, dual_gap_, eps_) <-
    enet_coordinate_descent_multi_task coef_ l1_reg l2_reg X y
      (mt_max_iter self) (mt_tol self) ;;
  b <- _set_intercept coef_ means ;;
  (* Make sure that the coef_ have the same shape as the given 'y',
     to predict with the same shape *)
  let coef_ := if squeeze_me then squeeze coef_ else coef_ in
  (if Rgt_dec dual_gap_ eps_ then warn multi_task_did_not_converge else ret tt) ;;;
  (* return self for chaining fit and predict calls *)
  ret {| mt_l1_ratio := mt_l1_ratio self;
         mt_alpha := mt_alpha self;
         mt_coef_ := Some coef_;
         mt_fit_intercept := mt_fit_intercept self;
         mt_normalize := mt_normalize self;
         mt_max_iter := mt_max_iter self;
         mt_copy_X := mt_copy_X self;
         mt_tol := mt_tol self;
         mt_warm_start := mt_warm_start self;
         mt_intercept_ := Some b;
         mt_dual_gap_ := Some dual_gap_;
         mt_eps_ := Some eps_ |}.

End Path.

End CoordinateDescent.

(* ================================================================== *)
(** ** linear_model/stochastic_gradient.py *)

Module SGD.

Import Np.
Local Open Scope Q_scope.
Local Open Scope py_scope.
Local Open Scope string_scope.

(** [dict.get]-style lookup in a table with string keys. *)
Fixpoint lookup {A} (k : string) (d : list (string * A)) : option A :=
  match d with
  | [] => None
  | (k', v) :: t => if k =? k' then Some v else lookup k t
  end.

Definition LEARNING_RATE_TYPES : list (string * Z) :=
  [("constant", 1%Z); ("optimal", 2%Z); ("invscaling", 3%Z);
   ("pa1", 4%Z); ("pa2", 5%Z)].
Definition PENALTY_TYPES : list (string * Z) :=
  [("none", 0%Z); ("l2", 2%Z); ("l1", 1%Z); ("elasticnet", 3%Z)].

(** For sparse data intercept updates are scaled by this decay factor to
    avoid intercept oscillation. *)
Definition SPARSE_INTERCEPT_DECAY : Q := 1 # 100.
Definition DEFAULT_EPSILON : Q := 1 # 10.

(** The loss classes of [sgd_fast] and their constructor arguments. *)
Inductive loss_class : Type :=
| Hinge | SquaredHinge | Log | ModifiedHuber | SquaredLoss | Huber
| EpsilonInsensitive | SquaredEpsilonInsensitive.
Definition loss_function : Type := (loss_class * list Q)%type.

(** [BaseSGDClassifier.loss_functions]. *)
Definition loss_functions : list (string * loss_function) :=
  [("hinge", (Hinge, [1]));
   ("squared_hinge", (SquaredHinge, [1]));
   ("perceptron", (Hinge, [0]));
   ("log", (Log, []));
   ("modified_huber", (ModifiedHuber, []));
   ("squared_loss", (SquaredLoss, []));
   ("huber", (Huber, [DEFAULT_EPSILON]));
   ("epsilon_insensitive", (EpsilonInsensitive, [DEFAULT_EPSILON]));
   ("squared_epsilon_insensitive", (SquaredEpsilonInsensitive, [DEFAULT_EPSILON]))].

(** [str.lower] on ASCII. *)
Definition lower_ascii (c : Ascii.ascii) : Ascii.ascii :=
  let n := Ascii.nat_of_ascii c in
  if ((65 <=? n) && (n <=? 90))%nat then Ascii.ascii_of_nat (n + 32) else c.
Fixpoint lower (s : string) : string :=
  match s with
  | EmptyString => EmptyString
  | String c t => String (lower_ascii c) (lower t)
  end.

(** The training data: [X] with its shape and storage, the labels [y]. *)
Record samples : Type := Samples {
  values : ndarray;
  is_sparse : bool;
  labels : list Z
}.

(** The arguments of one call of [sgd_fast.plain_sgd]. *)
Record sgd_call : Type := SgdCall {
  c_coef : list Q; c_intercept : Q; c_loss : loss_function;
  c_penalty_type : Z; c_alpha : Q; c_C : Q; c_l1_ratio : Q;
  c_X : ndarray; c_sparse : bool; c_y : list Q; c_sample_weight : list Q;
  c_n_iter : Z; c_fit_intercept : Z; c_verbose : Z; c_shuffle : Z;
  c_random_state : option Z; c_pos_weight : Q; c_neg_weight : Q;
  c_learning_rate_type : Z; c_eta0 : Q; c_power_t : Q; c_t : option Q;
  c_intercept_decay : Q
}.

(** The estimator object.  It lives in the world, so that what a method
    has assigned before it raises stays assigned. *)
Record estimator : Type := Estimator {
  loss : string;
  penalty : string;
  learning_rate : string;
  epsilon : Q;
  alpha : Q;
  l1_ratio : Q;
  fit_intercept : bool;
  n_iter : Z;
  shuffle : bool;
  random_state : option Z;
  verbose : Z;
  eta0 : Q;
  power_t : Q;
  warm_start : bool;
  class_weight : option (list (Z * Q));
  (* state *)
  classes_ : option (list Z);
  coef_ : option ndarray;
  intercept_ : option ndarray;
  t_ : option Q;
  loss_function_ : option loss_function;
  _expanded_class_weight : list Q
}.

Definition Method (A : Type) : Type := M estimator A.

Definition self_ : Method estimator := fun w => (Ok (ext w), w).
Definition assign (f : estimator -> estimator) : Method unit :=
  fun w => (Ok tt, World (warnings w) (f (ext w))).

Definition set_t_ (v : option Q) (e : estimator) : estimator :=
  Estimator (loss e) (penalty e) (learning_rate e) (epsilon e) (alpha e)
    (l1_ratio e) (fit_intercept e) (n_iter e) (shuffle e) (random_state e)
    (verbose e) (eta0 e) (power_t e) (warm_start e) (class_weight e)
    (classes_ e) (coef_ e) (intercept_ e) v (loss_function_ e)
    (_expanded_class_weight e).
Definition set_parameters (c i : option ndarray) (e : estimator) : estimator :=
  Estimator (loss e) (penalty e) (learning_rate e) (epsilon e) (alpha e)
    (l1_ratio e) (fit_intercept e) (n_iter e) (shuffle e) (random_state e)
    (verbose e) (eta0 e) (power_t e) (warm_start e) (class_weight e)
    (classes_ e) c i (t_ e) (loss_function_ e) (_expanded_class_weight e).
Definition set_classes_ (v : option (list Z)) (e : estimator) : estimator :=
  Estimator (loss e) (penalty e) (learning_rate e) (epsilon e) (alpha e)
    (l1_ratio e) (fit_intercept e) (n_iter e) (shuffle e) (random_state e)
    (verbose e) (eta0 e) (power_t e) (warm_start e) (class_weight e)
    v (coef_ e) (intercept_ e) (t_ e) (loss_function_ e)
    (_expanded_class_weight e).
Definition set_class_weight (v : option (list (Z * Q))) (e : estimator) : estimator :=
  Estimator (loss e) (penalty e) (learning_rate e) (epsilon e) (alpha e)
    (l1_ratio e) (fit_intercept e) (n_iter e) (shuffle e) (random_state e)
    (verbose e) (eta0 e) (power_t e) (warm_start e) v
    (classes_ e) (coef_ e) (intercept_ e) (t_ e) (loss_function_ e)
    (_expanded_class_weight e).
Definition set_fit_state (lf : option loss_function) (cw : list Q)
    (e : estimator) : estimator :=
  Estimator (loss e) (penalty e) (learning_rate e) (epsilon e) (alpha e)
    (l1_ratio e) (fit_intercept e) (n_iter e) (shuffle e) (random_state e)
    (verbose e) (eta0 e) (power_t e) (warm_start e) (class_weight e)
    (classes_ e) (coef_ e) (intercept_ e) (t_ e) lf cw.

Definition qmax (a b : Q) : Q := if Qle_bool a b then b else a.


Section Training.

(** From [sgd_fast], [utils] and numpy. *)
Variable dloss : loss_function -> Q -> Q -> Q.
Variable plain_sgd : sgd_call -> result (list Q * Q).
Variable np_sqrt : Q -> Q.
Variable atleast2d_or_csr : samples -> result samples.
Variable column_or_1d : samples -> result samples.
Variable _check_partial_fit_first_call :
  option (list Z) -> option (list Z) -> result (list Z).
Variable compute_class_weight :
  option (list (Z * Q)) -> list Z -> list nat -> result (list Q).
Variable np_unique : list Z -> list Z.
Variable np_searchsorted : list Z -> list Z -> list nat.

Definition _get_penalty_type (penalty : string) : Method Z :=
  match lookup (lower penalty) PENALTY_TYPES with
  | Some v => ret v
  | None => raise (ValueError "Penalty is not supported. ")
  end.

Definition _get_learning_rate_type (learning_rate : string) : Method Z :=
  match lookup learning_rate LEARNING_RATE_TYPES with
  | Some v => ret v
  | None => raise (ValueError "learning rate is not supported. ")
  end.

(** The [isinstance(self.shuffle, bool)] check of line 92 is carried by the
    type of the field. *)
Definition _validate_params : Method unit :=
  self <- self_ ;;
  if (n_iter self <=? 0)%Z then raise (ValueError "n_iter must be > zero")
  else if negb (Qle_bool 0 (l1_ratio self) && Qle_bool (l1_ratio self) 1)
  then raise (ValueError "l1_ratio must be in [0, 1]")
  else if qltb (alpha self) 0 then raise (ValueError "alpha must be >= 0")
  else if ((learning_rate self =? "constant") || (learning_rate self =? "invscaling"))
          && Qle_bool (eta0 self) 0
  then raise (ValueError "eta0 must be > 0")
  else
    (* raises ValueError if not registered *)
    _get_penalty_type (penalty self) ;;;
    _get_learning_rate_type (learning_rate self) ;;;
    match lookup (loss self) loss_functions with
    | Some _ => ret tt
    | None => raise (ValueError "The loss is not supported. ")
    end.

(** The value that [_init_t] gives to [t_]. *)
Definition initial_t (self : estimator) (loss_function : loss_function) : Q :=
  if learning_rate self =? "optimal" then
    let typw := np_sqrt (1 / np_sqrt (alpha self)) in
    (* computing eta0, the initial learning rate *)
    let eta0 := typw / qmax 1 (dloss loss_function (- typw) 1) in
    (* initialize t such that eta at first sample equals eta0 *)
    1 / (eta0 * alpha self)
  else 1.

Definition _init_t (loss_function : loss_function) : Method unit :=
  self <- self_ ;;
  assign (set_t_ (Some (initial_t self loss_function))).

Definition _get_loss_function (loss : string) : Method loss_function :=
  self <- self_ ;;
  match lookup loss loss_functions with
  | Some (loss_class, args) =>
      let args := if (loss =? "huber") || (loss =? "epsilon_insensitive")
                     || (loss =? "squared_epsilon_insensitive")
                  then [epsilon self] else args in
      ret (loss_class, args)
  | None => raise (ValueError "The loss is not supported. ")
  end.

Definition _validate_sample_weight (sample_weight : option (list Q))
    (n_samples : nat) : Method (list Q) :=
  let sample_weight := match sample_weight with
                       | None => repeat 1 n_samples   (* uniform sample weights *)
                       | Some v => v                  (* user-provided array *)
                       end in
  if negb (List.length sample_weight =? n_samples)%nat
  then raise (ValueError "Shapes of X and sample_weight do not match.")
  else ret sample_weight.

Definition shape_eqb (a b : list nat) : bool :=
  if list_eq_dec Nat.eq_dec a b then true else false.

Definition _allocate_parameter_mem (n_classes n_features : nat)
    (coef_init intercept_init : option ndarray) : Method unit :=
  if (2 <? n_classes)%nat then
    (* allocate coef_ and intercept_ for multi-class *)
    coef <- (match coef_init with
             | Some c => if negb (shape_eqb (shape c) [n_classes; n_features])
                         then raise (ValueError "Provided coef_ does not match dataset. ")
                         else ret c
             | None => ret (tabulate2 n_classes n_features (fun _ _ => 0))
             end) ;;
    assign (fun e => set_parameters (Some coef) (intercept_ e) e) ;;;
    intercept <- (match intercept_init with
                  | Some b => if negb (shape_eqb (shape b) [n_classes])
                              then raise (ValueError "Provided intercept_init does not match dataset.")
                              else ret b
                  | None => ret (tabulate1 n_classes (fun _ => 0))
                  end) ;;
    assign (fun e => set_parameters (coef_ e) (Some intercept) e)
  else
    (* allocate coef_ and intercept_ for binary problem *)
    coef <- (match coef_init with
             | Some c => let c := ravel c in
                         if negb (shape_eqb (shape c) [n_features])
                         then raise (ValueError "Provided coef_init does not match dataset.")
                         else ret c
             | None => ret (tabulate1 n_features (fun _ => 0))
             end) ;;
    assign (fun e => set_parameters (Some coef) (intercept_ e) e) ;;;
    intercept <- (match intercept_init with
                  | Some b => if negb (shape_eqb (shape b) [1%nat])
                                 && negb (shape_eqb (shape b) [])
                              then raise (ValueError "Provided intercept_init does not match dataset.")
                              else ret (Array [1%nat] (data b))
                  | None => ret (tabulate1 1 (fun _ => 0))
                  end) ;;
    assign (fun e => set_parameters (coef_ e) (Some intercept) e).

Definition _check_fit_data (X : samples) : Method unit :=
  match shape (values X) with
  | [n_samples; _] =>
      if negb (n_samples =? List.length (labels X))%nat
      then raise (ValueError "Shapes of X and y do not match.")
      else ret tt
  | _ => raise (ValueError "wrong number of values to unpack")
  end.

Definition attribute {A} (name : string) (v : option A) : Method A :=
  match v with
  | Some a => ret a
  | None => raise (TypeError ("'NoneType' object: " ++ name))
  end.

Definition fit_binary (i : nat) (X : samples) (alpha C : Q)
    (learning_rate : string) (n_iter : Z) (pos_weight neg_weight : Q)
    (sample_weight : list Q) : Method (list Q * Q) :=
  est <- self_ ;;
  (* _prepare_fit_binary *)
  classes <- attribute "classes_" (classes_ est) ;;
  class_i <- (match nth_error classes i with
              | Some c => ret c
              | None => raise (IndexError "index out of bounds")
              end) ;;
  let y_i := map (fun l => if (l =? class_i)%Z then 1 else - (1)) (labels X) in
  coef_all <- attribute "coef_" (coef_ est) ;;
  intercept_all <- attribute "intercept_" (intercept_ est) ;;
  let '(coef, intercept) :=
    if (List.length classes =? 2)%nat
    then (data (ravel coef_all), get1 intercept_all 0)
    else (row coef_all i, get1 intercept_all i) in
  (* _make_dataset *)
  let intercept_decay := if is_sparse X then SPARSE_INTERCEPT_DECAY else 1 in
  penalty_type <- _get_penalty_type (penalty est) ;;
  learning_rate_type <- _get_learning_rate_type learning_rate ;;
  loss_function <- attribute "loss_function" (loss_function_ est) ;;
  lift (plain_sgd
          (SgdCall coef intercept loss_function penalty_type alpha C
             (l1_ratio est) (values X) (is_sparse X) y_i sample_weight n_iter
             (if fit_intercept est then 1 else 0)%Z (verbose est)
             (if shuffle est then 1 else 0)%Z (random_state est)
             pos_weight neg_weight learning_rate_type (eta0 est)
             (power_t est) (t_ est) intercept_decay)).

Definition weight_at (i : nat) : Method Q :=
  est <- self_ ;;
  match nth_error (_expanded_class_weight est) i with
  | Some w => ret w
  | None => raise (IndexError "index out of bounds")
  end.

Definition _fit_binary (X : samples) (alpha C : Q) (sample_weight : list Q)
    (learning_rate : string) (n_iter : Z) : Method unit :=
  pos <- weight_at 1 ;;
  neg <- weight_at 0 ;;
  '(coef, intercept) <-
    fit_binary 1 X alpha C learning_rate n_iter pos neg sample_weight ;;
  (* coef need to be 2d; intercept is a float, converted to an array *)
  assign (set_parameters (Some (Array [1%nat; List.length coef] coef))
                         (Some (Array [1%nat] [intercept]))).

Definition _fit_multiclass (X : samples) (alpha C : Q) (learning_rate : string)
    (sample_weight : list Q) (n_iter : Z) : Method unit :=
  est <- self_ ;;
  classes <- attribute "classes_" (classes_ est) ;;
  fitted <-
    mapM (fun i =>
            w <- weight_at i ;;
            fit_binary i X alpha C learning_rate n_iter w 1 sample_weight)
         (seq 0 (List.length classes)) ;;
  assign (fun e =>
            set_parameters
              (option_map (fun c => of_rows (dim 0 c) (dim 1 c)
                                      (map fst fitted
                                       ++ skipn (List.length fitted) (rows c)))
                          (coef_ e))
              (option_map (fun b => Array (shape b)
                                      (map snd fitted
                                       ++ skipn (List.length fitted) (data b)))
                          (intercept_ e))
              e).

Definition _partial_fit (X : samples) (alpha C : Q) (loss learning_rate : string)
    (n_iter : Z) (classes : option (list Z)) (sample_weight : option (list Q))
    (coef_init intercept_init : option ndarray) : Method unit :=
  X <- lift (atleast2d_or_csr X) ;;
  X <- lift (column_or_1d X) ;;
  let n_samples := dim 0 (values X) in
  let n_features := dim 1 (values X) in
  _check_fit_data X ;;;
  _validate_params ;;;
  self <- self_ ;;
  known <- lift (_check_partial_fit_first_call (classes_ self) classes) ;;
  assign (set_classes_ (Some known)) ;;;
  let n_classes := List.length known in
  (* Allocate datastructures from input arguments *)
  let y_ind := np_searchsorted known (labels X) in
  self <- self_ ;;
  cw <- lift (compute_class_weight (class_weight self) known y_ind) ;;
  assign (fun e => set_fit_state (loss_function_ e) cw e) ;;;
  sample_weight <- _validate_sample_weight sample_weight n_samples ;;
  self <- self_ ;;
  (match coef_ self, coef_init with
   | Some _, None => ret tt
   | _, _ => _allocate_parameter_mem n_classes n_features coef_init intercept_init
   end) ;;;
  lf <- _get_loss_function loss ;;
  assign (fun e => set_fit_state (Some lf) (_expanded_class_weight e) e) ;;;
  self <- self_ ;;
  (match t_ self with
   | None => _init_t lf
   | Some _ => ret tt
   end) ;;;
  (* delegate to concrete training procedure *)
  (if (2 <? n_classes)%nat
   then _fit_multiclass X alpha C learning_rate sample_weight n_iter
   else if (n_classes =? 2)%nat
   then _fit_binary X alpha C sample_weight learning_rate n_iter
   else raise (ValueError "The number of class labels must be greater than one.")) ;;;
  self <- self_ ;;
  t <- attribute "t_" (t_ self) ;;
  assign (set_t_ (Some (t + inject_Z (n_iter * Z.of_nat n_samples)))).

Definition class_weight_deprecated : warning :=
  DeprecationWarning "Using 'class_weight' as a parameter to the 'fit' method is deprecated and will be removed in 0.13. Set it on initialization instead.".

(** What [_fit] does before it delegates (lines 373-401). *)
Definition _fit_prepare (X : samples)
    (coef_init intercept_init : option ndarray)
    (class_weight : option (list (Z * Q)))
  : Method (samples * list Z * option ndarray * option ndarray) :=
  assign (set_classes_ None) ;;;
  (match class_weight with
   | Some cw => warn class_weight_deprecated ;;; assign (set_class_weight (Some cw))
   | None => ret tt
   end) ;;;
  X <- lift (atleast2d_or_csr X) ;;
  (* labels can be encoded as float, int, or string literals
     np.unique sorts in asc order; largest class id is positive class *)
  let classes := np_unique (labels X) in
  self <- self_ ;;
  '(coef_init, intercept_init) <-
    (match warm_start self, coef_ self with
     | true, Some c =>
         ret (match coef_init with None => Some c | Some c' => Some c' end,
              match intercept_init with None => intercept_ self | Some b => Some b end)
     | _, _ =>
         assign (set_parameters None None) ;;;
         ret (coef_init, intercept_init)
     end) ;;
  (* Clear iteration count for multiple call to fit. *)
  assign (set_t_ None) ;;;
  ret (X, classes, coef_init, intercept_init).

Definition _fit (X : samples) (alpha C : Q) (loss learning_rate : string)
    (coef_init intercept_init : option ndarray)
    (class_weight : option (list (Z * Q))) (sample_weight : option (list Q))
  : Method unit :=
  '(X, classes, coef_init, intercept_init) <-
    _fit_prepare X coef_init intercept_init class_weight ;;
  self <- self_ ;;
  _partial_fit X alpha C loss learning_rate (n_iter self) (Some classes)
    sample_weight coef_init intercept_init.

Definition partial_fit (X : samples) (classes : option (list Z))
    (sample_weight : option (list Q)) : Method unit :=
  self <- self_ ;;
  _partial_fit X (alpha self) 1 (loss self) (learning_rate self) 1 classes
    sample_weight None None.

Definition fit (X : samples) (coef_init intercept_init : option ndarray)
    (class_weight : option (list (Z * Q))) (sample_weight : option (list Q))
  : Method unit :=
  self <- self_ ;;
  _fit X (alpha self) 1 (loss self) (learning_rate self) coef_init
    intercept_init class_weight sample_weight.

End Training.

End SGD.

(* ================================================================== *)
(** ** Concrete collaborators for running the models *)

Module Demo.

Import LearningCurve.

(** A driver environment in which every collaborator fails: estimators are
    told apart by whether they have [partial_fit]. *)
Definition unavailable {A} : M unit A := Py.raise (TypeError "collaborator called").

Definition learning_curve_demo (estimator : bool) (train_sizes : sizes)
    (exploit_incremental_learning : bool)
  : M unit (list Z * list Q * list Q) :=
  @learning_curve unit bool unit unit unit unit unit
    (fun has => has) (fun _ => false)
    (fun _ => unavailable) (fun _ _ _ => unavailable) (fun _ _ => unavailable)
    (fun _ => unavailable) (fun _ => tt) (fun _ => unavailable)
    (fun _ _ _ _ => unavailable) (fun _ _ => unavailable)
    (fun _ _ _ => unavailable) (fun _ _ _ => unavailable)
    estimator tt train_sizes tt tt exploit_incremental_learning.

(** Small ridge problems: a regular 2x2 design, the zero 1x1 design (primal
    branch, singular) and the zero 1x2 design (kernel branch, singular). *)
Definition X_regular : Ridge.design :=
  Ridge.Design (Np.Array [2%nat; 2%nat] [2; 1; 1; 2]%Q) true.
Definition y_regular : Np.ndarray := Np.Array [2%nat] [3; 3]%Q.
Definition X_zero_square : Ridge.design :=
  Ridge.Design (Np.Array [1%nat; 1%nat] [0]%Q) true.
Definition X_zero_wide : Ridge.design :=
  Ridge.Design (Np.Array [1%nat; 2%nat] [0; 0]%Q) true.
Definition y_one : Np.ndarray := Np.Array [1%nat] [1]%Q.
Definition tol : Q := (1 # 1000)%Q.

(** Coordinate descent on data that are already dense, 2-D and centred:
    validation, centring and [_pre_fit] hand their arguments back.  The
    solver is one that stalls: it returns the coefficients it was given and
    reports the dual gap 1 against the threshold 0. *)
Definition keep_design (X : CoordinateDescent.design) (copy : bool)
  : M unit CoordinateDescent.design := Py.ret X.
Definition keep_centred (X : CoordinateDescent.design)
    (y : CoordinateDescent.ndarray) (fit_intercept normalize copy : bool)
  : M unit (CoordinateDescent.design * CoordinateDescent.ndarray * unit) :=
  Py.ret (X, y, tt).
Definition keep_pre_fit (X : CoordinateDescent.design)
    (y : CoordinateDescent.ndarray) (Xy : option CoordinateDescent.ndarray)
    (precompute : unit) (normalize fit_intercept copy : bool)
  : M unit (CoordinateDescent.design * CoordinateDescent.ndarray * unit * unit
            * option CoordinateDescent.ndarray) :=
  Py.ret (X, y, tt, tt, Xy).
Definition stalled (coef : list R) (l1_reg l2_reg : R)
    (X : CoordinateDescent.design) (y : list R) (max_iter : Z) (tol : R)
    (positive : bool) : M unit (list R * R * R) :=
  Py.ret (coef, 1%R, 0%R).
Definition stalled_sparse (coef : list R) (l1_reg l2_reg : R)
    (X : CoordinateDescent.design) (y scaling : list R) (max_iter : Z) (tol : R)
    (positive : bool) : M unit (list R * R * R) :=
  Py.ret (coef, 1%R, 0%R).
Definition no_intercept (coef : CoordinateDescent.ndarray) (means : unit)
  : M unit unit := Py.ret tt.
(** Fresh memory that happens to hold [-1] everywhere. *)
Definition stale_memory (k : nat) : R := (-1)%R.

Definition X_one : CoordinateDescent.design :=
  CoordinateDescent.Design (CoordinateDescent.Array [1%nat; 1%nat] [1%R]) false.
Definition y_one_R : CoordinateDescent.ndarray :=
  CoordinateDescent.Array [1%nat] [1%R].

(** Stand-ins for [sgd_fast] and the validation helpers of [utils]: the
    derivative of the hinge loss, a training pass that leaves the weights
    where they are, helpers that accept their argument. *)
Definition hinge_dloss (lf : SGD.loss_function) (p y : Q) : Q :=
  if Qle_bool (p * y) 1 then (- y)%Q else 0%Q.
Definition idle_sgd (c : SGD.sgd_call) : result (list Q * Q) :=
  Ok (SGD.c_coef c, SGD.c_intercept c).
Definition accept (X : SGD.samples) : result SGD.samples := Ok X.
Definition first_call_classes (known classes : option (list Z))
  : result (list Z) :=
  match known, classes with
  | None, None =>
      Raise (ValueError "classes must be passed on the first call to partial_fit.")
  | _, Some c => Ok (np_unique c)
  | Some k, None => Ok k
  end.
Definition uniform_class_weight (class_weight : option (list (Z * Q)))
    (classes : list Z) (y_ind : list nat) : result (list Q) :=
  Ok (repeat 1%Q (List.length classes)).
Definition searchsorted (classes y : list Z) : list nat :=
  map (fun l => List.length (filter (fun c => (c <? l)%Z) classes)) y.

(** Two samples with one feature, labelled 0 and 1; a hinge-loss classifier
    with the 'optimal' schedule and [alpha = 1/16], and the same classifier
    with a constant schedule. *)
Definition X_two : SGD.samples :=
  SGD.Samples (Np.Array [2%nat; 1%nat] [1; -1]%Q) false [0; 1]%Z.
Definition sgd_optimal : SGD.estimator :=
  SGD.Estimator "hinge" "l2" "optimal" (1 # 10) (1 # 16) (3 # 20) true 5 false
    None 0 0 (1 # 2) false None None None None None None [].
Definition sgd_warm (t : Q) : SGD.estimator :=
  SGD.Estimator "hinge" "l2" "optimal" (1 # 10) (1 # 16) (3 # 20) true 5 false
    None 0 0 (1 # 2) true None (Some [0; 1]%Z)
    (Some (Np.Array [1%nat; 1%nat] [0%Q])) (Some (Np.Array [1%nat] [0%Q]))
    (Some t) None [].

(** A generalized cross-validation problem with a kernel that is not
    diagonal: [X = Q diag(1, 2)] for the rotation [Q] with entries 3/5 and
    4/5, so that [X X^T = Q diag(1, 4) Q^T].  The eigensolver knows this one
    decomposition and otherwise is the reference one. *)
Definition X_rotated : Ridge.design :=
  Ridge.Design (Np.Array [2%nat; 2%nat] [3 # 5; 8 # 5; - (4 # 5); 6 # 5]%Q) true.
Definition K_rotated : list Q := [73 # 25; 36 # 25; 36 # 25; 52 # 25]%Q.
Definition syevd_rotated (k : Np.ndarray) : option (list Q * list Q) :=
  if (List.length (Np.data k) =? 4)%nat
     && forallb (fun p => Qeq_bool (fst p) (snd p))
          (combine (Np.data k) K_rotated)
  then Some ([1; 4]%Q, [3 # 5; 4 # 5; - (4 # 5); 3 # 5]%Q)
  else Exact.syevd k.
Definition rotated : Np.numerics :=
  Np.Numerics Exact.posv Exact.gesdd syevd_rotated Exact.cg Exact.lsqr
    Exact.sqrt (fun n => repeat 0%Q n) true.

Definition not_centred (X y : Np.ndarray) (fit_intercept normalize copy : bool)
    (sample_weight : Ridge.weight) : M unit (Np.ndarray * Np.ndarray * unit) :=
  Py.ret (X, y, tt).
Definition zero_intercept (coef : Np.ndarray) (means : unit) : M unit Q :=
  Py.ret 0%Q.
Definition given_scorer (scoring : option RidgeGCV.Scorer)
  : M unit (option RidgeGCV.Scorer) := Py.ret scoring.
Definition y_ones : Np.ndarray := Np.Array [2%nat] [1; 1]%Q.

End Demo.

(* ================================================================== *)
(** * Properties *)

(** ** Outcomes *)

Section Outcomes.

Context {W A B : Type}.

Lemma bind_Ok (m : M W A) (k : A -> M W B) w a w1 :
  m w = (Ok a, w1) -> Py.bind m k w = k a w1.
Proof. unfold Py.bind. intros ->. reflexivity. Qed.

Lemma bind_Raise (m : M W A) (k : A -> M W B) w e w1 :
  m w = (Raise e, w1) -> Py.bind m k w = (Raise e, w1).
Proof. unfold Py.bind. intros ->. reflexivity. Qed.

Lemma bind_Ok_inv (m : M W A) (k : A -> M W B) w b w' :
  Py.bind m k w = (Ok b, w') ->
  exists a w1, m w = (Ok a, w1) /\ k a w1 = (Ok b, w').
Proof.
  unfold Py.bind. destruct (m w) as [[a|e] w1]; intros H.
  - exists a, w1. split; [reflexivity | exact H].
  - discriminate H.
Qed.

End Outcomes.

Lemma lift_Ok_inv {W A} (r : result A) (w w' : world W) a :
  Py.lift r w = (Ok a, w') -> r = Ok a /\ w' = w.
Proof. unfold Py.lift. intros H. inversion H. subst. split; reflexivity. Qed.

Lemma ret_Ok_inv {W A} (x a : A) (w w' : world W) :
  Py.ret x w = (Ok a, w') -> x = a /\ w' = w.
Proof. unfold Py.ret. intros H. inversion H. subst. split; reflexivity. Qed.

(** Splits a successful run of [x <- m ;; k] into its two runs. *)
Ltac bind_inv H :=
  let a := fresh "a" in
  let w1 := fresh "w" in
  let Hm := fresh "Hrun" in
  apply bind_Ok_inv in H; destruct H as (a & w1 & Hm & H).

(** The same, with the names to give to the intermediate result, the
    intermediate world and the first run. *)
Ltac bind_as H a w1 Hm :=
  apply bind_Ok_inv in H; destruct H as (a & w1 & Hm & H).

(* ================================================================== *)
(** ** learning_curve.py *)

Section UniqueFacts.

Import LearningCurve.
Local Open Scope Z_scope.

Lemma insert_unique_In x y l : In y (insert_unique x l) <-> y = x \/ In y l.
Proof.
  induction l as [|z t IH]; simpl.
  - intuition.
  - destruct (Z.ltb_spec x z); [simpl; intuition|].
    destruct (Z.eqb_spec x z); simpl; [subst; intuition|].
    rewrite IH. intuition.
Qed.

Lemma np_unique_In y l : In y (np_unique l) <-> In y l.
Proof.
  induction l as [|x t IH]; simpl; [reflexivity|].
  rewrite insert_unique_In, IH. intuition.
Qed.

Definition ascending (l : list Z) : Prop := StronglySorted Z.lt l.

Lemma insert_unique_ascending x l : ascending l -> ascending (insert_unique x l).
Proof.
  unfold ascending. induction 1 as [|z t Hs IH Hall]; simpl.
  - repeat constructor.
  - destruct (Z.ltb_spec x z).
    + constructor; [constructor; assumption|].
      constructor; [assumption|].
      rewrite Forall_forall in *. intros u Hu. specialize (Hall u Hu). lia.
    + destruct (Z.eqb_spec x z); [constructor; assumption|].
      constructor; [assumption|].
      rewrite Forall_forall in *. intros u Hu.
      apply insert_unique_In in Hu. destruct Hu as [->|Hu]; [lia | auto].
Qed.

Lemma np_unique_ascending l : ascending (np_unique l).
Proof.
  induction l as [|x t IH]; simpl; [constructor|].
  apply insert_unique_ascending, IH.
Qed.

Lemma ascending_NoDup l : ascending l -> NoDup l.
Proof.
  induction 1 as [|z t Hs IH Hall]; constructor; [|assumption].
  intros Hin. rewrite Forall_forall in Hall. specialize (Hall z Hin). lia.
Qed.

Lemma np_unique_NoDup l : NoDup (np_unique l).
Proof. apply ascending_NoDup, np_unique_ascending. Qed.

Lemma np_unique_length l : (List.length (np_unique l) <= List.length l)%nat.
Proof.
  apply NoDup_incl_length; [apply np_unique_NoDup|].
  intros y Hy. apply np_unique_In, Hy.
Qed.

(** Duplicates make the result strictly shorter. *)
Lemma np_unique_shorter l :
  ~ NoDup l -> (List.length (np_unique l) < List.length l)%nat.
Proof.
  intros Hdup.
  destruct (Nat.lt_ge_cases (List.length (np_unique l)) (List.length l)) as [|Hge];
    [assumption|].
  exfalso. apply Hdup.
  apply (NoDup_incl_NoDup (np_unique_NoDup l)); [exact Hge|].
  intros y Hy. apply np_unique_In, Hy.
Qed.

Lemma absolute_sizes_length s n :
  List.length (absolute_sizes s n) = n_ticks s.
Proof. destruct s; simpl; [apply length_map | reflexivity]. Qed.

(** A successful translation returns [np.unique] of the absolute sizes and
    warns exactly when that is shorter than the input. *)
Lemma _translate_train_sizes_Ok {W} s n (w w' : world W) r :
  _translate_train_sizes s n w = (Ok r, w') ->
  r = np_unique (absolute_sizes s n) /\
  ext w' = ext w /\
  warnings w' =
    (if (List.length r <? n_ticks s)%nat
     then warnings w ++ [duplicates_removed] else warnings w).
Proof.
  unfold _translate_train_sizes. intros H.
  bind_inv H.
  assert (Ha : a = absolute_sizes s n /\ w0 = w).
  { destruct s as [l|l]; cbn [absolute_sizes] in *.
    - destruct (np_min_float l), (np_max_float l); try discriminate Hrun.
      destruct (_ || _); [discriminate Hrun|].
      apply ret_Ok_inv in Hrun. destruct Hrun as [<- ->]. split; reflexivity.
    - destruct (np_min_int l), (np_max_int l); try discriminate Hrun.
      destruct (_ || _); [discriminate Hrun|].
      apply ret_Ok_inv in Hrun. destruct Hrun as [<- ->]. split; reflexivity. }
  destruct Ha as [-> ->]. clear Hrun.
  bind_inv H. apply ret_Ok_inv in H. destruct H as [<- ->].
  split; [reflexivity|].
  destruct (_ <? _)%nat.
  - unfold Py.warn in Hrun. injection Hrun as _ <-. split; reflexivity.
  - apply ret_Ok_inv in Hrun. destruct Hrun as [_ ->]. split; reflexivity.
Qed.

End UniqueFacts.

(** C5. [_translate_train_sizes([0.5, 1.0], 10)] and
    [_translate_train_sizes([5, 10], 10)] both return [[5, 10]] without a
    warning; and whenever the translated sizes contain duplicates, the
    returned array holds each translated size once, the duplicate-removal
    warning is issued, and the result is strictly shorter than the input. *)
Theorem translate_train_sizes_examples_and_duplicates :
  (forall W (w : world W),
     LearningCurve._translate_train_sizes
       (LearningCurve.Floats [0.5%float; 1%float]) 10 w = (Ok [5; 10]%Z, w)) /\
  (forall W (w : world W),
     LearningCurve._translate_train_sizes
       (LearningCurve.Ints [5; 10]%Z) 10 w = (Ok [5; 10]%Z, w)) /\
  (forall W (train_sizes : LearningCurve.sizes) (n_max_training_samples : Z)
          (w w' : world W) (r : list Z),
     LearningCurve._translate_train_sizes train_sizes n_max_training_samples w
       = (Ok r, w') ->
     ~ NoDup (LearningCurve.absolute_sizes train_sizes n_max_training_samples) ->
     NoDup r /\
     (forall x, In x r <->
                In x (LearningCurve.absolute_sizes train_sizes n_max_training_samples)) /\
     (List.length r < LearningCurve.n_ticks train_sizes)%nat /\
     warnings w' = warnings w ++ [LearningCurve.duplicates_removed] /\
     ext w' = ext w).
Proof.
  split; [|split].
  - intros W w. vm_compute. reflexivity.
  - intros W w. vm_compute. reflexivity.
  - intros W s n w w' r Hrun Hdup.
    apply _translate_train_sizes_Ok in Hrun.
    destruct Hrun as (-> & Hext & Hwarn).
    assert (Hlt : (List.length (LearningCurve.np_unique (LearningCurve.absolute_sizes s n))
                   < LearningCurve.n_ticks s)%nat).
    { rewrite <- absolute_sizes_length with (n := n).
      apply np_unique_shorter, Hdup. }
    split; [apply np_unique_NoDup|].
    split; [intros x; apply np_unique_In|].
    split; [exact Hlt|].
    split; [|exact Hext].
    apply Nat.ltb_lt in Hlt. rewrite Hlt in Hwarn. exact Hwarn.
Qed.

(** The duplicate case at [[0.5, 0.5625, 1.0]] of 10 samples: 5, 5 and 10. *)
Lemma translate_train_sizes_duplicates_witness :
  let w := World [] tt in
  let w' := World [LearningCurve.duplicates_removed] tt in
  LearningCurve._translate_train_sizes
    (LearningCurve.Floats [0.5%float; 0.5625%float; 1%float]) 10 w
    = (Ok [5; 10]%Z, w') /\
  (List.length [5; 10]%Z < 3)%nat.
Proof.
  intros w w'.
  assert (Hrun : LearningCurve._translate_train_sizes
                   (LearningCurve.Floats [0.5%float; 0.5625%float; 1%float]) 10 w
                 = (Ok [5; 10]%Z, w')) by (vm_compute; reflexivity).
  split; [exact Hrun|].
  refine (proj1 (proj2 (proj2
    (proj2 (proj2 translate_train_sizes_examples_and_duplicates)
       unit _ _ w w' _ Hrun _)))).
  vm_compute. intros Hnd. inversion Hnd as [|x l Hnotin _]; subst.
  apply Hnotin. left. reflexivity.
Defined.

(** C8. With [exploit_incremental_learning=True] and an estimator without
    [partial_fit], [learning_curve] raises its configuration error at once:
    whatever the collaborators that validate arrays, build folds, fit and
    score would do, none of them runs and the world is left as it was. *)
Theorem learning_curve_requires_partial_fit :
  forall (W Est Data CV Scoring Scorer Classes : Type)
         (has_partial_fit is_classifier : Est -> bool)
         check_arrays _check_cv _check_scorable get_scorer np_unique_y
         clone _split _fit _fit_partial _score
         (estimator : Est) (Xy : Data) (train_sizes : LearningCurve.sizes)
         (cv : CV) (scoring : Scoring) (w : world W),
    has_partial_fit estimator = false ->
    @LearningCurve.learning_curve W Est Data CV Scoring Scorer Classes
       has_partial_fit is_classifier check_arrays _check_cv _check_scorable
       get_scorer np_unique_y clone _split _fit _fit_partial _score
       estimator Xy train_sizes cv scoring true w
    = (Raise LearningCurve.no_partial_fit, w).
Proof.
  intros. unfold LearningCurve.learning_curve.
  rewrite H. reflexivity.
Qed.

Lemma learning_curve_requires_partial_fit_witness :
  Demo.learning_curve_demo false (LearningCurve.Ints [5; 10]%Z) true (World [] tt)
  = (Raise LearningCurve.no_partial_fit, World [] tt).
Proof.
  unfold Demo.learning_curve_demo.
  apply learning_curve_requires_partial_fit. reflexivity.
Defined.

(* ================================================================== *)
(** ** ridge.py: shapes of the solvers' results *)

Lemma raise_Ok_inv {W A} e (a : A) (w w' : world W) :
  Py.raise e w = (Ok a, w') -> False.
Proof. unfold Py.raise. discriminate. Qed.

Lemma local_Ok_inv {W A} name (v : option A) a (w w' : world W) :
  Py.local name v w = (Ok a, w') -> v = Some a /\ w' = w.
Proof.
  destruct v as [x|]; simpl; intros H.
  - apply ret_Ok_inv in H. destruct H as [-> ->]. split; reflexivity.
  - apply raise_Ok_inv in H. contradiction.
Qed.

Lemma try_except_Ok_inv {W A} (m h : M W A) catches a (w w' : world W) :
  Py.try_except m catches h w = (Ok a, w') ->
  m w = (Ok a, w') \/
  exists e w1, m w = (Raise e, w1) /\ catches e = true /\ h w1 = (Ok a, w').
Proof.
  unfold Py.try_except. destruct (m w) as [[x|e] w1]; intros H.
  - left. exact H.
  - right. exists e, w1. destruct (catches e); [auto | discriminate H].
Qed.

(** One step of taking a successful run apart. *)
Ltac run_step :=
  match goal with
  | H : Py.bind _ _ _ = (Ok _, _) |- _ => bind_inv H
  | H : Py.ret _ _ = (Ok _, _) |- _ =>
      apply ret_Ok_inv in H; destruct H as [H ?]; inversion H; clear H; subst
  | H : Py.lift _ _ = (Ok _, _) |- _ =>
      apply lift_Ok_inv in H; destruct H as [? ?]; subst
  | H : Py.raise _ _ = (Ok _, _) |- _ => apply raise_Ok_inv in H; contradiction
  | H : Py.local _ _ _ = (Ok _, _) |- _ =>
      apply local_Ok_inv in H; destruct H as [H ?];
      try (inversion H; clear H); subst
  | H : (let '(_, _) := ?p in _) _ = (Ok _, _) |- _ => destruct p
  | H : (if ?c then _ else _) _ = (Ok _, _) |- _ => destruct c eqn:?
  end.
Ltac run_inv := repeat run_step.

(** Runs the steps of a call whose outcome is determined. *)
Ltac py_eval :=
  cbn [Py.bind Py.ret Py.raise Py.lift Py.local Py.is_LinAlgError
       negb andb orb String.eqb Ascii.eqb Bool.eqb].

Section RidgeShapes.

Import Np Ridge.
Variable W : Type.
Variable L : numerics.

Lemma dot_shape a b c : dot a b = Ok c -> shape c = [dim 0 a; dim 1 b].
Proof.
  unfold dot. destruct (Nat.eqb _ _); intros H; inversion H. reflexivity.
Qed.

Lemma linalg_solve_shape a b x : linalg_solve L a b = Ok x -> shape x = shape b.
Proof.
  unfold linalg_solve. destruct (andb _ _); [|discriminate].
  destruct (lapack_posv L a b); intros H; inversion H. reflexivity.
Qed.

Lemma broadcast_dim_one_r t : broadcast_dim t 1 = Some t.
Proof.
  unfold broadcast_dim. destruct (Nat.eqb_spec t 1) as [->|Hne]; [reflexivity|].
  reflexivity.
Qed.

Lemma mul2_shape a b c :
  mul2 a b = Ok c ->
  exists n p, broadcast_dim (dim 0 a) (dim 0 b) = Some n /\
              broadcast_dim (dim 1 a) (dim 1 b) = Some p /\ shape c = [n; p].
Proof.
  unfold mul2.
  destruct (broadcast_dim (dim 0 a) (dim 0 b)) as [n|]; [|discriminate].
  destruct (broadcast_dim (dim 1 a) (dim 1 b)) as [p|]; [|discriminate].
  intros H. inversion H. exists n, p. repeat split.
Qed.

Lemma imul2_shape a b c :
  imul2 a b = Ok c -> shape c = [dim 0 a; dim 1 a].
Proof.
  unfold imul2. destruct (mul2 a b) as [c'|e] eqn:Hm; [|discriminate].
  destruct (andb _ _) eqn:Hd; [|discriminate].
  intros H. inversion H. subst c'.
  apply mul2_shape in Hm. destruct Hm as (n & p & _ & _ & Hs).
  apply andb_true_iff in Hd. destruct Hd as [H0 H1].
  apply Nat.eqb_eq in H0, H1. unfold dim in H0, H1. rewrite Hs in *.
  simpl in H0, H1. subst. reflexivity.
Qed.

Lemma _solve_sparse_cg_shape X y alpha max_iter tol (w w' : world W) c :
  _solve_sparse_cg L X y alpha max_iter tol w = (Ok c, w') ->
  shape c = [dim 1 y; dim 1 X].
Proof. unfold _solve_sparse_cg. intros H. run_inv. reflexivity. Qed.

Lemma _solve_lsqr_shape X y alpha max_iter tol (w w' : world W) c :
  _solve_lsqr L X y alpha max_iter tol w = (Ok c, w') ->
  shape c = [dim 1 y; dim 1 X].
Proof. unfold _solve_lsqr. intros H. run_inv. reflexivity. Qed.

Lemma _solve_dense_cholesky_shape X y alpha (w w' : world W) c :
  _solve_dense_cholesky L X y alpha w = (Ok c, w') ->
  shape c = [dim 1 y; dim 1 X].
Proof.
  unfold _solve_dense_cholesky. intros H. run_inv; [|reflexivity].
  match goal with Hs : linalg_solve _ _ _ = Ok _ |- _ =>
    apply linalg_solve_shape in Hs; rename Hs into Hx end.
  match goal with Hd : dot (transpose X) y = Ok _ |- _ =>
    apply dot_shape in Hd; rename Hd into Hxy end.
  unfold transpose at 1. simpl. unfold dim. rewrite Hx, Hxy. reflexivity.
Qed.

Lemma _solve_dense_cholesky_kernel_dim K y alpha sample_weight (w w' : world W) d :
  _solve_dense_cholesky_kernel L K y alpha sample_weight w = (Ok d, w') ->
  dim 1 d = dim 1 y.
Proof.
  unfold _solve_dense_cholesky_kernel. intros H.
  bind_inv H. bind_inv H.
  destruct a0 as [[sw y'] K'].
  assert (Hy' : dim 1 y' = dim 1 y).
  { clear H. destruct (has_sample_weight sample_weight).
    - destruct sample_weight as [q|v]; [run_inv|].
      run_inv.
      match goal with Hm : mul2 y _ = Ok _ |- _ =>
        apply mul2_shape in Hm; destruct Hm as (n & p & _ & Hp & Hs) end.
      change (dim 1 (as_column (map (np_sqrt L) v))) with 1%nat in Hp.
      rewrite broadcast_dim_one_r in Hp. inversion Hp; subst.
      unfold dim. rewrite Hs. reflexivity.
    - run_inv. reflexivity. }
  clear Hrun0.
  destruct (all_equal_to a alpha).
  - rewrite <- Hy'. run_inv.
    + match goal with Hm : imul2 _ _ = Ok _ |- _ => apply imul2_shape in Hm; rename Hm into Hd end.
      match goal with Hs : linalg_solve _ _ _ = Ok _ |- _ => apply linalg_solve_shape in Hs; rename Hs into Hx end.
      unfold dim at 1. rewrite Hd. simpl. unfold dim. rewrite Hx. reflexivity.
    + match goal with Hs : linalg_solve _ _ _ = Ok _ |- _ => apply linalg_solve_shape in Hs; rename Hs into Hx end.
      unfold dim. rewrite Hx. reflexivity.
  - run_inv.
    + match goal with Hm : imul2 _ _ = Ok _ |- _ => apply imul2_shape in Hm; rename Hm into Hd end.
      change (dim 1 (transpose a1)) with (dim 0 a1).
      unfold dim at 1. rewrite Hd. reflexivity.
    + reflexivity.
Qed.

Lemma _solve_svd_shape X y alpha (w w' : world W) c :
  _solve_svd L X y alpha w = (Ok c, w') ->
  broadcast_dim (List.length alpha) (dim 1 y) = Some (dim 1 y) ->
  shape c = [dim 1 y; dim 1 X].
Proof.
  unfold _solve_svd. intros H Hb. run_inv.
  match goal with Hm : mul2 _ _ = Ok _ |- _ =>
    apply mul2_shape in Hm; destruct Hm as (n' & p & _ & Hp & Hs) end.
  match goal with Hd : dot (transpose _) y = Ok _ |- _ =>
    apply dot_shape in Hd; rename Hd into HU end.
  match goal with Hd : dot (transpose _) _ = Ok _ |- _ =>
    apply dot_shape in Hd; rename Hd into HV end.
  match goal with Hd : linalg_svd _ _ = Ok _ |- _ => rename Hd into Hsvd end.
  unfold linalg_svd in Hsvd.
  destruct (lapack_gesdd L X) as [[[u sd] vt]|]; [|discriminate].
  inversion Hsvd; subst; clear Hsvd.
  change (dim 1 (of_rows ?a ?b ?c)) with b in Hp.
  unfold dim at 1 in Hp. rewrite HU in Hp. simpl in Hp.
  rewrite Hb in Hp. inversion Hp; subst.
  unfold transpose at 1. simpl. unfold dim at 1 2. rewrite HV. simpl.
  unfold dim at 1. rewrite Hs. reflexivity.
Qed.

End RidgeShapes.

Section RidgeDispatch.

Import Np Ridge.
Local Open Scope string_scope.
Variable W : Type.
Variable L : numerics.

(** After the check of line 267 and the [np.repeat] of line 273 the
    penalties broadcast against the targets. *)
Lemma penalties_broadcast (alpha : list Q) (t : nat) :
  (List.length alpha =? 1)%nat || (List.length alpha =? t)%nat = true ->
  broadcast_dim
    (List.length (if (List.length alpha =? 1)%nat && (1 <? t)%nat
                  then flat_map (fun a => repeat a t) alpha else alpha)) t
  = Some t.
Proof.
  intros H. unfold broadcast_dim.
  destruct (Nat.eqb_spec (List.length alpha) 1) as [H1|H1]; simpl in *.
  - destruct alpha as [|a [|b r]]; try discriminate H1.
    destruct (Nat.ltb_spec 1 t) as [Ht|Ht]; simpl.
    + rewrite app_nil_r, repeat_length, Nat.eqb_refl. reflexivity.
    + destruct t as [|[|t]]; [reflexivity | reflexivity | lia].
  - apply Nat.eqb_eq in H. rewrite H, Nat.eqb_refl. reflexivity.
Qed.

Lemma ravel_single_target (c : ndarray) (p : nat) :
  shape c = [1%nat; p] -> shape (ravel c) = [p].
Proof.
  intros H. unfold ravel, size. rewrite H. simpl.
  rewrite Nat.add_0_r, Nat.mul_1_r. reflexivity.
Qed.

Lemma unpack2_Ok_inv (a : ndarray) (w w' : world W) n p :
  unpack2 a w = (Ok (n, p), w') -> shape a = [n; p] /\ w' = w.
Proof.
  unfold unpack2. destruct (shape a) as [|n' [|p' [|? ?]]]; intros H;
    try (apply raise_Ok_inv in H; contradiction).
  apply ret_Ok_inv in H. destruct H as [H ->]. inversion H. split; reflexivity.
Qed.

Lemma ridge_regression_Ok_shape Xd y alpha sample_weight solver max_iter tol
    (w w' : world W) coef :
  ridge_regression L Xd y alpha sample_weight solver max_iter tol w = (Ok coef, w') ->
  (ndim y = 1%nat -> shape coef = [dim 1 (values Xd)]) /\
  (ndim y = 2%nat -> shape coef = [dim 1 y; dim 1 (values Xd)]).
Proof.
  unfold ridge_regression. intros H.
  bind_inv H. destruct a as [n_samples n_features].
  destruct (2 <? ndim y)%nat eqn:Hnd; [run_inv|].
  set (yr := if (ndim y =? 1)%nat then (reshape_column y, true) else (y, false)) in H.
  destruct yr as [y' ravel_] eqn:Hyr.
  bind_inv H. destruct a as [n_samples_ n_targets].
  destruct (negb (n_samples =? n_samples_)%nat); [run_inv|].
  bind_inv H. bind_inv H.
  destruct (negb _) eqn:Hcount in H; [run_inv|].
  apply negb_false_iff in Hcount.
  apply unpack2_Ok_inv in Hrun0. destruct Hrun0 as [Hy' ->].
  assert (Ht : n_targets = dim 1 y') by (unfold dim; rewrite Hy'; reflexivity).
  subst n_targets.
  apply penalties_broadcast in Hcount.
  set (alpha' := if (List.length alpha =? 1)%nat && (1 <? dim 1 y')%nat
                 then flat_map (fun a => repeat a (dim 1 y')) alpha else alpha) in *.
  clear Hrun Hrun1 Hrun2.
  bind_inv H. destruct a1 as [solver' coef1].
  assert (Hdisp : forall c, coef1 = Some c -> shape c = [dim 1 y'; dim 1 (values Xd)]).
  { clear H. intros c ->.
    destruct (a0 =? "sparse_cg").
    { run_inv. eapply _solve_sparse_cg_shape; eassumption. }
    destruct (a0 =? "lsqr").
    { run_inv. eapply _solve_lsqr_shape; eassumption. }
    destruct (a0 =? "dense_cholesky"); [|run_inv].
    destruct (_ || _).
    - bind_inv Hrun. bind_inv Hrun.
      match goal with Htry : Py.try_except _ _ _ _ = _ |- _ =>
        apply try_except_Ok_inv in Htry;
        destruct Htry as [Hk | (e & wh & _ & _ & Hh)] end.
      + run_inv.
        match goal with Hk : _solve_dense_cholesky_kernel _ _ _ _ _ _ = _ |- _ =>
          apply _solve_dense_cholesky_kernel_dim in Hk; rename Hk into Hdim end.
        match goal with Hd : dot (transpose _) _ = Ok _ |- _ =>
          apply dot_shape in Hd; rename Hd into Hc end.
        unfold transpose at 1. simpl. unfold dim at 1 2. rewrite Hc. simpl.
        rewrite Hdim. reflexivity.
      + run_inv.
    - apply try_except_Ok_inv in Hrun.
      destruct Hrun as [Hk | (e & wh & _ & _ & Hh)]; run_inv.
      eapply _solve_dense_cholesky_shape; eassumption. }
  bind_inv H.
  assert (Hsvd : forall c, a1 = Some c -> shape c = [dim 1 y'; dim 1 (values Xd)]).
  { clear H Hrun. destruct (solver' =? "svd").
    - run_inv. intros c Hc. inversion Hc; subst.
      eapply _solve_svd_shape; [eassumption|]. exact Hcount.
    - run_inv. exact Hdisp. }
  clear Hdisp Hrun0 Hrun.
  subst yr. unfold ndim in *.
  destruct (List.length (shape y) =? 1)%nat eqn:H1d;
    inversion Hyr; subst y' ravel_; clear Hyr.
  - apply Nat.eqb_eq in H1d. run_inv.
    split; [|intros H2; rewrite H2 in H1d; discriminate H1d].
    intros _. apply ravel_single_target, Hsvd. reflexivity.
  - apply Nat.eqb_neq in H1d. run_inv.
    split; [intros H1; contradiction|].
    intros _. apply Hsvd. reflexivity.
Qed.

(** The two-dimensional target that the solvers receive (lines 234-237). *)
Definition target_2d (y : ndarray) : ndarray :=
  if (ndim y =? 1)%nat then reshape_column y else y.

Lemma existsb_eqb_false (solver : string) (names : list string) :
  existsb (String.eqb solver) names = false ->
  forall name, In name names -> (solver =? name) = false.
Proof.
  intros H name Hin.
  destruct (solver =? name) eqn:E; [|reflexivity].
  rewrite <- H. symmetry. apply existsb_exists. exists name. split; assumption.
Qed.

End RidgeDispatch.

(* ================================================================== *)
(** ** ridge.py: the dispatch of [ridge_regression] *)

Section RidgeRegression.

Import Np Ridge.
Local Open Scope string_scope.
Variable W : Type.
Variable L : numerics.

Lemma at_most_2d (y : ndarray) :
  (ndim y =? 1)%nat || (ndim y =? 2)%nat = true -> (2 <? ndim y)%nat = false.
Proof.
  intros H. apply orb_true_iff in H.
  destruct H as [E|E]; apply Nat.eqb_eq in E; rewrite E; reflexivity.
Qed.

Lemma no_repeat_needed (alpha : list Q) :
  (List.length alpha =? 1)%nat && (1 <? List.length alpha)%nat = false.
Proof. destruct (Nat.eqb_spec (List.length alpha) 1) as [->|]; reflexivity. Qed.


(** C1. The claimed recovery does not happen in the kernel branch
    ([n_features > n_samples], or sample weights): when the Cholesky solve
    of the kernel system raises [LinAlgError], the handler only switches
    [solver] to 'svd'; the next statement reads [dual_coef], which was never
    assigned, and [ridge_regression] fails with [UnboundLocalError] instead
    of returning the SVD coefficients. *)
Theorem ridge_regression_singular_kernel_not_recovered
    Xd y alpha sample_weight solver max_iter tol (w w1 : world W) n p K :
  shape (values Xd) = [n; p] ->
  (ndim y =? 1)%nat || (ndim y =? 2)%nat = true ->
  shape (target_2d y) = [n; List.length alpha] ->
  solver = "dense_cholesky" \/ (solver = "auto" /\ is_array Xd = true) ->
  (n <? p)%nat || has_sample_weight sample_weight = true ->
  dot (values Xd) (transpose (values Xd)) = Ok K ->
  _solve_dense_cholesky_kernel L K (target_2d y) alpha sample_weight w
    = (Raise LinAlgError, w1) ->
  ridge_regression L Xd y alpha sample_weight solver max_iter tol w
  = (Raise (UnboundLocalError "dual_coef"), w1).
Proof.
  intros HX Hnd Hy Hsolver Hbranch HK Hsing.
  pose proof (at_most_2d y Hnd) as Hnd2.
  pose proof (no_repeat_needed alpha) as Hrep.
  unfold ridge_regression.
  unfold unpack2 at 1. rewrite HX. py_eval. rewrite Hnd2.
  unfold target_2d in *.
  destruct Hsolver as [-> | [-> Harr]]; try rewrite Harr;
    destruct (ndim y =? 1)%nat;
    unfold unpack2; rewrite Hy; py_eval; rewrite Nat.eqb_refl; py_eval;
    rewrite andb_false_r; py_eval; rewrite Nat.eqb_refl, orb_true_r; py_eval;
    rewrite Hrep, Hbranch, HK;
    unfold Py.try_except, Py.bind; py_eval; rewrite Hsing; reflexivity.
Qed.

(** C2. An unsupported solver name is not rejected: line 276 builds the
    [ValueError] without raising it.  With unit sample weights no solver
    branch is taken and the call ends in [UnboundLocalError] on [coef]. *)
Theorem ridge_regression_unknown_solver_not_rejected
    Xd y alpha sample_weight solver max_iter tol (w : world W) n p t :
  shape (values Xd) = [n; p] ->
  (ndim y =? 1)%nat || (ndim y =? 2)%nat = true ->
  shape (target_2d y) = [n; t] ->
  (List.length alpha =? 1)%nat || (List.length alpha =? t)%nat = true ->
  has_sample_weight sample_weight = false ->
  existsb (String.eqb solver)
    ["auto"; "svd"; "dense_cholesky"; "lsqr"; "sparse_cg"] = false ->
  ridge_regression L Xd y alpha sample_weight solver max_iter tol w
  = (Raise (UnboundLocalError "coef"), w).
Proof.
  intros HX Hnd Hy Hcount Hsw Hname.
  pose proof (at_most_2d y Hnd) as Hnd2.
  pose proof (existsb_eqb_false _ _ Hname) as Hne.
  assert (Hauto : (solver =? "auto") = false) by (apply Hne; simpl; auto).
  assert (Hsvd : (solver =? "svd") = false) by (apply Hne; simpl; auto).
  assert (Hchol : (solver =? "dense_cholesky") = false) by (apply Hne; simpl; auto).
  assert (Hlsqr : (solver =? "lsqr") = false) by (apply Hne; simpl; auto 6).
  assert (Hcg : (solver =? "sparse_cg") = false) by (apply Hne; simpl; auto 6).
  unfold ridge_regression.
  unfold unpack2 at 1. rewrite HX. py_eval. rewrite Hnd2.
  unfold target_2d in *.
  destruct (ndim y =? 1)%nat;
    unfold unpack2; rewrite Hy; py_eval; rewrite Nat.eqb_refl; py_eval;
    rewrite Hauto, Hlsqr; py_eval; rewrite Hsw; py_eval;
    rewrite Hcount; py_eval; rewrite Hcg, Hlsqr, Hchol; py_eval;
    rewrite Hsvd; py_eval; reflexivity.
Qed.

(** C10. The coefficients returned for a 1-D target are 1-D of length
    [n_features], those returned for a 2-D target have the shape
    [(n_targets, n_features)]; a target of more than two dimensions, or
    with another number of samples than [X], is rejected with a
    [ValueError] whatever the numerical routines would do, and with the
    world untouched. *)
Theorem ridge_regression_preserves_target_dimensionality
    Xd y alpha sample_weight solver max_iter tol (w : world W) n p :
  shape (values Xd) = [n; p] ->
  (forall coef w',
     ridge_regression L Xd y alpha sample_weight solver max_iter tol w
       = (Ok coef, w') ->
     (ndim y = 1%nat -> shape coef = [p]) /\
     (ndim y = 2%nat -> shape coef = [dim 1 y; p])) /\
  ((2 < ndim y)%nat ->
   ridge_regression L Xd y alpha sample_weight solver max_iter tol w
     = (Raise (ValueError "Target y has the wrong shape"), w)) /\
  (ndim y = 1%nat \/ ndim y = 2%nat -> dim 0 y <> n ->
   ridge_regression L Xd y alpha sample_weight solver max_iter tol w
     = (Raise (ValueError "Number of samples in X and y does not correspond"), w)).
Proof.
  intros HX.
  assert (Hp : dim 1 (values Xd) = p) by (unfold dim; rewrite HX; reflexivity).
  split; [|split].
  - intros coef w' Hrun. rewrite <- Hp.
    eapply ridge_regression_Ok_shape. exact Hrun.
  - intros Hnd. apply Nat.ltb_lt in Hnd.
    unfold ridge_regression, unpack2 at 1. rewrite HX. py_eval.
    rewrite Hnd. reflexivity.
  - intros Hnd Hn.
    unfold ridge_regression, unpack2 at 1. rewrite HX. py_eval.
    unfold ndim, dim in *.
    destruct (shape y) as [|m [|t [|? ?]]] eqn:Hs; simpl in Hnd;
      try (destruct Hnd; discriminate).
    + simpl. unfold unpack2, reshape_column, size. rewrite Hs. simpl.
      rewrite Nat.mul_1_r.
      simpl in Hn. apply Nat.neq_sym, Nat.eqb_neq in Hn.
      py_eval. rewrite Hn. reflexivity.
    + simpl. unfold unpack2. rewrite Hs. simpl.
      simpl in Hn. apply Nat.neq_sym, Nat.eqb_neq in Hn.
      py_eval. rewrite Hn. reflexivity.
Qed.

End RidgeRegression.

(** On the zero 1x2 design the kernel matrix is the zero 1x1 matrix. *)
Lemma ridge_regression_singular_kernel_witness :
  Ridge.ridge_regression Exact.reference Demo.X_zero_wide Demo.y_one [0]%Q
    (Ridge.WFloat 1) "auto" None Demo.tol (World [] tt)
  = (Raise (UnboundLocalError "dual_coef"), World [] tt).
Proof.
  eapply (@ridge_regression_singular_kernel_not_recovered unit Exact.reference
            Demo.X_zero_wide Demo.y_one [0]%Q (Ridge.WFloat 1) "auto" None
            Demo.tol (World [] tt) (World [] tt) 1 2
            (Np.Array [1%nat; 1%nat] [0 * 0 + (0 * 0 + 0)]%Q)).
  - reflexivity.
  - reflexivity.
  - reflexivity.
  - right. split; reflexivity.
  - reflexivity.
  - reflexivity.
  - vm_compute. reflexivity.
Defined.

(** On the zero 1x1 design the primal branch recovers through the SVD. *)
Example ridge_regression_singular_primal_example :
  Ridge.ridge_regression Exact.reference Demo.X_zero_square Demo.y_one [0]%Q
    (Ridge.WFloat 1) "auto" None Demo.tol (World [] tt)
  = (Ok (Np.Array [1%nat] [0]%Q), World [] tt).
Proof. vm_compute. reflexivity. Qed.

(** 'cholesky' is not one of the five names. *)
Lemma ridge_regression_unknown_solver_witness :
  Ridge.ridge_regression Exact.reference Demo.X_regular Demo.y_regular [0]%Q
    (Ridge.WFloat 1) "cholesky" None Demo.tol (World [] tt)
  = (Raise (UnboundLocalError "coef"), World [] tt).
Proof.
  eapply (@ridge_regression_unknown_solver_not_rejected unit Exact.reference
            Demo.X_regular Demo.y_regular [0]%Q (Ridge.WFloat 1) "cholesky" None
            Demo.tol (World [] tt) 2 2 1); reflexivity.
Defined.

(** With array sample weights the unknown name is silently replaced by
    'dense_cholesky' and coefficients are returned. *)
Example ridge_regression_unknown_solver_with_weights :
  exists coef,
    Ridge.ridge_regression Exact.reference Demo.X_regular Demo.y_regular [0]%Q
      (Ridge.WArray [1; 1]%Q) "cholesky" None Demo.tol (World [] tt)
    = (Ok coef,
       World [UserWarning "sample_weight and class_weight not supported, fall back to dense_cholesky."] tt).
Proof. eexists. vm_compute. reflexivity. Qed.

Lemma ridge_regression_preserves_target_dimensionality_witness :
  exists coef w',
    Ridge.ridge_regression Exact.reference Demo.X_regular Demo.y_regular [0]%Q
      (Ridge.WFloat 1) "auto" None Demo.tol (World [] tt) = (Ok coef, w') /\
    Np.shape coef = [2%nat].
Proof.
  eexists. eexists.
  assert (Hrun : Ridge.ridge_regression Exact.reference Demo.X_regular
                   Demo.y_regular [0]%Q (Ridge.WFloat 1) "auto" None Demo.tol
                   (World [] tt)
                 = (Ok (Np.Array [2%nat] [1125 # 1125; 45 # 45]%Q), World [] tt))
    by (vm_compute; reflexivity).
  split; [exact Hrun|].
  refine (proj1 (proj1 (@ridge_regression_preserves_target_dimensionality
                   unit Exact.reference Demo.X_regular Demo.y_regular [0]%Q
                   (Ridge.WFloat 1) "auto" None Demo.tol (World [] tt) 2 2 _)
                 _ _ Hrun) _); reflexivity.
Defined.


Section GCV.

Import Np Ridge RidgeGCV.
Local Open Scope Q_scope.


Section ArgFirst.

Variable better : Q -> Q -> bool.
Hypothesis better_irrefl : forall x, better x x = false.
Hypothesis better_asym : forall x a, better x a = true -> better a x = false.
Hypothesis better_below :
  forall x a b, better x b = true -> better a b = false -> better x a = true.
Variable f : nat -> Q.


End ArgFirst.

Lemma map_nth_seq (l : list Q) :
  map (fun j => nth j l 0) (seq 0 (List.length l)) = l.
Proof.
  induction l as [|a t IH]; [reflexivity|].
  simpl. f_equal. rewrite <- seq_shift, map_map. exact IH.
Qed.






Lemma nth_map_lt {A B} (f : A -> B) (l : list A) (j : nat) (d : A) (d' : B) :
  (j < List.length l)%nat -> nth j (map f l) d' = f (nth j l d).
Proof.
  revert j. induction l as [|a t IH]; intros j Hj; simpl in *; [lia|].
  destruct j as [|j]; [reflexivity|]. apply IH. lia.
Qed.

Lemma mapM_Ok_inv {W A B} (f : A -> M W B) (l : list A) (w w' : world W) r :
  Py.mapM f l w = (Ok r, w') ->
  Forall2 (fun a b => exists w1 w2, f a w1 = (Ok b, w2)) l r.
Proof.
  revert w r. induction l as [|a t IH]; intros w r H; simpl in H.
  - apply ret_Ok_inv in H. destruct H as [<- _]. constructor.
  - run_inv. constructor; [eauto | eauto].
Qed.

End GCV.

Section GCVFit.

Import Np Ridge RidgeGCV.
Local Open Scope Q_scope.
Variable W : Type.
Variable L : numerics.
Variables ScoreArgs Means Intercept : Type.
Variable _center_data :
  ndarray -> ndarray -> bool -> bool -> bool -> weight ->
  M W (ndarray * ndarray * Means).
Variable _set_intercept : ndarray -> Means -> M W Intercept.
Variable _deprecate_loss_and_score_funcs : ScoreArgs -> M W (option Scorer).


End GCVFit.

(* ================================================================== *)
(** ** coordinate_descent.py: the default grid of alphas *)

Section AlphaGrid.

Import CoordinateDescent.
Local Open Scope R_scope.

Lemma ln_10_pos : 0 < ln 10.
Proof. rewrite <- ln_1. apply ln_increasing; lra. Qed.

Lemma power10_log10 (x : R) : 0 < x -> power10 (log10 x) = x.
Proof.
  intros Hx. unfold power10, log10, Rpower.
  replace (ln x / ln 10 * ln 10) with (ln x)
    by (field; apply Rgt_not_eq, ln_10_pos).
  apply exp_ln, Hx.
Qed.

(** For two or more points [np.linspace] is the arithmetic progression from
    [start] with step [(stop - start) / (num - 1)], the last point being
    [stop] itself. *)
Lemma linspace_uniform (start stop : R) (num : Z) :
  (2 <= num)%Z ->
  linspace start stop num
  = map (fun i => INR i * ((stop - start) / IZR (num - 1)) + start)
        (seq 0 (Z.to_nat num)).
Proof.
  intros Hn. unfold linspace.
  destruct (Z.leb_spec num 0); [lia|].
  destruct (Z.eqb_spec num 1); [lia|].
  replace (Z.to_nat num) with (S (Z.to_nat num - 1)) at 2 by lia.
  rewrite seq_S, map_app. simpl. f_equal. f_equal.
  rewrite INR_IZR_INZ.
  replace (Z.of_nat (Z.to_nat num - 1)) with (num - 1)%Z by lia.
  field. apply not_0_IZR. lia.
Qed.

(** Closed form of the grid: value [k] is [alpha_max * eps ^ (k / (n - 1))]. *)
Lemma grid_closed_form (alpha_max eps : R) (n_alphas : Z) (k : nat) :
  0 < alpha_max -> 0 < eps -> (2 <= n_alphas)%Z -> (k < Z.to_nat n_alphas)%nat ->
  nth k (rev (logspace (log10 (alpha_max * eps)) (log10 alpha_max) n_alphas)) 0
  = alpha_max * Rpower eps (INR k / IZR (n_alphas - 1)).
Proof.
  intros Ham Heps Hn Hk.
  unfold logspace. rewrite linspace_uniform by exact Hn.
  rewrite map_map.
  rewrite rev_nth by (rewrite length_map, length_seq; exact Hk).
  rewrite length_map, length_seq.
  set (j := (Z.to_nat n_alphas - S k)%nat).
  rewrite (nth_map_lt _ _ 0%nat) by (rewrite length_seq; unfold j; lia).
  rewrite seq_nth by (unfold j; lia). simpl.
  assert (Hj : INR j = IZR (n_alphas - 1) - INR k).
  { unfold j. rewrite minus_INR by lia. rewrite S_INR, INR_IZR_INZ.
    rewrite Z2Nat.id by lia. rewrite minus_IZR. lra. }
  assert (Hn0 : IZR (n_alphas - 1) <> 0) by (apply not_0_IZR; lia).
  pose proof ln_10_pos as H10.
  unfold power10, log10, Rpower. rewrite Hj.
  rewrite ln_mult by assumption.
  replace ((IZR (n_alphas - 1) - INR k)
           * ((ln alpha_max / ln 10 - (ln alpha_max + ln eps) / ln 10)
              / IZR (n_alphas - 1))
           + (ln alpha_max + ln eps) / ln 10) with
    ((ln alpha_max + INR k / IZR (n_alphas - 1) * ln eps) / ln 10)
    by (field; split; [lra | exact Hn0]).
  replace ((ln alpha_max + INR k / IZR (n_alphas - 1) * ln eps) / ln 10 * ln 10)
    with (ln alpha_max + INR k / IZR (n_alphas - 1) * ln eps)
    by (field; lra).
  rewrite exp_plus, exp_ln by exact Ham. reflexivity.
Qed.

Lemma grid_length (start stop : R) (num : Z) :
  List.length (rev (logspace start stop num)) = Z.to_nat num.
Proof.
  rewrite length_rev. unfold logspace, linspace. rewrite length_map.
  destruct (Z.leb_spec num 0); [simpl; lia|].
  destruct (Z.eqb_spec num 1); [subst; reflexivity|].
  rewrite length_app, length_map, length_seq. simpl. lia.
Qed.

(** With a single point the grid is the lower end. *)
Lemma grid_single (alpha_max eps : R) :
  0 < alpha_max -> 0 < eps ->
  rev (logspace (log10 (alpha_max * eps)) (log10 alpha_max) 1) = [alpha_max * eps].
Proof.
  intros Ham Heps. unfold logspace, linspace. simpl.
  rewrite power10_log10; [reflexivity|].
  apply Rmult_lt_0_compat; assumption.
Qed.

Lemma Rpower_le_1 (eps x : R) : 0 < eps <= 1 -> 0 <= x -> Rpower eps x <= 1.
Proof.
  intros Heps Hx.
  assert (H1 : Rpower 1 x = 1)
    by (unfold Rpower; rewrite ln_1, Rmult_0_r; apply exp_0).
  rewrite <- H1.
  apply Rle_Rpower_l; [exact Hx | lra].
Qed.

End AlphaGrid.

Section AlphaGridCall.

Import CoordinateDescent.
Local Open Scope R_scope.
Variables W Means : Type.
Variable atleast2d_or_csc : design -> bool -> M W design.
Variable center_data :
  design -> ndarray -> bool -> bool -> bool -> M W (design * ndarray * Means).

Lemma fold_left_Rmax_bound (l : list R) (a : R) :
  a <= fold_left Rmax l a /\
  (forall x, In x l -> x <= fold_left Rmax l a) /\
  (fold_left Rmax l a = a \/ In (fold_left Rmax l a) l).
Proof.
  revert a. induction l as [|y t IH]; intros a; simpl.
  - split; [lra|]. split; [contradiction | left; reflexivity].
  - destruct (IH (Rmax a y)) as (H1 & H2 & H3).
    pose proof (Rmax_l a y). pose proof (Rmax_r a y).
    split; [lra|]. split.
    + intros x [<-|Hx]; [lra | apply H2, Hx].
    + destruct H3 as [H3|H3]; [|right; right; exact H3].
      rewrite H3. unfold Rmax. destruct (Rle_dec a y); [right; left|left]; reflexivity.
Qed.

(** [np.abs(v).max()] is the largest absolute value of [v]. *)
Lemma abs_max_Ok (v : list R) (w w' : world W) (m : R) :
  abs_max v w = (Ok m, w') ->
  w' = w /\ (forall x, In x v -> Rabs x <= m) /\ (exists x, In x v /\ m = Rabs x).
Proof.
  unfold abs_max. destruct v as [|x t]; intros H;
    [apply raise_Ok_inv in H; contradiction|].
  apply ret_Ok_inv in H. destruct H as [<- ->]. split; [reflexivity|].
  destruct (fold_left_Rmax_bound (map Rabs t) (Rabs x)) as (H1 & H2 & H3).
  split.
  - intros z [<-|Hz]; [exact H1|]. apply H2, in_map, Hz.
  - destruct H3 as [H3|H3].
    + exists x. split; [left; reflexivity | exact H3].
    + apply in_map_iff in H3. destruct H3 as (z & Hz & Hin).
      exists z. split; [right; exact Hin | symmetry; exact Hz].
Qed.

(** Where the products [X_i . y] come from: the caller's [Xy], or the
    validated and (unless sparse) centred data. *)
Definition products_of (X : design) (y : ndarray) (Xy : option ndarray)
    (fit_intercept normalize copy_X : bool) (products : list R) (n_samples : nat)
  : Prop :=
  match Xy with
  | Some a => products = data a /\ n_samples = dim 0 y
  | None =>
      exists X1 X2 y2 w0 w1,
        atleast2d_or_csc X (copy_X && fit_intercept && negb (is_sparse X)) w0
          = (Ok X1, w1) /\
        (if is_sparse X1 then X2 = X1 /\ y2 = y
         else exists means w2,
                center_data X1 y fit_intercept normalize false w1
                  = (Ok (X2, y2, means), w2)) /\
        products = dot_T (values X2) (data y2) /\
        n_samples = dim 0 (values X2)
  end.

Lemma _alpha_grid_Ok X y Xy l1_ratio fit_intercept eps n_alphas normalize copy_X
    (w w' : world W) grid :
  _alpha_grid atleast2d_or_csc center_data X y Xy l1_ratio fit_intercept
    (Some eps) (Some n_alphas) normalize copy_X w = (Ok grid, w') ->
  exists products n_samples m,
    products_of X y Xy fit_intercept normalize copy_X products n_samples /\
    (forall x, In x products -> Rabs x <= m) /\
    (exists x, In x products /\ m = Rabs x) /\
    grid = rev (logspace (log10 (m / (INR n_samples * l1_ratio) * eps))
                         (log10 (m / (INR n_samples * l1_ratio))) n_alphas).
Proof.
  unfold _alpha_grid. intros H.
  bind_inv H. destruct a as [products n_samples].
  bind_inv H. rename a into m.
  apply abs_max_Ok in Hrun0. destruct Hrun0 as (-> & Hle & Hex).
  cbn [Py.lift Py.bind Py.ret] in H. inversion H; subst; clear H.
  exists products, n_samples, m.
  split; [|auto].
  unfold products_of. destruct Xy as [a|].
  - apply ret_Ok_inv in Hrun. destruct Hrun as [Hp _]. inversion Hp. auto.
  - bind_inv Hrun. rename a into X1. bind_inv Hrun. destruct a as [X2 y2].
    apply ret_Ok_inv in Hrun. destruct Hrun as [Hp _]. inversion Hp; subst.
    exists X1, X2, y2, w, w0. split; [exact Hrun0|]. split; [|auto].
    destruct (is_sparse X1); simpl in Hrun1.
    + apply ret_Ok_inv in Hrun1. destruct Hrun1 as [Hq _]. inversion Hq. auto.
    + bind_inv Hrun1. destruct a as [[X3 y3] means].
      apply ret_Ok_inv in Hrun1. destruct Hrun1 as [Hq _]. inversion Hq; subst.
      eauto.
Qed.

(** C4, amended.  The default grid has [n_alphas] values (none when
    [n_alphas <= 0]).  With [alpha_max = max_i |X_i . y| / (n_samples *
    l1_ratio)] positive and [eps] positive: for [n_alphas >= 2] the grid
    starts at [alpha_max], ends at [alpha_max * eps], consecutive values
    differ by the constant factor [eps ^ (1 / (n_alphas - 1))], and the grid
    is descending when [eps <= 1]; for [n_alphas = 1] its only value is
    [alpha_max * eps]. *)
Theorem alpha_grid_log_spaced
    X y Xy l1_ratio fit_intercept eps n_alphas normalize copy_X
    (w w' : world W) grid :
  _alpha_grid atleast2d_or_csc center_data X y Xy l1_ratio fit_intercept
    (Some eps) (Some n_alphas) normalize copy_X w = (Ok grid, w') ->
  exists products n_samples m,
    products_of X y Xy fit_intercept normalize copy_X products n_samples /\
    (forall x, In x products -> Rabs x <= m) /\
    (exists x, In x products /\ m = Rabs x) /\
    let alpha_max := m / (INR n_samples * l1_ratio) in
    List.length grid = Z.to_nat n_alphas /\
    (0 < alpha_max -> 0 < eps ->
     (n_alphas = 1%Z -> grid = [alpha_max * eps]) /\
     ((2 <= n_alphas)%Z ->
      nth 0 grid 0 = alpha_max /\
      nth (Z.to_nat n_alphas - 1) grid 0 = alpha_max * eps /\
      (forall k, (S k < Z.to_nat n_alphas)%nat ->
         nth (S k) grid 0 = nth k grid 0 * Rpower eps (/ IZR (n_alphas - 1))) /\
      (eps <= 1 ->
       forall k, (S k < Z.to_nat n_alphas)%nat -> nth (S k) grid 0 <= nth k grid 0))).
Proof.
  intros H. apply _alpha_grid_Ok in H.
  destruct H as (products & n_samples & m & Hsrc & Hle & Hex & ->).
  exists products, n_samples, m.
  split; [exact Hsrc|]. split; [exact Hle|]. split; [exact Hex|].
  intros alpha_max. fold alpha_max.
  split; [apply grid_length|].
  intros Ham Heps. split.
  - intros ->. apply grid_single; assumption.
  - intros Hn.
    assert (Hn0 : IZR (n_alphas - 1) <> 0) by (apply not_0_IZR; lia).
    assert (Hpos : 0 < IZR (n_alphas - 1)) by (apply IZR_lt; lia).
    assert (Hratio : forall k, (S k < Z.to_nat n_alphas)%nat ->
              nth (S k) (rev (logspace (log10 (alpha_max * eps)) (log10 alpha_max) n_alphas)) 0
              = nth k (rev (logspace (log10 (alpha_max * eps)) (log10 alpha_max) n_alphas)) 0
                * Rpower eps (/ IZR (n_alphas - 1))).
    { intros k Hk. rewrite !grid_closed_form by (assumption || lia).
      rewrite Rmult_assoc, <- Rpower_plus. f_equal. f_equal.
      rewrite S_INR. field. exact Hn0. }
    split; [|split; [|split]].
    + rewrite grid_closed_form by (assumption || lia).
      simpl. unfold Rdiv. rewrite Rmult_0_l, Rpower_O by exact Heps. lra.
    + rewrite grid_closed_form by (assumption || lia).
      replace (INR (Z.to_nat n_alphas - 1) / IZR (n_alphas - 1)) with 1.
      * rewrite Rpower_1 by exact Heps. reflexivity.
      * rewrite INR_IZR_INZ.
        replace (Z.of_nat (Z.to_nat n_alphas - 1)) with (n_alphas - 1)%Z by lia.
        field. exact Hn0.
    + exact Hratio.
    + intros Hle1 k Hk. rewrite Hratio by exact Hk.
      rewrite grid_closed_form by (assumption || lia).
      assert (Hr : Rpower eps (/ IZR (n_alphas - 1)) <= 1).
      { apply Rpower_le_1; [lra|]. left. apply Rinv_0_lt_compat, Hpos. }
      assert (Hx : 0 < alpha_max * Rpower eps (INR k / IZR (n_alphas - 1))).
      { apply Rmult_lt_0_compat; [exact Ham|]. unfold Rpower. apply exp_pos. }
      nra.
Qed.

(** With the products given ([Xy] is not [None]) the grid is determined. *)
Lemma _alpha_grid_precomputed X y (a : ndarray) x t l1_ratio fit_intercept eps
    n_alphas normalize copy_X (w : world W) :
  data a = x :: t ->
  let alpha_max := fold_left Rmax (map Rabs t) (Rabs x) / (INR (dim 0 y) * l1_ratio) in
  _alpha_grid atleast2d_or_csc center_data X y (Some a) l1_ratio fit_intercept
    (Some eps) (Some n_alphas) normalize copy_X w
  = (Ok (rev (logspace (log10 (alpha_max * eps)) (log10 alpha_max) n_alphas)), w).
Proof.
  intros Ha. unfold _alpha_grid. py_eval. rewrite Ha. reflexivity.
Qed.

End AlphaGridCall.

(** [X . y = [1]] on one sample with [l1_ratio = 1]: [alpha_max = 1]. *)
Lemma alpha_max_demo :
  (fold_left Rmax (map Rabs []) (Rabs 1)
   / (INR (CoordinateDescent.dim 0 Demo.y_one_R) * 1) = 1)%R.
Proof. simpl. rewrite Rabs_R1. field. Qed.

(** C4 as stated fails for [n_alphas = 1], where the only value is
    [alpha_max * eps] and not [alpha_max], and for [eps > 1], where the grid
    ascends: here [alpha_max = 1], and the grids are [[1/2]] for
    [eps = 1/2], [n_alphas = 1] and [[1; 2]] for [eps = 2], [n_alphas = 2]. *)
Lemma alpha_grid_counterexample :
  (CoordinateDescent._alpha_grid Demo.keep_design Demo.keep_centred
     Demo.X_one Demo.y_one_R (Some Demo.y_one_R) 1 true (Some (1 / 2)%R)
     (Some 1%Z) false true (World [] tt)
   = (Ok [(1 / 2)%R], World [] tt)) /\
  (exists first second,
     CoordinateDescent._alpha_grid Demo.keep_design Demo.keep_centred
       Demo.X_one Demo.y_one_R (Some Demo.y_one_R) 1 true (Some 2%R)
       (Some 2%Z) false true (World [] tt)
     = (Ok [first; second], World [] tt) /\
     (first < second)%R).
Proof.
  split.
  - rewrite (@_alpha_grid_precomputed unit unit Demo.keep_design Demo.keep_centred
               Demo.X_one Demo.y_one_R Demo.y_one_R 1%R [])
      by reflexivity.
    rewrite alpha_max_demo.
    rewrite grid_single by lra. do 3 f_equal. lra.
  - eexists. eexists. split.
    + rewrite (@_alpha_grid_precomputed unit unit Demo.keep_design Demo.keep_centred
                 Demo.X_one Demo.y_one_R Demo.y_one_R 1%R [])
        by reflexivity.
      rewrite alpha_max_demo. reflexivity.
    + unfold CoordinateDescent.logspace, CoordinateDescent.linspace. simpl.
      rewrite Rmult_0_l, Rplus_0_l, Rmult_1_l.
      rewrite !power10_log10 by lra. lra.
Qed.

(** Three alphas between 1/2 and [alpha_max = 1]. *)
Lemma alpha_grid_log_spaced_witness :
  exists grid,
    CoordinateDescent._alpha_grid Demo.keep_design Demo.keep_centred
      Demo.X_one Demo.y_one_R (Some Demo.y_one_R) 1 true (Some (1 / 2)%R)
      (Some 3%Z) false true (World [] tt)
    = (Ok grid, World [] tt) /\
    List.length grid = 3%nat /\
    (nth 0 grid 0 = 1 /\ nth 2 grid 0 = 1 / 2 /\
     nth 1 grid 0 <= nth 0 grid 0 /\ nth 2 grid 0 <= nth 1 grid 0)%R.
Proof.
  eexists.
  assert (Hrun := @_alpha_grid_precomputed unit unit Demo.keep_design
                    Demo.keep_centred Demo.X_one Demo.y_one_R Demo.y_one_R
                    1%R [] 1%R true (1 / 2)%R 3%Z false true (World [] tt)
                    eq_refl).
  cbv zeta in Hrun.
  split; [exact Hrun|].
  destruct (@alpha_grid_log_spaced _ _ _ _ _ _ _ _ _ _ _ _ _ _ _ _ Hrun)
    as (products & n_samples & m & Hsrc & Hle & Hex & Hlen & Hgrid).
  split; [exact Hlen|].
  destruct Hsrc as [-> ->].
  assert (Hm : m = 1%R).
  { destruct Hex as (x & [<-|[]] & ->). apply Rabs_R1. }
  subst m.
  assert (Hmax : (1 / (INR (CoordinateDescent.dim 0 Demo.y_one_R) * 1) = 1)%R)
    by (simpl; field).
  rewrite Hmax in Hgrid.
  destruct Hgrid as (_ & Hmany); [lra | lra |].
  destruct Hmany as (Hfirst & Hlast & _ & Hdesc); [lia|].
  split; [exact Hfirst|].
  split; [etransitivity; [exact Hlast | lra]|].
  split; apply Hdesc; try lra; simpl; lia.
Defined.

(* ================================================================== *)
(** ** coordinate_descent.py: the path *)

Section PathFacts.

Import CoordinateDescent.
Local Open Scope R_scope.
Variable W : Type.
Variables Gram Means : Type.
Variable atleast2d_or_csc : design -> bool -> M W design.
Variable array2d : design -> bool -> M W design.
Variable center_data :
  design -> ndarray -> bool -> bool -> bool -> M W (design * ndarray * Means).
Variable _pre_fit :
  design -> ndarray -> option ndarray -> Gram -> bool -> bool -> bool ->
  M W (design * ndarray * Means * Gram * option ndarray).
Variable X_mean_of : Means -> list R.
Variable X_std_of : Means -> list R.
Variable enet_coordinate_descent :
  list R -> R -> R -> design -> list R -> Z -> R -> bool -> M W (list R * R * R).
Variable sparse_enet_coordinate_descent :
  list R -> R -> R -> design -> list R -> list R -> Z -> R -> bool ->
  M W (list R * R * R).
Variable enet_coordinate_descent_multi_task :
  ndarray -> R -> R -> design -> ndarray -> Z -> R -> M W (ndarray * R * R).
Variable Intercept : Type.
Variable _set_intercept : ndarray -> Means -> M W Intercept.
Variable uninitialised : nat -> R.

Local Abbreviation path_step := (path_step enet_coordinate_descent
                         sparse_enet_coordinate_descent _set_intercept).
Local Abbreviation path_loop := (path_loop enet_coordinate_descent
                         sparse_enet_coordinate_descent _set_intercept).
Local Abbreviation enet_path := (enet_path atleast2d_or_csc center_data _pre_fit
                         enet_coordinate_descent sparse_enet_coordinate_descent
                         _set_intercept uninitialised).

Lemma set_nth_length {A} (i : nat) (v : A) (l : list A) :
  List.length (set_nth i v l) = List.length l.
Proof.
  revert i. induction l as [|x t IH]; intros [|i]; simpl; auto.
Qed.

Lemma set_nth_other {A} (i j : nat) (v d : A) (l : list A) :
  i <> j -> nth j (set_nth i v l) d = nth j l d.
Proof.
  revert i j. induction l as [|x t IH]; intros [|i] [|j] H; simpl; auto.
  contradiction.
Qed.

Lemma set_nth_same {A} (i : nat) (v d : A) (l : list A) :
  (i < List.length l)%nat -> nth i (set_nth i v l) d = v.
Proof.
  revert i. induction l as [|x t IH]; intros [|i] H; simpl in *; try lia; auto.
  apply IH. lia.
Qed.

(** One iteration under [return_models=True]: the model appended for this
    alpha reads its dual gap from the last slot of [dual_gaps]. *)
Lemma path_step_models X y l1_ratio n_samples scaling means (gram : Gram)
    fit_intercept verbose max_iter tol positive n_alphas i alpha
    (s s1 : path_state Gram Intercept) (w w1 : world W) :
  path_step X y l1_ratio n_samples scaling means gram fit_intercept verbose
    true max_iter tol positive n_alphas i alpha s w = (Ok s1, w1) ->
  exists coef gap model,
    s_dual_gaps s1 = set_nth i gap (s_dual_gaps s) /\
    s_coefs s1 = set_nth i coef (s_coefs s) /\
    s_models s1 = s_models s ++ [model] /\
    m_alpha model = alpha /\
    m_coef_ model = nth i (set_nth i coef (s_coefs s)) [] /\
    m_dual_gap_ model = nth (n_alphas - 1) (set_nth i gap (s_dual_gaps s)) 0.
Proof.
  unfold CoordinateDescent.path_step. intros H.
  run_inv; do 3 eexists; repeat split; reflexivity.
Qed.

(** Up to iteration [i] every model but the last one of the path carries
    the value [u] that the last slot of [dual_gaps] held before the loop. *)
Definition models_stale (n_alphas : nat) (u : R) (i : nat)
    (s : path_state Gram Intercept) : Prop :=
  List.length (s_models s) = i /\
  List.length (s_dual_gaps s) = n_alphas /\
  ((i < n_alphas)%nat -> nth (n_alphas - 1) (s_dual_gaps s) 0 = u) /\
  (forall k m, (S k < n_alphas)%nat ->
     nth_error (s_models s) k = Some m -> m_dual_gap_ m = u).

Lemma path_loop_models X y l1_ratio n_samples scaling means (gram : Gram)
    fit_intercept verbose max_iter tol positive n_alphas u alphas :
  forall i (s s' : path_state Gram Intercept) (w w' : world W),
    path_loop X y l1_ratio n_samples scaling means gram fit_intercept verbose
      true max_iter tol positive n_alphas i alphas s w = (Ok s', w') ->
    (i + List.length alphas)%nat = n_alphas ->
    models_stale n_alphas u i s ->
    models_stale n_alphas u n_alphas s'.
Proof.
  induction alphas as [|alpha rest IH]; intros i s s' w w' H Hn Hinv; simpl in *.
  - apply ret_Ok_inv in H. destruct H as [<- _].
    assert (i = n_alphas) by lia. subst i. exact Hinv.
  - bind_inv H. rename a into s1.
    apply path_step_models in Hrun.
    destruct Hrun as (coef & gap & model & Hg & _ & Hm & _ & _ & Hmg).
    refine (IH (S i) s1 s' _ _ H _ _); [lia|].
    destruct Hinv as (Hlen & Hglen & Hslot & Hold).
    unfold models_stale. rewrite Hg, Hm, set_nth_length, length_app. simpl.
    split; [lia|]. split; [exact Hglen|]. split.
    + intros Hi. rewrite set_nth_other by lia. apply Hslot. lia.
    + intros k m Hk Hnth.
      destruct (Nat.lt_ge_cases k i) as [Hlt|Hge].
      * rewrite nth_error_app1 in Hnth by lia. eapply Hold; eassumption.
      * rewrite nth_error_app2 in Hnth by lia.
        assert (k = i) as ->.
        { assert (Hs : nth_error [model] (k - List.length (s_models s)) <> None)
            by (rewrite Hnth; discriminate).
          apply nth_error_Some in Hs. simpl in Hs. lia. }
        rewrite Hlen, Nat.sub_diag in Hnth. simpl in Hnth.
        inversion Hnth; subst m.
        rewrite Hmg, set_nth_other by lia. apply Hslot. lia.
Qed.

Lemma insert_desc_length (x : R) (l : list R) :
  List.length (insert_desc x l) = S (List.length l).
Proof.
  induction l as [|y t IH]; simpl; [reflexivity|].
  destruct (Rle_dec y x); simpl; [reflexivity | rewrite IH; reflexivity].
Qed.

Lemma sort_desc_length (l : list R) : List.length (sort_desc l) = List.length l.
Proof.
  induction l as [|x t IH]; simpl; [reflexivity|].
  rewrite insert_desc_length, IH. reflexivity.
Qed.

(** C3.  Under [return_models=True] the dual gap is not reported per alpha:
    line 436 reads [dual_gaps[-1]], so every model of the path but the last
    carries whatever the last slot of the fresh [np.empty] array held,
    independently of the gap that the solver returned for its alpha. *)
Theorem enet_path_models_dual_gap
    X y l1_ratio eps n_alphas alphas (gram : Gram) Xy fit_intercept normalize
    copy_X coef_init verbose params (w w' : world W) models :
  enet_path X y l1_ratio eps n_alphas (Some alphas) gram Xy fit_intercept
    normalize copy_X coef_init verbose true params w = (Ok (Models models), w') ->
  List.length models = List.length alphas /\
  forall i m,
    (S i < List.length alphas)%nat ->
    nth_error models i = Some m ->
    m_dual_gap_ m = uninitialised (List.length alphas - 1).
Proof.
  unfold CoordinateDescent.enet_path. intros H.
  bind_inv H. bind_inv H. bind_inv H. bind_inv H. bind_inv H.
  bind_inv H. destruct a4 as [[[[X' y'] means] gram'] Xy'].
  bind_inv H. apply ret_Ok_inv in Hrun5. destruct Hrun5 as [<- ->].
  bind_inv H. rename a4 into s'.
  apply ret_Ok_inv in H. destruct H as [Hm _]. inversion Hm; subst models.
  rewrite <- (sort_desc_length alphas).
  set (n := List.length (sort_desc alphas)) in *.
  eapply path_loop_models with (u := uninitialised (n - 1)) in Hrun5.
  - destruct Hrun5 as (Hlen & _ & _ & Hold). split; [exact Hlen | exact Hold].
  - reflexivity.
  - unfold models_stale, np_empty. simpl.
    rewrite length_map, length_seq.
    split; [reflexivity|]. split; [reflexivity|]. split.
    + intros Hn.
      rewrite (nth_map_lt _ _ 0%nat) by (rewrite length_seq; lia).
      rewrite seq_nth by lia. reflexivity.
    + intros k m _ Hnth. destruct k; discriminate Hnth.
Qed.

(** What the specification describes does hold for one solve in the default mode
    ([return_models=False], [verbose <= 2]) on dense data: when the solver
    ends above its threshold, the iteration does not raise, issues the
    warning and stores the coefficients and the dual gap of this alpha. *)
Lemma path_step_non_convergence X y l1_ratio n_samples scaling means (gram : Gram)
    fit_intercept verbose max_iter tol positive n_alphas i alpha
    (s : path_state Gram Intercept) (w w1 : world W) coef gap threshold :
  is_sparse X = false ->
  (verbose <= 2)%Z ->
  enet_coordinate_descent (s_coef_ s) (alpha * l1_ratio * INR n_samples)
    (alpha * (1 - l1_ratio) * INR n_samples) X (data y) max_iter tol positive w
    = (Ok (coef, gap, threshold), w1) ->
  gap > threshold ->
  path_step X y l1_ratio n_samples scaling means gram fit_intercept verbose
    false max_iter tol positive n_alphas i alpha s w
  = (Ok (PathState coef (set_nth i coef (s_coefs s))
           (set_nth i gap (s_dual_gaps s)) (s_models s) (s_model s)),
     World (warnings w1 ++ [did_not_converge]) (ext w1)).
Proof.
  intros Hdense Hverbose Hsolve Hgap.
  unfold CoordinateDescent.path_step. rewrite Hdense.
  rewrite (bind_Ok _ _ _ Hsolve).
  destruct (Rgt_dec gap threshold) as [_|Hn]; [|contradiction].
  unfold Py.bind at 1. unfold Py.warn at 1. py_eval.
  destruct (Z.eqb_spec verbose 0); py_eval; [reflexivity|].
  destruct (Z.ltb_spec 2 verbose); [lia|]. reflexivity.
Qed.

(** With [verbose > 2] and [return_models=False] the iteration raises on
    [print(model)]: [model] is only assigned under [return_models=True]. *)
Lemma path_step_verbose_unbound_model X y l1_ratio n_samples scaling means
    (gram : Gram) fit_intercept verbose max_iter tol positive n_alphas i alpha
    (s : path_state Gram Intercept) (w w1 : world W) coef gap threshold :
  is_sparse X = false ->
  (2 < verbose)%Z ->
  s_model s = None ->
  enet_coordinate_descent (s_coef_ s) (alpha * l1_ratio * INR n_samples)
    (alpha * (1 - l1_ratio) * INR n_samples) X (data y) max_iter tol positive w
    = (Ok (coef, gap, threshold), w1) ->
  gap <= threshold ->
  path_step X y l1_ratio n_samples scaling means gram fit_intercept verbose
    false max_iter tol positive n_alphas i alpha s w
  = (Raise (UnboundLocalError "model"), w1).
Proof.
  intros Hdense Hverbose Hmodel Hsolve Hgap.
  unfold CoordinateDescent.path_step. rewrite Hdense.
  rewrite (bind_Ok _ _ _ Hsolve).
  destruct (Rgt_dec gap threshold) as [Hn|_]; [lra|].
  py_eval. rewrite Hmodel.
  destruct (Z.eqb_spec verbose 0); [lia|]. py_eval.
  destruct (Z.ltb_spec 2 verbose); [|lia]. reflexivity.
Qed.

(** [MultiTaskElasticNet.fit] behaves as specified: a solve that ends
    above its threshold is followed by the warning, and the estimator keeps
    the coefficients and the dual gap. *)
Lemma multi_task_fit_non_convergence
    (self self' : MultiTaskElasticNet Intercept) X y (w w' : world W) :
  multi_task_fit array2d center_data enet_coordinate_descent_multi_task
    _set_intercept self X y w = (Ok self', w') ->
  exists coef gap threshold w1,
    mt_dual_gap_ self' = Some gap /\
    mt_eps_ self' = Some threshold /\
    mt_coef_ self' = Some (if (ndim y =? 1)%nat then squeeze coef else coef) /\
    (gap > threshold ->
     w' = World (warnings w1 ++ [multi_task_did_not_converge]) (ext w1)).
Proof.
  unfold multi_task_fit. intros H.
  bind_inv H. bind_inv H. destruct a0 as [n_samples n_features].
  bind_inv H. destruct a0 as [n0 n_tasks].
  bind_inv H. destruct a0 as [[X' y'] means].
  bind_inv H. destruct a0 as [[coef gap] threshold].
  bind_inv H. bind_inv H.
  apply ret_Ok_inv in H. destruct H as [<- ->]. simpl.
  exists coef, gap, threshold, w5.
  repeat split.
  intros Hgap. destruct (Rgt_dec gap threshold) as [_|Hn]; [|contradiction].
  unfold Py.warn in Hrun5. inversion Hrun5. reflexivity.
Qed.

Local Abbreviation lasso_path :=
  (lasso_path atleast2d_or_csc center_data _pre_fit enet_coordinate_descent
     sparse_enet_coordinate_descent _set_intercept uninitialised).
Local Abbreviation fit :=
  (fit atleast2d_or_csc center_data _pre_fit X_mean_of X_std_of
     enet_coordinate_descent sparse_enet_coordinate_descent _set_intercept
     uninitialised).

(** C9.  [lasso_path] is [enet_path] at [l1_ratio = 1] with the other
    arguments passed on unchanged; this also holds between the two
    functions called with their own defaults, although those differ
    ([fit_intercept=None, normalize=None] against [True, False]); a [Lasso]
    is the [ElasticNet] built with [l1_ratio = 1.0], so that fitting either
    gives the same outcome, coefficients included. *)
Theorem lasso_is_elastic_net_at_unit_l1_ratio :
  (forall X y eps n_alphas alphas (precompute : Gram) Xy fit_intercept normalize
          copy_X coef_init verbose return_models params,
     lasso_path X y eps n_alphas alphas precompute Xy fit_intercept normalize
       copy_X coef_init verbose return_models params
     = enet_path X y 1 eps n_alphas alphas precompute Xy fit_intercept normalize
         copy_X coef_init verbose return_models params) /\
  (forall X y (auto : Gram),
     lasso_path X y (Some (1 / 1000)) (Some 100%Z) None auto None None None
       true None 0 false no_params
     = enet_path X y 1 (Some (1 / 1000)) (Some 100%Z) None auto None
         (Some true) (Some false) true None 0 false no_params) /\
  (forall alpha fit_intercept normalize (precompute : Gram) copy_X max_iter tol
          warm_start positive,
     Lasso_init Intercept alpha fit_intercept normalize precompute
       copy_X max_iter tol warm_start positive
     = ElasticNet_init Intercept alpha 1 fit_intercept normalize precompute
         max_iter copy_X tol warm_start positive) /\
  (forall alpha fit_intercept normalize (precompute : Gram) copy_X max_iter tol
          warm_start positive X y (w : world W),
     fit (Lasso_init Intercept alpha fit_intercept normalize precompute copy_X max_iter
            tol warm_start positive) X y w
     = fit (ElasticNet_init Intercept alpha 1 fit_intercept normalize precompute max_iter
              copy_X tol warm_start positive) X y w /\
     l1_ratio (Lasso_init Intercept alpha fit_intercept normalize
                 precompute copy_X max_iter tol warm_start positive) = 1).
Proof.
  split; [|split; [|split]].
  - intros. reflexivity.
  - intros. reflexivity.
  - intros. reflexivity.
  - intros. split; reflexivity.
Qed.

End PathFacts.

(** Evaluates the comparisons of reals that decide a run on concrete data. *)
Ltac decide_reals :=
  repeat match goal with
         | |- context [Rle_dec ?a ?b] =>
             destruct (Rle_dec a b); [|exfalso; lra]
         | |- context [Rgt_dec ?a ?b] =>
             destruct (Rgt_dec a b); [|exfalso; lra]
         end.
Ltac run_path :=
  repeat (unfold CoordinateDescent.enet_path, CoordinateDescent.path_step,
            Demo.stalled, Demo.stalled_sparse, Demo.no_intercept,
            Demo.keep_design, Demo.keep_centred, Demo.keep_pre_fit,
            Py.bind, Py.ret, Py.warn;
          cbn -[Rle_dec Rgt_dec Rmult Rminus Rdiv INR]; decide_reals).

(** Two alphas and a solver that stalls with the dual gap 1: the model of
    the first alpha reports the stale contents of [dual_gaps[-1]]. *)
Lemma enet_path_models_dual_gap_witness :
  exists m0 m1 w',
    CoordinateDescent.enet_path Demo.keep_design Demo.keep_centred
      Demo.keep_pre_fit Demo.stalled Demo.stalled_sparse Demo.no_intercept
      Demo.stale_memory Demo.X_one Demo.y_one_R 1 None None (Some [2; 1]%R) tt
      None (Some false) (Some false) true None 0 true
      CoordinateDescent.no_params (World [] tt)
    = (Ok (CoordinateDescent.Models [m0; m1]), w') /\
    CoordinateDescent.m_dual_gap_ m0 = (-1)%R /\
    CoordinateDescent.m_dual_gap_ m1 = 1%R.
Proof.
  do 3 eexists.
  match goal with |- ?run /\ _ => assert (Hrun : run) end.
  { run_path. reflexivity. }
  split; [exact Hrun|]. split; [|reflexivity].
  pose proof Hrun as Hgap. apply enet_path_models_dual_gap in Hgap.
  destruct Hgap as [_ Hgap].
  apply (Hgap 0%nat); [apply Nat.lt_succ_diag_r | reflexivity].
Defined.

(* ================================================================== *)
(** ** stochastic_gradient.py: the iteration counter *)

Section SGDFacts.

Import Np SGD.
Local Open Scope Q_scope.
Local Open Scope string_scope.

Variable dloss : loss_function -> Q -> Q -> Q.
Variable plain_sgd : sgd_call -> result (list Q * Q).
Variable np_sqrt : Q -> Q.
Variable atleast2d_or_csr : samples -> result samples.
Variable column_or_1d : samples -> result samples.
Variable _check_partial_fit_first_call :
  option (list Z) -> option (list Z) -> result (list Z).
Variable compute_class_weight :
  option (list (Z * Q)) -> list Z -> list nat -> result (list Q).
Variable np_unique : list Z -> list Z.
Variable np_searchsorted : list Z -> list Z -> list nat.

Lemma self_Ok_inv (w w' : world estimator) e :
  self_ w = (Ok e, w') -> e = ext w /\ w' = w.
Proof. unfold self_. intros H. inversion H. split; reflexivity. Qed.

Lemma assign_Ok_inv f (w w' : world estimator) u :
  assign f w = (Ok u, w') -> w' = World (warnings w) (f (ext w)).
Proof. unfold assign. intros H. inversion H. reflexivity. Qed.

Lemma warn_Ok_inv {W} x (w w' : world W) u :
  Py.warn x w = (Ok u, w') -> w' = World (warnings w ++ [x]) (ext w).
Proof. unfold Py.warn. intros H. inversion H. reflexivity. Qed.

(** The part of the estimator that the learning-rate schedule reads. *)
Definition same_schedule (e e' : estimator) : Prop :=
  t_ e' = t_ e /\ alpha e' = alpha e /\ learning_rate e' = learning_rate e
  /\ epsilon e' = epsilon e.

Definition keeps_schedule {A} (m : Method A) : Prop :=
  forall w a w', m w = (Ok a, w') -> same_schedule (ext w) (ext w').

Lemma same_schedule_refl e : same_schedule e e.
Proof. repeat split. Qed.

Lemma same_schedule_trans e1 e2 e3 :
  same_schedule e1 e2 -> same_schedule e2 e3 -> same_schedule e1 e3.
Proof.
  unfold same_schedule. intros (A1 & A2 & A3 & A4) (B1 & B2 & B3 & B4).
  repeat split; congruence.
Qed.

Lemma keeps_bind {A B} (m : Method A) (k : A -> Method B) :
  keeps_schedule m -> (forall a, keeps_schedule (k a)) ->
  keeps_schedule (Py.bind m k).
Proof.
  intros Hm Hk w b w' H. bind_inv H.
  eapply same_schedule_trans; [eapply Hm | eapply Hk]; eassumption.
Qed.

Lemma keeps_ret {A} (a : A) : keeps_schedule (Py.ret a).
Proof.
  intros w x w' H. apply ret_Ok_inv in H. destruct H as [_ ->].
  apply same_schedule_refl.
Qed.

Lemma keeps_raise {A} e : keeps_schedule (@Py.raise estimator A e).
Proof. intros w x w' H. apply raise_Ok_inv in H. contradiction. Qed.

Lemma keeps_lift {A} (r : result A) : keeps_schedule (Py.lift r).
Proof.
  intros w x w' H. apply lift_Ok_inv in H. destruct H as [_ ->].
  apply same_schedule_refl.
Qed.

Lemma keeps_self : keeps_schedule self_.
Proof.
  intros w x w' H. apply self_Ok_inv in H. destruct H as [_ ->].
  apply same_schedule_refl.
Qed.

Lemma keeps_assign f :
  (forall e, same_schedule e (f e)) -> keeps_schedule (assign f).
Proof.
  intros Hf w x w' H. apply assign_Ok_inv in H. subst w'. simpl. apply Hf.
Qed.

Lemma keeps_attribute {A} name (v : option A) : keeps_schedule (attribute name v).
Proof. destruct v; [apply keeps_ret | apply keeps_raise]. Qed.

Lemma keeps_mapM {A B} (f : A -> Method B) (l : list A) :
  (forall a, keeps_schedule (f a)) -> keeps_schedule (Py.mapM f l).
Proof.
  intros Hf. induction l as [|a t IH]; simpl.
  - apply keeps_ret.
  - apply keeps_bind; [apply Hf|]. intros b.
    apply keeps_bind; [exact IH|]. intros bs. apply keeps_ret.
Qed.

(** Closes [keeps_schedule] goals by following the structure of a method. *)
Ltac keeps :=
  repeat first
    [ apply keeps_ret | apply keeps_raise | apply keeps_lift | apply keeps_self
    | apply keeps_attribute
    | apply keeps_assign; intros ?; repeat split
    | apply keeps_bind; [|intros ?]
    | apply keeps_mapM; intros ?
    | match goal with
      | |- keeps_schedule (if ?c then _ else _) => destruct c
      | |- keeps_schedule (match ?x with _ => _ end) => destruct x
      end ].

Lemma keeps__get_penalty_type p : keeps_schedule (_get_penalty_type p).
Proof. unfold _get_penalty_type. keeps. Qed.

Lemma keeps__get_learning_rate_type r : keeps_schedule (_get_learning_rate_type r).
Proof. unfold _get_learning_rate_type. keeps. Qed.

Lemma keeps__validate_params : keeps_schedule _validate_params.
Proof.
  unfold _validate_params. keeps.
  - apply keeps__get_penalty_type.
  - apply keeps__get_learning_rate_type.
Qed.

Lemma keeps__check_fit_data X : keeps_schedule (_check_fit_data X).
Proof. unfold _check_fit_data. keeps. Qed.

Lemma keeps__validate_sample_weight sw n :
  keeps_schedule (_validate_sample_weight sw n).
Proof. unfold _validate_sample_weight. keeps. Qed.

Lemma keeps__allocate_parameter_mem n_classes n_features ci ii :
  keeps_schedule (_allocate_parameter_mem n_classes n_features ci ii).
Proof. unfold _allocate_parameter_mem. keeps. Qed.

Lemma keeps__get_loss_function l : keeps_schedule (_get_loss_function l).
Proof. unfold _get_loss_function. keeps. Qed.

Lemma keeps_weight_at i : keeps_schedule (weight_at i).
Proof. unfold weight_at. keeps. Qed.

Lemma keeps_fit_binary i X a C lr n pw nw sw :
  keeps_schedule (fit_binary plain_sgd i X a C lr n pw nw sw).
Proof.
  unfold fit_binary. keeps.
  - apply keeps__get_penalty_type.
  - apply keeps__get_learning_rate_type.
Qed.

Lemma keeps__fit_binary X a C sw lr n :
  keeps_schedule (_fit_binary plain_sgd X a C sw lr n).
Proof.
  unfold _fit_binary. keeps.
  - apply keeps__get_penalty_type.
  - apply keeps__get_learning_rate_type.
Qed.

Lemma keeps__fit_multiclass X a C lr sw n :
  keeps_schedule (_fit_multiclass plain_sgd X a C lr sw n).
Proof.
  unfold _fit_multiclass. keeps.
  - apply keeps__get_penalty_type.
  - apply keeps__get_learning_rate_type.
Qed.

(** The loss object that [_get_loss_function] builds for a loss name. *)
Definition selected_loss (eps : Q) (loss : string) : option loss_function :=
  match lookup loss loss_functions with
  | Some (loss_class, args) =>
      Some (loss_class,
            if (loss =? "huber") || (loss =? "epsilon_insensitive")
               || (loss =? "squared_epsilon_insensitive")
            then [eps] else args)
  | None => None
  end.

Lemma _get_loss_function_Ok l (w w' : world estimator) lf :
  _get_loss_function l w = (Ok lf, w') ->
  selected_loss (epsilon (ext w)) l = Some lf /\ w' = w.
Proof.
  unfold _get_loss_function, selected_loss. intros H. bind_inv H.
  apply self_Ok_inv in Hrun. destruct Hrun as [-> ->].
  destruct (lookup l loss_functions) as [[c args]|].
  - apply ret_Ok_inv in H. destruct H as [<- ->]. split; reflexivity.
  - apply raise_Ok_inv in H. contradiction.
Qed.


Lemma initial_t_reads e e' lf :
  alpha e' = alpha e -> learning_rate e' = learning_rate e ->
  initial_t dloss np_sqrt e' lf = initial_t dloss np_sqrt e lf.
Proof. intros Ha Hl. unfold initial_t. rewrite Ha, Hl. reflexivity. Qed.

Lemma initial_t_same e e' lf :
  same_schedule e e' ->
  initial_t dloss np_sqrt e' lf = initial_t dloss np_sqrt e lf.
Proof. intros (_ & Ha & Hl & _). apply initial_t_reads; assumption. Qed.

Lemma _init_t_Ok lf (w w' : world estimator) u :
  _init_t dloss np_sqrt lf w = (Ok u, w') ->
  t_ (ext w') = Some (initial_t dloss np_sqrt (ext w) lf).
Proof.
  unfold _init_t. intros H. bind_inv H.
  apply self_Ok_inv in Hrun. destruct Hrun as [-> ->].
  apply assign_Ok_inv in H. subst w'. reflexivity.
Qed.

(** The counter with which training starts. *)
Definition starting_t (e : estimator) (lf : loss_function) : Q :=
  match t_ e with
  | None => initial_t dloss np_sqrt e lf
  | Some t => t
  end.

Lemma _partial_fit_Ok X a C l lr n cl sw ci ii (w w' : world estimator) u :
  _partial_fit dloss plain_sgd np_sqrt atleast2d_or_csr column_or_1d
    _check_partial_fit_first_call compute_class_weight np_searchsorted
    X a C l lr n cl sw ci ii w = (Ok u, w') ->
  exists X1 X2 lf,
    atleast2d_or_csr X = Ok X1 /\ column_or_1d X1 = Ok X2 /\
    selected_loss (epsilon (ext w)) l = Some lf /\
    t_ (ext w') = Some (starting_t (ext w) lf
                        + inject_Z (n * Z.of_nat (dim 0 (values X2)))).
Proof.
  unfold _partial_fit. intros H.
  bind_as H X1 wa HX1. apply lift_Ok_inv in HX1. destruct HX1 as [HX1 ->].
  bind_as H X2 wb HX2. apply lift_Ok_inv in HX2. destruct HX2 as [HX2 ->].
  exists X1, X2.
  bind_as H u1 w1 K1. apply keeps__check_fit_data in K1.
  bind_as H u2 w2 K2. apply keeps__validate_params in K2.
  bind_as H e2 wc He2. apply self_Ok_inv in He2. destruct He2 as [-> ->].
  bind_as H known wd Hknown. apply lift_Ok_inv in Hknown.
  destruct Hknown as [Hknown ->].
  bind_as H u3 w3 K3. apply keeps_assign in K3; [|intros ?; repeat split].
  bind_as H e3 we He3. apply self_Ok_inv in He3. destruct He3 as [-> ->].
  bind_as H cw wf Hcw. apply lift_Ok_inv in Hcw. destruct Hcw as [Hcw ->].
  bind_as H u4 w4 K4. apply keeps_assign in K4; [|intros ?; repeat split].
  bind_as H sw' w5 K5. apply keeps__validate_sample_weight in K5.
  bind_as H e5 wg He5. apply self_Ok_inv in He5. destruct He5 as [-> ->].
  bind_as H u6 w6 K6.
  assert (K6' : same_schedule (ext w5) (ext w6)).
  { destruct (coef_ (ext w5)), ci;
      first [ apply ret_Ok_inv in K6; destruct K6 as [_ ->];
              apply same_schedule_refl
            | eapply keeps__allocate_parameter_mem; eassumption ]. }
  clear K6.
  bind_as H lf wh Hlf. apply _get_loss_function_Ok in Hlf.
  destruct Hlf as [Hlf ->].
  assert (K06 : same_schedule (ext w) (ext w6)).
  { repeat (eapply same_schedule_trans; [eassumption|]).
    apply same_schedule_refl. }
  destruct K06 as (_ & _ & _ & Ke). rewrite Ke in Hlf. clear Ke.
  exists lf.
  bind_as H u7 w7 K7. apply keeps_assign in K7; [|intros ?; repeat split].
  bind_as H e7 wi He7. apply self_Ok_inv in He7. destruct He7 as [-> ->].
  assert (K : same_schedule (ext w) (ext w7)).
  { repeat (eapply same_schedule_trans; [eassumption|]).
    apply same_schedule_refl. }
  clear K1 K2 K3 K4 K5 K6' K7.
  bind_as H u8 w8 Hinit.
  assert (Hstart : t_ (ext w8) = Some (starting_t (ext w) lf)).
  { unfold starting_t. destruct K as (Kt & Krest).
    rewrite <- Kt. destruct (t_ (ext w7)) as [t|] eqn:Et.
    - apply ret_Ok_inv in Hinit. destruct Hinit as [_ ->]. exact Et.
    - apply _init_t_Ok in Hinit. rewrite Hinit. f_equal.
      apply initial_t_same. split; [congruence | exact Krest]. }
  bind_as H u9 w9 Htrain.
  assert (K9 : same_schedule (ext w8) (ext w9)).
  { destruct (2 <? List.length known)%nat.
    - eapply keeps__fit_multiclass; eassumption.
    - destruct (List.length known =? 2)%nat.
      + eapply keeps__fit_binary; eassumption.
      + apply raise_Ok_inv in Htrain. contradiction. }
  bind_as H e9 wj He9. apply self_Ok_inv in He9. destruct He9 as [-> ->].
  bind_as H t wk Ht.
  destruct K9 as (K9 & _). rewrite Hstart in K9. rewrite K9 in Ht.
  apply ret_Ok_inv in Ht. destruct Ht as [<- ->].
  apply assign_Ok_inv in H. subst w'. simpl.
  repeat split; assumption.
Qed.




End SGDFacts.



(* ================================================================== *)
(** * Further properties of the modelled code *)

Unset Implicit Arguments.

(** ** learning_curve.py: the translation of the training sizes *)

Section TrainSizes.

Import LearningCurve.
Local Open Scope Z_scope.

Lemma fold_min_le (t : list Z) (x : Z) :
  fold_left Z.min t x <= x /\ Forall (fun y => fold_left Z.min t x <= y) t.
Proof.
  revert x. induction t as [|y t IH]; intros x; simpl.
  - split; [lia | constructor].
  - destruct (IH (Z.min x y)) as [H1 H2]. split; [lia|].
    constructor; [lia | exact H2].
Qed.

Lemma fold_max_ge (t : list Z) (x : Z) :
  x <= fold_left Z.max t x /\ Forall (fun y => y <= fold_left Z.max t x) t.
Proof.
  revert x. induction t as [|y t IH]; intros x; simpl.
  - split; [lia | constructor].
  - destruct (IH (Z.max x y)) as [H1 H2]. split; [lia|].
    constructor; [lia | exact H2].
Qed.

Lemma fold_min_In (t : list Z) (x : Z) : In (fold_left Z.min t x) (x :: t).
Proof.
  revert x. induction t as [|y t IH]; intros x; simpl; [left; reflexivity|].
  destruct (IH (Z.min x y)) as [H|H]; [|right; right; exact H].
  destruct (Z.min_spec x y) as [[_ E]|[_ E]]; [left | right; left]; congruence.
Qed.

Lemma fold_max_In (t : list Z) (x : Z) : In (fold_left Z.max t x) (x :: t).
Proof.
  revert x. induction t as [|y t IH]; intros x; simpl; [left; reflexivity|].
  destruct (IH (Z.max x y)) as [H|H]; [|right; right; exact H].
  destruct (Z.max_spec x y) as [[_ E]|[_ E]]; [right; left | left]; congruence.
Qed.

(** An ascending list is its own [np.unique]. *)
Lemma np_unique_ascending_id (l : list Z) : ascending l -> np_unique l = l.
Proof.
  induction 1 as [|x t Hs IH Hall]; simpl; [reflexivity|].
  rewrite IH. destruct t as [|y t']; [reflexivity|]. simpl.
  inversion Hall as [|? ? Hxy _]; subst.
  destruct (Z.ltb_spec x y); [reflexivity | lia].
Qed.

(** X1.  Integer training sizes are accepted exactly when the array is not
    empty and every size lies in [1, n_max_training_samples]: then the
    result is [np.unique] of the sizes; an empty array fails in [np.min], and
    a size outside the range gives the [ValueError] before any warning is
    issued. *)
Theorem translate_int_sizes_accepted_iff_in_range {W} (l : list Z) (n : Z)
    (w : world W) :
  (l = [] -> _translate_train_sizes (Ints l) n w = (Raise empty_reduction, w)) /\
  (l <> [] -> (forall x, In x l -> 1 <= x <= n) ->
   exists w', _translate_train_sizes (Ints l) n w = (Ok (np_unique l), w') /\
              ext w' = ext w) /\
  (forall x, In x l -> x <= 0 \/ n < x ->
   _translate_train_sizes (Ints l) n w = (Raise counts_out_of_range, w)).
Proof.
  split; [|split].
  - intros ->. reflexivity.
  - intros Hne Hall. destruct l as [|x t]; [contradiction|].
    unfold _translate_train_sizes. cbn [np_min_int np_max_int].
    assert (Hmin : 1 <= fold_left Z.min t x).
    { apply Hall, fold_min_In. }
    assert (Hmax : fold_left Z.max t x <= n).
    { apply Hall, fold_max_In. }
    destruct (Z.leb_spec (fold_left Z.min t x) 0); [lia|].
    destruct (Z.ltb_spec n (fold_left Z.max t x)); [lia|].
    cbn [orb absolute_sizes]. unfold Py.bind, Py.ret, Py.warn.
    destruct (_ <? _)%nat; eexists; split; reflexivity.
  - intros x Hin Hout. destruct l as [|x0 t]; [contradiction|].
    unfold _translate_train_sizes. cbn [np_min_int np_max_int].
    destruct (fold_min_le t x0) as [Hm0 Hm]. destruct (fold_max_ge t x0) as [HM0 HM].
    rewrite Forall_forall in Hm, HM.
    assert (Hx : fold_left Z.min t x0 <= x <= fold_left Z.max t x0).
    { destruct Hin as [<-|Hin]; [lia|]. split; [apply Hm | apply HM]; exact Hin. }
    destruct (Z.leb_spec (fold_left Z.min t x0) 0);
      [reflexivity|].
    destruct (Z.ltb_spec n (fold_left Z.max t x0)); [reflexivity | lia].
Qed.

Lemma clip_bounds (n a : Z) : 1 <= n -> 1 <= clip 1 n a <= n.
Proof. unfold clip. lia. Qed.

Lemma absolute_sizes_in_range {W} s n (w w' : world W) r :
  _translate_train_sizes s n w = (Ok r, w') -> 1 <= n ->
  n_ticks s <> 0%nat /\ forall x, In x (absolute_sizes s n) -> 1 <= x <= n.
Proof.
  unfold _translate_train_sizes. intros H Hn. bind_inv H. clear H.
  destruct s as [l|l]; cbn [absolute_sizes n_ticks].
  - split.
    + destruct l; [discriminate Hrun | discriminate].
    + intros x Hx. apply in_map_iff in Hx. destruct Hx as (f & <- & _).
      apply clip_bounds, Hn.
  - destruct l as [|x0 t]; [discriminate Hrun|].
    split; [discriminate|].
    cbn [np_min_int np_max_int] in Hrun.
    destruct (fold_min_le t x0) as [Hm0 Hm]. destruct (fold_max_ge t x0) as [HM0 HM].
    rewrite Forall_forall in Hm, HM.
    destruct (Z.leb_spec (fold_left Z.min t x0) 0); [discriminate Hrun|].
    destruct (Z.ltb_spec n (fold_left Z.max t x0)); [discriminate Hrun|].
    intros x [<-|Hx]; [lia|]. specialize (Hm x Hx). specialize (HM x Hx). lia.
Qed.

Lemma translate_result_facts {W} s n (w w' : world W) r :
  _translate_train_sizes s n w = (Ok r, w') -> 1 <= n ->
  ascending r /\ r <> [] /\ (List.length r <= n_ticks s)%nat /\
  (forall x, In x r -> 1 <= x <= n) /\
  (forall x, In x r <-> In x (absolute_sizes s n)).
Proof.
  intros H Hn.
  destruct (absolute_sizes_in_range _ _ _ _ _ H Hn) as [Hne Hrange].
  apply _translate_train_sizes_Ok in H. destruct H as (-> & _ & _).
  split; [apply np_unique_ascending|].
  split.
  { intros E. apply Hne. rewrite <- absolute_sizes_length with (n := n).
    destruct (absolute_sizes s n) as [|x t]; [reflexivity|].
    assert (Hx : In x (np_unique (x :: t))) by (apply np_unique_In; left; reflexivity).
    rewrite E in Hx. destruct Hx. }
  split; [rewrite <- absolute_sizes_length with (n := n); apply np_unique_length|].
  split; [intros x Hx; apply Hrange, np_unique_In, Hx|].
  intros x. apply np_unique_In.
Qed.

(** X2.  With at least one training sample available, whatever
    [_translate_train_sizes] returns is a non-empty, strictly increasing
    array of sizes between 1 and [n_max_training_samples], with no more
    entries than [train_sizes] had; it holds exactly the values of the
    translated sizes. *)
Theorem translate_train_sizes_sorted_in_range {W} s n (w w' : world W) r :
  _translate_train_sizes s n w = (Ok r, w') -> 1 <= n ->
  StronglySorted Z.lt r /\ r <> [] /\ (List.length r <= n_ticks s)%nat /\
  (forall x, In x r -> 1 <= x <= n) /\
  (forall x, In x r <-> In x (absolute_sizes s n)).
Proof. apply translate_result_facts. Qed.

(** X3.  The result of a translation is a fixed point: passed again as
    integer sizes (with the same maximum, at least 1) it is returned as it
    is, and no warning is issued. *)
Theorem translate_train_sizes_idempotent {W V} s n (w w' : world W) r
    (v : world V) :
  _translate_train_sizes s n w = (Ok r, w') -> 1 <= n ->
  _translate_train_sizes (Ints r) n v = (Ok r, v).
Proof.
  intros H Hn.
  destruct (translate_result_facts _ _ _ _ _ H Hn) as (Hasc & Hne & _ & Hrange & _).
  destruct r as [|x t]; [contradiction|].
  unfold _translate_train_sizes. cbn [np_min_int np_max_int].
  assert (Hmin : 1 <= fold_left Z.min t x) by (apply Hrange, fold_min_In).
  assert (Hmax : fold_left Z.max t x <= n) by (apply Hrange, fold_max_In).
  destruct (Z.leb_spec (fold_left Z.min t x) 0); [lia|].
  destruct (Z.ltb_spec n (fold_left Z.max t x)); [lia|].
  cbn [orb absolute_sizes n_ticks]. unfold Py.bind, Py.ret.
  rewrite (np_unique_ascending_id _ Hasc), Nat.ltb_irrefl. reflexivity.
Qed.

End TrainSizes.

(** Integer sizes [[5; 10; 5]] out of ten samples. *)
Lemma translate_int_sizes_accepted_witness :
  exists w', LearningCurve._translate_train_sizes (LearningCurve.Ints [5; 10; 5]%Z)
               10 (World [] tt) = (Ok [5; 10]%Z, w') /\ ext w' = tt.
Proof.
  destruct (@translate_int_sizes_accepted_iff_in_range unit [5; 10; 5]%Z 10%Z
              (World [] tt)) as (_ & Hok & _).
  apply Hok; [discriminate|].
  intros x [<-|[<-|[<-|[]]]]; lia.
Defined.

(** The fractions [[0.5; 1.0; 1.0]] of ten samples. *)
Lemma translate_train_sizes_sorted_in_range_witness :
  StronglySorted Z.lt [5; 10]%Z /\ [5; 10]%Z <> [] /\
  (List.length [5; 10]%Z <= 3)%nat /\
  (forall x, In x [5; 10]%Z -> (1 <= x <= 10)%Z) /\
  (forall x, In x [5; 10]%Z <->
             In x (LearningCurve.absolute_sizes
                     (LearningCurve.Floats [0.5; 1; 1]%float) 10)).
Proof.
  apply (@translate_train_sizes_sorted_in_range unit
           (LearningCurve.Floats [0.5; 1; 1]%float) 10%Z (World [] tt)
           (World [LearningCurve.duplicates_removed] tt) [5; 10]%Z);
    [vm_compute; reflexivity | lia].
Defined.

Lemma translate_train_sizes_idempotent_witness :
  LearningCurve._translate_train_sizes (LearningCurve.Ints [5; 10]%Z) 10
    (World [] tt) = (Ok [5; 10]%Z, World [] tt).
Proof.
  apply (@translate_train_sizes_idempotent unit unit
           (LearningCurve.Floats [0.5; 1; 1]%float) 10%Z (World [] tt)
           (World [LearningCurve.duplicates_removed] tt) [5; 10]%Z);
    [vm_compute; reflexivity | lia].
Defined.

Section FractionsNaN.

Import LearningCurve.
Local Open Scope Z_scope.

Lemma SFcompare_refl (x : spec_float) :
  x <> S754_nan -> SFcompare x x = Some Eq.
Proof.
  destruct x as [s|s| |s m e]; intros H; simpl; try reflexivity.
  - destruct s; reflexivity.
  - contradiction.
  - rewrite Z.compare_refl.
    assert (E : Pos.compare_cont Eq m m = Eq) by apply Pos.compare_cont_refl.
    destruct s; change (PosDef.Pos.compare_cont Eq m m) with (Pos.compare_cont Eq m m);
      rewrite E; reflexivity.
Qed.

Lemma is_nan_Prim2SF (f : float) :
  PrimFloat.is_nan f = true -> Prim2SF f = S754_nan.
Proof.
  unfold PrimFloat.is_nan. rewrite FloatAxioms.eqb_spec. unfold SFeqb. intros H.
  destruct (Prim2SF f) as [s|s| |s m e] eqn:E; try reflexivity;
    rewrite SFcompare_refl in H by discriminate; discriminate H.
Qed.

Lemma nan_not_le (f g : float) :
  PrimFloat.is_nan f = true -> PrimFloat.leb f g = false.
Proof.
  intros H. rewrite FloatAxioms.leb_spec, (is_nan_Prim2SF _ H). reflexivity.
Qed.

Lemma nan_not_gt (f g : float) :
  PrimFloat.is_nan f = true -> PrimFloat.ltb g f = false.
Proof.
  intros H. rewrite FloatAxioms.ltb_spec, (is_nan_Prim2SF _ H).
  unfold SFltb. destruct (Prim2SF g); reflexivity.
Qed.

Lemma fold_fmin_nan (t : list float) (x : float) :
  PrimFloat.is_nan x = true \/ Exists (fun f => PrimFloat.is_nan f = true) t ->
  PrimFloat.is_nan (fold_left fmin t x) = true.
Proof.
  revert x. induction t as [|y t IH]; intros x H; simpl.
  - destruct H as [H|H]; [exact H | inversion H].
  - apply IH. unfold fmin.
    destruct (PrimFloat.is_nan x) eqn:Ex; [left; exact Ex|].
    destruct (PrimFloat.is_nan y) eqn:Ey; [left; exact Ey|].
    destruct H as [H|H]; [discriminate H|].
    inversion H as [? ? Hy|? ? Ht]; subst; [congruence | right; exact Ht].
Qed.

Lemma fold_fmax_nan (t : list float) (x : float) :
  PrimFloat.is_nan x = true \/ Exists (fun f => PrimFloat.is_nan f = true) t ->
  PrimFloat.is_nan (fold_left fmax t x) = true.
Proof.
  revert x. induction t as [|y t IH]; intros x H; simpl.
  - destruct H as [H|H]; [exact H | inversion H].
  - apply IH. unfold fmax.
    destruct (PrimFloat.is_nan x) eqn:Ex; [left; exact Ex|].
    destruct (PrimFloat.is_nan y) eqn:Ey; [left; exact Ey|].
    destruct H as [H|H]; [discriminate H|].
    inversion H as [? ? Hy|? ? Ht]; subst; [congruence | right; exact Ht].
Qed.

Lemma nan_size (f : float) (n : Z) :
  PrimFloat.is_nan f = true -> 1 <= n ->
  clip 1 n (float_to_int (PrimFloat.mul f (float_of_Z n))) = 1.
Proof.
  intros H Hn. unfold float_to_int.
  rewrite FloatAxioms.mul_spec, (is_nan_Prim2SF _ H). cbn [FloatAxioms.SF64mul SFmul].
  unfold clip. lia.
Qed.

(** X4.  A NaN among the fractions defeats the range check: [np.min] and
    [np.max] are then NaN, both comparisons with NaN are false, and the call
    returns instead of raising, whatever the other fractions are; the NaN
    entry itself is clipped to the size 1. *)
Theorem translate_fraction_nan_not_rejected {W} (l : list float) (n : Z)
    (w : world W) (f : float) :
  In f l -> PrimFloat.is_nan f = true ->
  exists r w',
    _translate_train_sizes (Floats l) n w = (Ok r, w') /\
    (1 <= n -> In 1 r).
Proof.
  intros Hin Hnan.
  assert (Hex : forall x t, l = x :: t ->
            PrimFloat.is_nan x = true \/ Exists (fun g => PrimFloat.is_nan g = true) t).
  { intros x t ->. destruct Hin as [->|Hin]; [left; exact Hnan|].
    right. apply Exists_exists. exists f. split; assumption. }
  destruct l as [|x t]; [contradiction|].
  specialize (Hex x t eq_refl).
  unfold _translate_train_sizes. cbn [np_min_float np_max_float].
  rewrite (nan_not_le _ _ (fold_fmin_nan _ _ Hex)), (nan_not_gt _ _ (fold_fmax_nan _ _ Hex)).
  cbn [orb]. unfold Py.bind, Py.ret, Py.warn.
  assert (Hone : 1 <= n -> In 1 (np_unique (absolute_sizes (Floats (x :: t)) n))).
  { intros Hn. apply np_unique_In. cbn [absolute_sizes].
    apply in_map_iff. exists f. split; [apply nan_size; assumption | exact Hin]. }
  destruct (_ <? _)%nat; do 2 eexists; (split; [reflexivity | exact Hone]).
Qed.

End FractionsNaN.

(** [[nan; 5.0]] of ten samples: 5.0 is out of range, and the call returns
    the sizes 1 and 10. *)
Lemma translate_fraction_nan_witness :
  exists r w',
    LearningCurve._translate_train_sizes
      (LearningCurve.Floats [PrimFloat.nan; 5%float]) 10 (World [] tt)
    = (Ok r, w') /\ (1 <= 10 -> In 1 r)%Z.
Proof.
  apply (@translate_fraction_nan_not_rejected unit [PrimFloat.nan; 5%float] 10%Z
           (World [] tt) PrimFloat.nan); [left; reflexivity | reflexivity].
Defined.

(** ** learning_curve.py: incremental partitions and the shape of the result *)

Section Partitions.

Import LearningCurve.

(** The integer indices of an index array. *)
Definition indices (a : index_array) : list nat :=
  match a with Idx l => l | Mask _ => [] end.

Lemma firstn_add {A} (x y : nat) (m : list A) :
  firstn (x + y) m = firstn x m ++ firstn y (skipn x m).
Proof.
  revert m. induction x as [|x IH]; intros m; simpl; [reflexivity|].
  destruct m as [|a m]; simpl.
  - rewrite firstn_nil. reflexivity.
  - rewrite IH. reflexivity.
Qed.

Lemma skipn_add {A} (x y : nat) (m : list A) :
  skipn (x + y) m = skipn y (skipn x m).
Proof.
  revert m. induction x as [|x IH]; intros m; simpl; [reflexivity|].
  destruct m as [|a m]; simpl; [rewrite skipn_nil; reflexivity | apply IH].
Qed.

(** [l[s:a] ++ l[a:b] = l[s:b]] for [s <= a <= b]. *)
Lemma slice_app {A} (s a b : nat) (l : list A) :
  (s <= a)%nat -> (a <= b)%nat ->
  firstn (a - s) (skipn s l) ++ firstn (b - a) (skipn a l)
  = firstn (b - s) (skipn s l).
Proof.
  intros Hsa Hab.
  replace (b - s)%nat with ((a - s) + (b - a))%nat by lia.
  rewrite firstn_add. f_equal. f_equal.
  rewrite <- skipn_add. f_equal. lia.
Qed.

Lemma partitions_from_sizes start train sizes :
  map fst (partitions_from start train sizes) = sizes.
Proof.
  revert start. induction sizes as [|n rest IH]; intros start; simpl;
    [reflexivity | rewrite IH; reflexivity].
Qed.

Lemma partitions_from_accumulate (l : list nat) (sizes : list Z) :
  forall (start k : nat),
    StronglySorted Z.le (Z.of_nat start :: sizes) ->
    (k < List.length sizes)%nat ->
    concat (map (fun p => indices (snd p))
              (firstn (S k) (partitions_from start (Idx l) sizes)))
    = firstn (Z.to_nat (nth k sizes 0%Z) - start) (skipn start l).
Proof.
  induction sizes as [|n rest IH]; intros start k Hsorted Hk; simpl in Hk; [lia|].
  inversion Hsorted as [|? ? Hrest Hall]; subst.
  inversion Hall as [|? ? Hn Hall']; subst.
  cbn [partitions_from firstn map concat snd slice indices].
  destruct k as [|k].
  - destruct (partitions_from _ _ _); simpl; rewrite app_nil_r; reflexivity.
  - cbn [nth].
    assert (Hk' : (k < List.length rest)%nat) by lia.
    assert (Hsorted' : StronglySorted Z.le (Z.of_nat (Z.to_nat n) :: rest)).
    { inversion Hrest as [|? ? Hr Hnr]; subst.
      constructor; [exact Hr|]. rewrite Z2Nat.id by lia. exact Hnr. }
    change (firstn (S k) (partitions_from (Z.to_nat n) (Idx l) rest))
      with (firstn (S k) (partitions_from (Z.to_nat n) (Idx l) rest)).
    rewrite (IH (Z.to_nat n) k Hsorted' Hk').
    apply slice_app; [lia|].
    inversion Hrest as [|? ? Hr Hnr]; subst.
    rewrite Forall_forall in Hnr.
    assert (Hin : In (nth k rest 0%Z) rest) by (apply nth_In; exact Hk').
    specialize (Hnr _ Hin). lia.
Qed.

(** X5.  The chunks that [_incremental_fit_estimator] feeds to
    [partial_fit] are paired with the sizes in order, and for sizes that do
    not decrease (and are not negative) they add up: the chunks up to tick
    [k] concatenated are exactly [train[:train_sizes[k]]], the training set
    that the scores of tick [k] are computed on. *)
Theorem incremental_partitions_accumulate (l : list nat) (sizes : list Z)
    (k : nat) :
  StronglySorted Z.le (0%Z :: sizes) ->
  (k < List.length sizes)%nat ->
  map fst (partitions_from 0 (Idx l) sizes) = sizes /\
  concat (map (fun p => indices (snd p))
            (firstn (S k) (partitions_from 0 (Idx l) sizes)))
  = indices (slice 0 (Z.to_nat (nth k sizes 0%Z)) (Idx l)).
Proof.
  intros Hsorted Hk. split; [apply partitions_from_sizes|].
  rewrite (partitions_from_accumulate l sizes 0 k Hsorted Hk).
  reflexivity.
Qed.

End Partitions.

(** Six training indices and the ticks 2, 3 and 5: the first two chunks are
    [[10; 11]] and [[12]], together [train[:3]]. *)
Lemma incremental_partitions_accumulate_witness :
  map fst (LearningCurve.partitions_from 0
             (LearningCurve.Idx [10; 11; 12; 13; 14; 15]%nat) [2; 3; 5]%Z)
  = [2; 3; 5]%Z /\
  concat (map (fun p => indices (snd p))
            (firstn 2 (LearningCurve.partitions_from 0
                         (LearningCurve.Idx [10; 11; 12; 13; 14; 15]%nat)
                         [2; 3; 5]%Z)))
  = [10; 11; 12]%nat.
Proof.
  apply (incremental_partitions_accumulate [10; 11; 12; 13; 14; 15]%nat
           [2; 3; 5]%Z 1%nat).
  - repeat (constructor; [|repeat (constructor; try lia)]). constructor.
  - simpl. lia.
Defined.

Section CurveShape.

Import LearningCurve.

Variables W Est Data CV Scoring Scorer Classes : Type.
Variable has_partial_fit : Est -> bool.
Variable is_classifier : Est -> bool.
Variable check_arrays : Data -> M W Data.
Variable _check_cv : CV -> Data -> bool -> M W (list (index_array * index_array)).
Variable _check_scorable : Est -> Scoring -> M W unit.
Variable get_scorer : Scoring -> M W Scorer.
Variable np_unique_y : Data -> Classes.
Variable clone : Est -> M W Est.
Variable _split : Est -> Data -> index_array -> option index_array -> M W Data.
Variable _fit : Est -> Data -> M W unit.
Variable _fit_partial : Est -> Data -> option Classes -> M W unit.
Variable _score : Est -> Data -> Scorer -> M W Q.

Lemma mean_axis0_length n out : List.length (mean_axis0 n out) = n.
Proof. unfold mean_axis0. rewrite length_map, length_seq. reflexivity. Qed.

(** X6.  When [learning_curve] returns, the three arrays have the same
    length, the number of unique ticks; the sizes are strictly increasing
    and are the translation of [train_sizes] against the number of training
    indices of the first fold (the number of set entries, when the folds
    are boolean masks). *)
Theorem learning_curve_result_shape est Xy sizes cv scoring incremental
    (w w' : world W) abs train_scores test_scores :
  learning_curve has_partial_fit is_classifier check_arrays _check_cv
    _check_scorable get_scorer np_unique_y clone _split _fit _fit_partial
    _score est Xy sizes cv scoring incremental w
  = (Ok (abs, train_scores, test_scores), w') ->
  StronglySorted Z.lt abs /\
  List.length train_scores = List.length abs /\
  List.length test_scores = List.length abs /\
  exists Xy' train0 test0 rest w1 w2 w3,
    check_arrays Xy w = (Ok Xy', w1) /\
    _check_cv cv Xy' (is_classifier est) w1 = (Ok ((train0, test0) :: rest), w2) /\
    _translate_train_sizes sizes
      (Z.of_nat (len (if is_bool_dtype train0 then np_nonzero train0 else train0)))
      w2 = (Ok abs, w3).
Proof.
  unfold learning_curve. intros H.
  destruct (incremental && negb (has_partial_fit est));
    [apply raise_Ok_inv in H; contradiction|].
  bind_as H Xy' w1 Hcheck. bind_as H folds w2 Hcv.
  destruct folds as [|[train0 test0] rest];
    [apply raise_Ok_inv in H; contradiction|].
  bind_as H sizes_abs w3 Htr.
  assert (Hn : Z.of_nat
                 match (if is_bool_dtype train0
                        then map (fun f => (np_nonzero (fst f), np_nonzero (snd f)))
                               ((train0, test0) :: rest)
                        else (train0, test0) :: rest)
                 with (t, _) :: _ => len t | [] => 0%nat end
               = Z.of_nat (len (if is_bool_dtype train0 then np_nonzero train0
                                else train0))).
  { destruct (is_bool_dtype train0); reflexivity. }
  rewrite Hn in Htr. clear Hn.
  bind_as H u1 w4 Hsc. bind_as H scorer w5 Hget. bind_as H out w6 Hout.
  apply ret_Ok_inv in H. destruct H as [H _]. inversion H; subst.
  split.
  { apply _translate_train_sizes_Ok in Htr. destruct Htr as (-> & _).
    apply np_unique_ascending. }
  rewrite !length_map, mean_axis0_length.
  split; [reflexivity|]. split; [reflexivity|].
  exists Xy', train0, test0, rest, w1, w2, w3. auto.
Qed.

End CurveShape.

(** Collaborators that let a learning curve run: two folds over six
    samples and an estimator that always scores 1. *)
Module CurveDemo.

Import LearningCurve.

Definition folds : list (index_array * index_array) :=
  [(Idx [0; 1; 2; 3]%nat, Idx [4; 5]%nat); (Idx [2; 3; 4; 5]%nat, Idx [0; 1]%nat)].
Definition check_cv (cv data : unit) (classifier : bool)
  : M unit (list (index_array * index_array)) := Py.ret folds.

Definition curve (train_sizes : sizes) (incremental : bool)
  : M unit (list Z * list Q * list Q) :=
  @learning_curve unit unit unit unit unit unit unit
    (fun _ => true) (fun _ => false) (fun d => Py.ret d) check_cv
    (fun _ _ => Py.ret tt) (fun _ => Py.ret tt) (fun _ => tt)
    (fun e => Py.ret e)
    (fun _ _ _ _ => Py.ret tt)
    (fun _ _ => Py.ret tt) (fun _ _ _ => Py.ret tt)
    (fun _ _ _ => Py.ret 1%Q)
    tt tt train_sizes tt tt incremental.

End CurveDemo.

Lemma learning_curve_result_shape_witness :
  exists abs train_scores test_scores w',
    CurveDemo.curve (LearningCurve.Floats [0.5; 1; 1]%float) true (World [] tt)
    = (Ok (abs, train_scores, test_scores), w') /\
    abs = [2; 4]%Z /\
    List.length train_scores = 2%nat /\ List.length test_scores = 2%nat.
Proof.
  pose (run := CurveDemo.curve (LearningCurve.Floats [0.5; 1; 1]%float) true
                 (World [] tt)).
  assert (Hrun : run = (Ok ([2; 4]%Z, [2 # 2; 2 # 2]%Q, [2 # 2; 2 # 2]%Q), snd run))
    by (vm_compute; reflexivity).
  exists [2; 4]%Z, [2 # 2; 2 # 2]%Q, [2 # 2; 2 # 2]%Q, (snd run).
  split; [exact Hrun|]. split; [reflexivity|].
  unfold run, CurveDemo.curve in Hrun.
  apply learning_curve_result_shape in Hrun.
  destruct Hrun as (_ & Htrain & Htest & _).
  split; [exact Htrain | exact Htest].
Defined.

(* ================================================================== *)
(** ** ridge.py: the dispatch of [ridge_regression] *)

Section RidgeDispatchFacts.

Import Np Ridge.
Local Open Scope string_scope.
Variable W : Type.
Variable L : numerics.


Lemma gram_rows_defined (X : ndarray) :
  exists K, dot X (transpose X) = Ok K.
Proof.
  unfold dot. change (dim 0 (transpose X)) with (dim 1 X).
  rewrite Nat.eqb_refl. eauto.
Qed.

Definition scalar_index_error : exn :=
  IndexError "invalid index to scalar variable.".

Lemma kernel_solver_scalar_weight K y a alpha q (w : world W) :
  Qeq_bool q 1 = false ->
  _solve_dense_cholesky_kernel L K y (a :: alpha) (WFloat q) w
  = (Raise scalar_index_error, w).
Proof.
  intros Hq. unfold _solve_dense_cholesky_kernel, index. cbn [nth_error].
  py_eval. cbn [has_sample_weight]. rewrite Hq. reflexivity.
Qed.

(** The penalties after line 271-272: one per target. *)
Definition penalties (alpha : list Q) (n_targets : nat) : list Q :=
  if (List.length alpha =? 1)%nat && (1 <? n_targets)%nat
  then flat_map (fun a => repeat a n_targets) alpha
  else alpha.

Lemma penalties_cons a alpha t :
  exists a' rest, penalties (a :: alpha) t = a' :: rest.
Proof.
  unfold penalties. destruct (_ && _) eqn:E; [|eauto].
  apply andb_true_iff in E. destruct E as [_ E]. apply Nat.ltb_lt in E.
  destruct t as [|t]; [lia|]. simpl. eauto.
Qed.

(** X8.  A scalar [sample_weight] other than 1.0 cannot be used: it sends
    every solver to the kernel form of 'dense_cholesky', whose
    [sw[:, np.newaxis]] indexes the numpy scalar [np.sqrt(sample_weight)],
    and the call ends in [IndexError] whatever the data and the solver. *)
Theorem ridge_regression_scalar_weight_fails
    Xd y a alpha q solver max_iter tol (w : world W) n p t :
  shape (values Xd) = [n; p] ->
  (ndim y =? 1)%nat || (ndim y =? 2)%nat = true ->
  shape (target_2d y) = [n; t] ->
  List.length (a :: alpha) = 1%nat \/ List.length (a :: alpha) = t ->
  Qeq_bool q 1 = false ->
  exists w',
    ridge_regression L Xd y (a :: alpha) (WFloat q) solver max_iter tol w
    = (Raise scalar_index_error, w') /\ ext w' = ext w.
Proof.
  intros HX Hnd Hy Hlen Hq.
  pose proof (at_most_2d y Hnd) as Hnd2.
  assert (Hcount : (List.length (a :: alpha) =? 1)%nat
                   || (List.length (a :: alpha) =? t)%nat = true).
  { apply orb_true_iff. destruct Hlen as [E|E]; [left|right];
      apply Nat.eqb_eq; exact E. }
  destruct (gram_rows_defined (values Xd)) as [K HK].
  destruct (penalties_cons a alpha t) as (a' & rest & Hpen).
  unfold penalties in Hpen.
  unfold ridge_regression.
  unfold unpack2 at 1. rewrite HX. py_eval. rewrite Hnd2.
  unfold target_2d in *.
  cbn [has_sample_weight]. rewrite Hq. cbn [negb andb orb].
  destruct (ndim y =? 1)%nat;
    unfold unpack2; rewrite Hy; py_eval; rewrite Nat.eqb_refl; py_eval;
    rewrite Hcount, Hpen, orb_true_r; py_eval;
    (destruct (solver =? "auto") eqn:Ea;
     [destruct (is_array Xd)
     |destruct ((solver =? "lsqr") && negb (has_lsqr L));
      [|destruct (solver =? "dense_cholesky") eqn:Ed;
        [apply String.eqb_eq in Ed; subst solver|]]]);
    py_eval; unfold Py.bind, Py.warn, Py.ret, Py.lift, Py.try_except; py_eval;
    cbn [negb]; rewrite ?Ed; cbn [negb]; py_eval;
    rewrite HK, kernel_solver_scalar_weight by exact Hq;
    cbn [is_LinAlgError scalar_index_error];
    eexists; (split; [reflexivity | reflexivity]).
Qed.

Definition weights_fallback : warning :=
  UserWarning "sample_weight and class_weight not supported, fall back to dense_cholesky.".

(** X9.  With an array of sample weights the solver that the caller names
    is not used: for every name other than 'auto' and 'dense_cholesky'
    (known or not; 'lsqr' where scipy has it) the call issues the fall-back
    warning and then behaves exactly as with [solver='dense_cholesky']. *)
Theorem ridge_regression_array_weights_force_cholesky
    Xd y alpha v solver max_iter tol (w : world W) n p t :
  shape (values Xd) = [n; p] ->
  (ndim y =? 1)%nat || (ndim y =? 2)%nat = true ->
  shape (target_2d y) = [n; t] ->
  solver <> "auto" -> solver <> "dense_cholesky" ->
  (solver = "lsqr" -> has_lsqr L = true) ->
  ridge_regression L Xd y alpha (WArray v) solver max_iter tol w
  = ridge_regression L Xd y alpha (WArray v) "dense_cholesky" max_iter tol
      (World (warnings w ++ [weights_fallback]) (ext w)).
Proof.
  intros HX Hnd Hy Hauto Hchol Hlsqr.
  pose proof (at_most_2d y Hnd) as Hnd2.
  apply String.eqb_neq in Hauto, Hchol.
  assert (Hl : (solver =? "lsqr") && negb (has_lsqr L) = false).
  { destruct (String.eqb_spec solver "lsqr") as [E|E]; [|reflexivity].
    rewrite (Hlsqr E). reflexivity. }
  unfold ridge_regression.
  unfold unpack2 at 1 3. rewrite HX. py_eval. rewrite Hnd2.
  unfold target_2d in *. rewrite Hauto, Hl.
  destruct (ndim y =? 1)%nat;
    unfold unpack2; rewrite Hy; py_eval; rewrite Nat.eqb_refl; py_eval;
    rewrite Hchol; cbn [has_sample_weight negb andb]; py_eval;
    unfold Py.bind at 1 2; unfold Py.warn; reflexivity.
Qed.

End RidgeDispatchFacts.


(** The weight 2.0 on the regular 2x2 problem. *)
Lemma ridge_regression_scalar_weight_witness :
  exists w',
    Ridge.ridge_regression Exact.reference Demo.X_regular Demo.y_regular [0]%Q
      (Ridge.WFloat 2) "auto" None Demo.tol (World [] tt)
    = (Raise scalar_index_error, w') /\ ext w' = tt.
Proof.
  apply (@ridge_regression_scalar_weight_fails unit Exact.reference
           Demo.X_regular Demo.y_regular 0%Q [] 2%Q "auto" None Demo.tol
           (World [] tt) 2 2 1); try reflexivity.
  left. reflexivity.
Defined.

(** The name 'svd' with the weights [[1; 1]]. *)
Lemma ridge_regression_array_weights_witness :
  Ridge.ridge_regression Exact.reference Demo.X_regular Demo.y_regular [0]%Q
    (Ridge.WArray [1; 1]%Q) "svd" None Demo.tol (World [] tt)
  = Ridge.ridge_regression Exact.reference Demo.X_regular Demo.y_regular [0]%Q
      (Ridge.WArray [1; 1]%Q) "dense_cholesky" None Demo.tol
      (World [weights_fallback] tt).
Proof.
  apply (@ridge_regression_array_weights_force_cholesky unit Exact.reference
           Demo.X_regular Demo.y_regular [0]%Q [1; 1]%Q "svd" None Demo.tol
           (World [] tt) 2 2 1); try reflexivity; discriminate.
Defined.

(* ================================================================== *)
(** ** ridge.py: generalized cross-validation *)

Section LeaveOneOut.

Import Np Ridge RidgeGCV.
Local Open Scope Q_scope.

Lemma map_flat_map {A B C} (h : B -> C) (F : A -> list B) (l : list A) :
  map h (flat_map F l) = flat_map (fun i => map h (F i)) l.
Proof.
  induction l as [|a t IH]; simpl; [reflexivity|].
  rewrite map_app, IH. reflexivity.
Qed.

Lemma along_rows_post (f : Q -> Q -> Q) (h : Q -> Q) d b r :
  along_rows f d b = Ok r ->
  along_rows (fun g x => h (f g x)) d b = Ok (Array (shape r) (map h (data r))).
Proof.
  unfold along_rows. destruct (_ =? _)%nat; [|discriminate].
  intros H. inversion H; subst; clear H. cbn [shape data].
  rewrite map_flat_map. do 2 f_equal.
  apply flat_map_ext. intros i. rewrite map_map. reflexivity.
Qed.

Lemma along_rows_fails (f f' : Q -> Q -> Q) d b e :
  along_rows f d b = Raise e -> along_rows f' d b = Raise e.
Proof.
  unfold along_rows. destruct (_ =? _)%nat; [discriminate | auto].
Qed.

Lemma nth_map2_minus (u v : list Q) (i : nat) :
  (i < List.length (map2 Qminus u v))%nat ->
  nth i (map2 Qminus u v) 0 = nth i u 0 - nth i v 0 /\
  (i < List.length v)%nat.
Proof.
  revert v i. induction u as [|a u IH]; intros v i Hi; simpl in *; [lia|].
  destruct v as [|b v]; simpl in *; [lia|].
  destruct i as [|i]; [split; [reflexivity | lia]|].
  destruct (IH v i) as [E Hl]; [lia|]. split; [exact E | lia].
Qed.

Definition squared (x : Q) : Q := x * x.

(** The two local functions agree up to the final step. *)
Lemma errors_values_ratio alpha y v q QT_y e c val c' :
  _errors alpha y v q QT_y = Ok (e, c) ->
  _values alpha y v q QT_y = Ok (val, c') ->
  c' = c /\ exists ratio,
    data e = map squared ratio /\ data val = map2 Qminus (data y) ratio.
Proof.
  unfold _errors, _values.
  destruct (with_penalty _ (data v) alpha) as [wv|]; [|discriminate].
  cbn [rbind].
  destruct (_diag_dot wv QT_y) as [wQT_y|]; [|discriminate]. cbn [rbind].
  destruct (dot_left q wQT_y) as [c0|]; [|discriminate]. cbn [rbind].
  destruct (_decomp_diag wv q) as [G_diag|]; [|discriminate]. cbn [rbind].
  destruct (along_rows (fun g x => x / g) G_diag c0) as [ratio|err] eqn:Hr.
  - change (along_rows (fun g x => x / g * (x / g)) G_diag c0)
      with (along_rows (fun g x => squared (x / g)) G_diag c0).
    rewrite (along_rows_post (fun g x => x / g) squared _ _ _ Hr).
    cbn [rbind]. intros H1 H2. inversion H1; subst; clear H1.
    destruct (list_eq_dec _ _ _); [|discriminate H2].
    inversion H2; subst; clear H2.
    split; [reflexivity|]. exists (data ratio). split; reflexivity.
  - rewrite (along_rows_fails _ (fun g x => x / g * (x / g)) _ _ _ Hr).
    discriminate.
Qed.

Lemma errors_values_ratio_svd a y v U UT_y e c val c' :
  _errors_svd a y v U UT_y = Ok (e, c) ->
  _values_svd a y v U UT_y = Ok (val, c') ->
  c' = c /\ exists ratio,
    data e = map squared ratio /\ data val = map2 Qminus (data y) ratio.
Proof.
  unfold _errors_svd, _values_svd.
  destruct (svd_c_and_diag a y v U UT_y) as [[c0 G_diag]|]; [|discriminate].
  cbn [rbind].
  destruct (along_rows (fun g x => x / g) G_diag c0) as [ratio|err] eqn:Hr.
  - change (along_rows (fun g x => x / g * (x / g)) G_diag c0)
      with (along_rows (fun g x => squared (x / g)) G_diag c0).
    rewrite (along_rows_post (fun g x => x / g) squared _ _ _ Hr).
    cbn [rbind]. intros H1 H2. inversion H1; subst; clear H1.
    inversion H2; subst; clear H2.
    split; [reflexivity|]. exists (data ratio). split; reflexivity.
  - rewrite (along_rows_fails _ (fun g x => x / g * (x / g)) _ _ _ Hr).
    discriminate.
Qed.

(** X10.  In both modes of [_RidgeGCV] and for the same inputs, the
    leave-one-out errors ([_errors], [_errors_svd]) are the squares of the
    residuals of the leave-one-out predictions ([_values], [_values_svd]),
    and both return the same dual coefficients. *)
Theorem gcv_errors_are_squared_residuals m alpha y v q QT_y e c val c' :
  leave_one_out m true alpha y v q QT_y = Ok (e, c) ->
  leave_one_out m false alpha y v q QT_y = Ok (val, c') ->
  c' = c /\
  forall i, (i < List.length (data val))%nat ->
    nth i (data e) 0 == squared (nth i (data y) 0 - nth i (data val) 0).
Proof.
  intros He Hv.
  assert (H : c' = c /\ exists ratio,
            data e = map squared ratio /\ data val = map2 Qminus (data y) ratio).
  { destruct m; cbn [leave_one_out] in He, Hv.
    - eapply errors_values_ratio; eassumption.
    - destruct alpha as [a|l]; cbn [float_penalty] in He, Hv;
        [|discriminate He].
      eapply errors_values_ratio_svd; eassumption. }
  destruct H as (Hc & ratio & Ee & Ev). split; [exact Hc|].
  intros i Hi. rewrite Ee, Ev in *.
  destruct (nth_map2_minus _ _ _ Hi) as [E Hl]. rewrite E.
  rewrite (@nth_map_lt _ _ squared ratio i 0 0 Hl).
  unfold squared. ring.
Qed.

End LeaveOneOut.

(** The rotated kernel with eigenvalues 1 and 4, the targets [[1; 1]] and
    the penalty 1. *)
Lemma gcv_errors_are_squared_residuals_witness :
  exists e val c,
    RidgeGCV.leave_one_out RidgeGCV.Eigen true (Ridge.WFloat 1) Demo.y_ones
      (Np.Array [2%nat] [1; 4]%Q)
      (Np.Array [2%nat; 2%nat] [3 # 5; 4 # 5; - (4 # 5); 3 # 5]%Q)
      (Np.Array [2%nat] [- (1 # 5); 7 # 5]%Q) = Ok (e, c) /\
    RidgeGCV.leave_one_out RidgeGCV.Eigen false (Ridge.WFloat 1) Demo.y_ones
      (Np.Array [2%nat] [1; 4]%Q)
      (Np.Array [2%nat; 2%nat] [3 # 5; 4 # 5; - (4 # 5); 3 # 5]%Q)
      (Np.Array [2%nat] [- (1 # 5); 7 # 5]%Q) = Ok (val, c) /\
    (Np.get1 e 0 == squared (1 - Np.get1 val 0))%Q.
Proof.
  pose (run b := RidgeGCV.leave_one_out RidgeGCV.Eigen b (Ridge.WFloat 1)
                   Demo.y_ones (Np.Array [2%nat] [1; 4]%Q)
                   (Np.Array [2%nat; 2%nat] [3 # 5; 4 # 5; - (4 # 5); 3 # 5]%Q)
                   (Np.Array [2%nat] [- (1 # 5); 7 # 5]%Q)).
  pose (out b := match run b with Ok r => r | Raise _ => (Demo.y_ones, Demo.y_ones) end).
  assert (He : run true = Ok (fst (out true), snd (out true)))
    by (vm_compute; reflexivity).
  assert (Hv : run false = Ok (fst (out false), snd (out true)))
    by (vm_compute; reflexivity).
  exists (fst (out true)), (fst (out false)), (snd (out true)).
  split; [exact He|]. split; [exact Hv|].
  destruct (gcv_errors_are_squared_residuals _ _ _ _ _ _ _ _ _ _ He Hv)
    as [_ Hsq].
  apply (Hsq 0%nat). vm_compute. lia.
Defined.

Section GCVModes.

Import Np Ridge RidgeGCV.
Local Open Scope string_scope.
Variable W : Type.
Variable L : numerics.
Variables ScoreArgs Means Intercept : Type.
Variable _center_data :
  ndarray -> ndarray -> bool -> bool -> bool -> weight ->
  M W (ndarray * ndarray * Means).
Variable _set_intercept : ndarray -> Means -> M W Intercept.
Variable _deprecate_loss_and_score_funcs : ScoreArgs -> M W (option Scorer).

Local Abbreviation gcv_fit :=
  (fit L _center_data _set_intercept _deprecate_loss_and_score_funcs).

(** X11.  [_RidgeGCV.fit] rejects what it cannot decompose, after the data
    has been centred and before any decomposition is computed: a [gcv_mode]
    other than None, 'auto', 'eigen' and 'svd' gives the [ValueError], and
    'svd' on a sparse design (with a scalar sample weight) gives the
    [TypeError] of [_pre_compute_svd]. *)
Theorem gcv_fit_mode_errors
    (self : _RidgeGCV ScoreArgs Intercept) X y sample_weight (w w1 : world W)
    n p Xc y_c means g :
  shape (values X) = [n; p] ->
  _center_data (values X) y (fit_intercept self) (normalize self)
    (copy_X self) sample_weight w = (Ok (Xc, y_c, means), w1) ->
  gcv_mode self = Some g ->
  (g <> "auto" -> g <> "eigen" -> g <> "svd" ->
   gcv_fit self X y sample_weight w = (Raise (ValueError "bad gcv_mode"), w1)) /\
  (g = "svd" -> is_array X = false ->
   (exists s, sample_weight = WFloat s) ->
   gcv_fit self X y sample_weight w
   = (Raise (TypeError "SVD not supported for sparse matrices"), w1)).
Proof.
  intros HX Hc Hg. unfold fit, Ridge.unpack2. rewrite HX. py_eval.
  rewrite (bind_Ok _ _ _ Hc). rewrite Hg. split.
  - intros Ha He Hs. apply String.eqb_neq in Ha, He, Hs.
    rewrite Ha, Hs. cbn [andb]. py_eval. rewrite He, Hs. reflexivity.
  - intros -> Harr [s ->]. py_eval. unfold _pre_compute_svd.
    cbn [is_array]. rewrite Harr. reflexivity.
Qed.

Lemma length_flat_map_const {A B} (F : A -> list B) (l : list A) (k : nat) :
  (forall a, List.length (F a) = k) ->
  List.length (flat_map F l) = (List.length l * k)%nat.
Proof.
  intros HF. induction l as [|a t IH]; simpl; [reflexivity|].
  rewrite length_app, HF, IH. reflexivity.
Qed.

(** X12.  With [store_cv_values] a fit that returns has stored in
    [cv_values_] an array of shape (n_samples, n_alphas) for a 1-D target
    and (n_samples, n_targets, n_alphas) otherwise, with as many elements
    as the shape announces; without it [cv_values_] is left as it was. *)
Theorem gcv_fit_cv_values_shape
    (self self' : _RidgeGCV ScoreArgs Intercept) X y sample_weight
    (w w' : world W) :
  gcv_fit self X y sample_weight w = (Ok self', w') ->
  (store_cv_values self = false -> cv_values_ self' = cv_values_ self) /\
  (store_cv_values self = true ->
   exists Xc y_c means w0 w1 stored,
     _center_data (values X) y (fit_intercept self) (normalize self)
       (copy_X self) sample_weight w0 = (Ok (Xc, y_c, means), w1) /\
     cv_values_ self' = Some stored /\
     shape stored
     = (if (ndim y_c =? 1)%nat
        then [dim 0 (values X); List.length (alphas self)]
        else [dim 0 (values X); dim 1 y_c; List.length (alphas self)]) /\
     List.length (data stored) = fold_right Nat.mul 1%nat (shape stored)).
Proof.
  unfold fit. intros H.
  bind_as H dims w0 Hdims. destruct dims as [n_samples n_features].
  assert (Hn : dim 0 (values X) = n_samples).
  { unfold Ridge.unpack2 in Hdims.
    destruct (shape (values X)) as [|a [|b [|? ?]]] eqn:E;
      try (apply raise_Ok_inv in Hdims; contradiction).
    apply ret_Ok_inv in Hdims. destruct Hdims as [Hd _].
    inversion Hd; subst. unfold dim. rewrite E. reflexivity. }
  bind_as H centred w1 Hc. destruct centred as [[Xc y_c] means].
  bind_as H mode_name w2 Hmode. bind_as H m w3 Hm.
  bind_as H decomp w4 Hpre. destruct decomp as [[v q] QT_y].
  bind_as H scorer w5 Hsc. bind_as H columns w6 Hcols.
  bind_as H best w7 Hbest. bind_as H alpha_best w8 Hidx.
  bind_as H dual_coef w9 Hdual. bind_as H coef w10 Hcoef.
  bind_as H intercept w11 Hint.
  apply ret_Ok_inv in H. destruct H as [<- _]. cbn [cv_values_].
  assert (Hlen : List.length columns = List.length (alphas self)).
  { unfold cv_columns in Hcols. apply mapM_Ok_inv in Hcols.
    symmetry. eapply Forall2_length. exact Hcols. }
  split; [intros ->; reflexivity|].
  intros ->. exists Xc, y_c, means, w0, w1. eexists.
  split; [exact Hc|]. split; [reflexivity|].
  rewrite Hn. cbn [data shape].
  rewrite (length_flat_map_const _ _ (List.length (alphas self)))
    by (intros r; rewrite !length_map; exact Hlen).
  rewrite length_seq.
  destruct (ndim y_c =? 1)%nat; (split; [reflexivity|]);
    cbn [fold_right]; lia.
Qed.

End GCVModes.

(** The mode 'qr' on the rotated design, and the three candidates with
    stored leave-one-out values. *)
Lemma gcv_fit_mode_errors_witness :
  RidgeGCV.fit Demo.rotated Demo.not_centred Demo.zero_intercept
    Demo.given_scorer
    (RidgeGCV.Build__RidgeGCV [1; 1 # 10; 10]%Q false false None true
       (Some "qr"%string) false None None None None None)
    Demo.X_rotated Demo.y_ones (Ridge.WFloat 1) (World [] tt)
  = (Raise (ValueError "bad gcv_mode"), World [] tt).
Proof.
  apply (proj1 (@gcv_fit_mode_errors unit Demo.rotated
                  (option RidgeGCV.Scorer) unit Q Demo.not_centred
                  Demo.zero_intercept Demo.given_scorer
                  (RidgeGCV.Build__RidgeGCV [1; 1 # 10; 10]%Q false false None
                     true (Some "qr"%string) false None None None None None)
                  Demo.X_rotated Demo.y_ones (Ridge.WFloat 1) (World [] tt)
                  (World [] tt) 2 2 (Ridge.values Demo.X_rotated) Demo.y_ones tt
                  "qr"%string eq_refl eq_refl eq_refl));
    discriminate.
Defined.

Lemma gcv_fit_cv_values_shape_witness :
  exists self' stored,
    fst (RidgeGCV.fit Demo.rotated Demo.not_centred Demo.zero_intercept
           Demo.given_scorer
           (RidgeGCV.Build__RidgeGCV [1; 1 # 10; 10]%Q false false None true
              (Some "eigen"%string) true None None None None None)
           Demo.X_rotated Demo.y_ones (Ridge.WFloat 1) (World [] tt))
    = Ok self' /\
    RidgeGCV.cv_values_ self' = Some stored /\
    Np.shape stored = [2; 3]%nat /\ List.length (Np.data stored) = 6%nat.
Proof.
  pose (self := RidgeGCV.Build__RidgeGCV (ScoreArgs := option RidgeGCV.Scorer)
                  (Intercept := Q) [1; 1 # 10; 10]%Q false false None true
                  (Some "eigen"%string) true None None None None None).
  pose (run := RidgeGCV.fit Demo.rotated Demo.not_centred Demo.zero_intercept
                 Demo.given_scorer self Demo.X_rotated Demo.y_ones
                 (Ridge.WFloat 1) (World [] tt)).
  pose (self' := match fst run with Ok s => s | Raise _ => self end).
  assert (Hrun : run = (Ok self', snd run)) by (vm_compute; reflexivity).
  unfold run at 1 in Hrun.
  apply gcv_fit_cv_values_shape in Hrun. destruct Hrun as [_ Hstored].
  destruct (Hstored eq_refl)
    as (Xc & y_c & means & w0 & w1 & stored & Hc & Hcv & Hshape & Hlen).
  injection Hc as _ <- _ _.
  exists self', stored.
  split; [vm_compute; reflexivity|]. split; [exact Hcv|].
  split; [exact Hshape|]. rewrite Hlen, Hshape. reflexivity.
Defined.

(* ================================================================== *)
(** ** coordinate_descent.py: the path in array mode *)

Section PathTrace.

Import CoordinateDescent.
Local Open Scope R_scope.
Variable W : Type.
Variables Gram Means : Type.
Variable atleast2d_or_csc : design -> bool -> M W design.
Variable center_data :
  design -> ndarray -> bool -> bool -> bool -> M W (design * ndarray * Means).
Variable _pre_fit :
  design -> ndarray -> option ndarray -> Gram -> bool -> bool -> bool ->
  M W (design * ndarray * Means * Gram * option ndarray).
Variable enet_coordinate_descent :
  list R -> R -> R -> design -> list R -> Z -> R -> bool -> M W (list R * R * R).
Variable sparse_enet_coordinate_descent :
  list R -> R -> R -> design -> list R -> list R -> Z -> R -> bool ->
  M W (list R * R * R).
Variable Intercept : Type.
Variable _set_intercept : ndarray -> Means -> M W Intercept.
Variable uninitialised : nat -> R.

Local Abbreviation path_step := (path_step enet_coordinate_descent
                         sparse_enet_coordinate_descent _set_intercept).
Local Abbreviation path_loop := (path_loop enet_coordinate_descent
                         sparse_enet_coordinate_descent _set_intercept).
Local Abbreviation enet_path := (enet_path atleast2d_or_csc center_data _pre_fit
                         enet_coordinate_descent sparse_enet_coordinate_descent
                         _set_intercept uninitialised).

Section Trace.

Variables (X : design) (y : ndarray) (l1_ratio : R) (n_samples : nat)
          (X_sparse_scaling : option (list R)) (max_iter : Z) (tol : R)
          (positive : bool).

(** The solve of one alpha (lines 410-419), from the coefficients [start]. *)
Definition solve (start : list R) (alpha : R) : M W (list R * R * R) :=
  let l1_reg := alpha * l1_ratio * INR n_samples in
  let l2_reg := alpha * (1 - l1_ratio) * INR n_samples in
  if is_sparse X then
    Py.bind (Py.local "X_sparse_scaling" X_sparse_scaling) (fun scaling =>
    sparse_enet_coordinate_descent start l1_reg l2_reg X (data y)
      scaling max_iter tol positive)
  else
    enet_coordinate_descent start l1_reg l2_reg X (data y)
      max_iter tol positive.

(** The world after the convergence check of one solve. *)
Definition checked (gap eps : R) (w : world W) : world W :=
  if Rgt_dec gap eps then World (warnings w ++ [did_not_converge]) (ext w)
  else w.

(** A chain of solves, one per alpha, each started from the coefficients
    of the one before; [results] lists their coefficients and dual gaps. *)
Fixpoint path_trace (start : list R) (alphas : list R)
    (results : list (list R * R)) (w w' : world W) : Prop :=
  match alphas, results with
  | [], [] => w' = w
  | alpha :: rest, (coef, gap) :: rs =>
      exists eps w1,
        solve start alpha w = (Ok (coef, gap, eps), w1) /\
        path_trace coef rest rs (checked gap eps w1) w'
  | _, _ => False
  end.

Lemma firstn_set_nth {A} (i : nat) (v : A) (l : list A) :
  (i < List.length l)%nat -> firstn (S i) (set_nth i v l) = firstn i l ++ [v].
Proof.
  revert i. induction l as [|x t IH]; intros [|i] H; simpl in *; try lia.
  - reflexivity.
  - f_equal. apply IH. lia.
Qed.

Lemma skipn_set_nth {A} (i k : nat) (v : A) (l : list A) :
  (i < k)%nat -> skipn k (set_nth i v l) = skipn k l.
Proof.
  revert i k. induction l as [|x t IH]; intros [|i] [|k] H; simpl; try lia;
    try reflexivity.
  apply IH. lia.
Qed.

Lemma path_step_array precompute means fit_intercept verbose n_alphas i alpha
    (s s' : path_state Gram Intercept) (w w' : world W) :
  s_model s = None ->
  path_step X y l1_ratio n_samples X_sparse_scaling means precompute
    fit_intercept verbose false max_iter tol positive n_alphas i alpha s w
  = (Ok s', w') ->
  exists coef gap eps w1,
    solve (s_coef_ s) alpha w = (Ok (coef, gap, eps), w1) /\
    w' = checked gap eps w1 /\
    s' = PathState coef (set_nth i coef (s_coefs s))
           (set_nth i gap (s_dual_gaps s)) (s_models s) None.
Proof.
  intros Hmodel H. unfold CoordinateDescent.path_step in H.
  bind_as H r w1 Hsolve. destruct r as [[coef gap] eps].
  exists coef, gap, eps, w1. split; [exact Hsolve|].
  bind_as H u w2 Hwarn.
  assert (Hw2 : w2 = checked gap eps w1).
  { unfold checked. destruct (Rgt_dec gap eps).
    - unfold Py.warn in Hwarn. inversion Hwarn. reflexivity.
    - apply ret_Ok_inv in Hwarn. destruct Hwarn as [_ ->]. reflexivity. }
  subst w2. clear Hwarn.
  bind_as H ms w3 Hms. apply ret_Ok_inv in Hms. destruct Hms as [<- ->].
  rewrite Hmodel in H.
  bind_as H u2 w4 Hverb.
  assert (Hw4 : w4 = checked gap eps w1).
  { destruct (negb (verbose =? 0)%Z); [destruct (2 <? verbose)%Z|].
    - bind_as Hverb m w5 Hm. apply raise_Ok_inv in Hm. contradiction.
    - apply ret_Ok_inv in Hverb. destruct Hverb as [_ ->]. reflexivity.
    - apply ret_Ok_inv in Hverb. destruct Hverb as [_ ->]. reflexivity. }
  subst w4. clear Hverb.
  apply ret_Ok_inv in H. destruct H as [<- <-].
  split; reflexivity.
Qed.

Lemma path_loop_array precompute means fit_intercept verbose n_alphas alphas :
  forall i (s s' : path_state Gram Intercept) (w w' : world W),
    s_model s = None ->
    (i + List.length alphas <= List.length (s_coefs s))%nat ->
    (i + List.length alphas <= List.length (s_dual_gaps s))%nat ->
    path_loop X y l1_ratio n_samples X_sparse_scaling means precompute
      fit_intercept verbose false max_iter tol positive n_alphas i alphas s w
    = (Ok s', w') ->
    exists results,
      path_trace (s_coef_ s) alphas results w w' /\
      s_coefs s' = firstn i (s_coefs s) ++ map fst results
                   ++ skipn (i + List.length alphas) (s_coefs s) /\
      s_dual_gaps s' = firstn i (s_dual_gaps s) ++ map snd results
                       ++ skipn (i + List.length alphas) (s_dual_gaps s).
Proof.
  induction alphas as [|alpha rest IH]; intros i s s' w w' Hmodel Hc Hg H.
  - simpl in H. apply ret_Ok_inv in H. destruct H as [<- <-].
    exists []. simpl. rewrite Nat.add_0_r, !firstn_skipn. auto.
  - cbn [CoordinateDescent.path_loop] in H. bind_as H s1 w1 Hstep.
    apply path_step_array in Hstep; [|exact Hmodel].
    destruct Hstep as (coef & gap & eps & w0 & Hsolve & -> & ->).
    simpl in Hc, Hg.
    apply IH in H; cbn [s_model s_coefs s_dual_gaps s_coef_];
      [|reflexivity | rewrite set_nth_length; lia | rewrite set_nth_length; lia].
    destruct H as (rs & Htrace & Hcs & Hgs).
    cbn [s_model s_coefs s_dual_gaps s_coef_] in Htrace, Hcs, Hgs.
    exists ((coef, gap) :: rs). split; [|split].
    + simpl. exists eps, w0. split; assumption.
    + rewrite Hcs. rewrite firstn_set_nth by lia.
      rewrite skipn_set_nth by lia.
      replace (S i + List.length rest)%nat with (i + S (List.length rest))%nat by lia.
      rewrite <- app_assoc. reflexivity.
    + rewrite Hgs. rewrite firstn_set_nth by lia.
      rewrite skipn_set_nth by lia.
      replace (S i + List.length rest)%nat with (i + S (List.length rest))%nat by lia.
      rewrite <- app_assoc. reflexivity.
Qed.

End Trace.

(** [np.sort(alphas)[::-1]] orders the alphas from the largest down. *)
Definition descending (l : list R) : Prop := StronglySorted Rge l.

Lemma insert_desc_In x y l : In y (insert_desc x l) <-> y = x \/ In y l.
Proof.
  induction l as [|z t IH]; simpl; [intuition|].
  destruct (Rle_dec z x); simpl; [intuition|]. rewrite IH. intuition.
Qed.

Lemma insert_desc_descending x l : descending l -> descending (insert_desc x l).
Proof.
  unfold descending. induction 1 as [|z t Hs IH Hall]; simpl.
  - repeat constructor.
  - destruct (Rle_dec z x) as [Hle|Hgt].
    + constructor; [constructor; assumption|].
      constructor; [lra|].
      rewrite Forall_forall in *. intros u Hu. specialize (Hall u Hu). lra.
    + constructor; [assumption|].
      rewrite Forall_forall in *. intros u Hu.
      apply insert_desc_In in Hu. destruct Hu as [->|Hu]; [lra | auto].
Qed.

Lemma sort_desc_descending l : descending (sort_desc l).
Proof.
  induction l as [|x t IH]; simpl; [constructor|].
  apply insert_desc_descending, IH.
Qed.

Lemma insert_desc_perm x l :
  Permutation.Permutation (x :: l) (insert_desc x l).
Proof.
  induction l as [|z t IH]; simpl; [apply Permutation.Permutation_refl|].
  destruct (Rle_dec z x); [apply Permutation.Permutation_refl|].
  eapply Permutation.perm_trans; [apply Permutation.perm_swap|].
  apply Permutation.perm_skip, IH.
Qed.

Lemma sort_desc_perm l : Permutation.Permutation l (sort_desc l).
Proof.
  induction l as [|x t IH]; simpl; [constructor|].
  eapply Permutation.perm_trans; [apply Permutation.perm_skip, IH|].
  apply insert_desc_perm.
Qed.

(** X13.  With [alphas] given and [return_models=False], an [enet_path]
    that returns has run one solve per alpha, from the largest alpha down,
    each started from the coefficients of the solve before it (the first
    from [coef_init], or zeros); the returned alphas are the given ones in
    descending order, and [coefs] and [dual_gaps] hold, alpha by alpha, the
    coefficients and the dual gap of that alpha's solve: no slot of the
    [np.empty] arrays is left as it was. *)
Theorem enet_path_array_mode_trace
    X y l1_ratio eps n_alphas alphas (gram : Gram) Xy fit_intercept normalize
    copy_X coef_init verbose params (w w' : world W) returned coefs dual_gaps :
  enet_path X y l1_ratio eps n_alphas (Some alphas) gram Xy fit_intercept
    normalize copy_X coef_init verbose false params w
  = (Ok (@Path Gram Intercept returned coefs dual_gaps), w') ->
  returned = sort_desc alphas /\
  Permutation.Permutation alphas returned /\ descending returned /\
  exists X0 X1 y1 scaling w0 results,
    (exists wa wb,
       atleast2d_or_csc X
         (copy_X && match fit_intercept with Some b => b | None => true end) wa
       = (Ok X0, wb)) /\
    (exists means gram1 Xy1 wc,
       _pre_fit X0 y Xy gram
         (match normalize with Some true => true | _ => false end)
         (match fit_intercept with Some b => b | None => true end) false wc
       = (Ok (X1, y1, means, gram1, Xy1), w0)) /\
    path_trace X1 y1 l1_ratio (dim 0 (values X1)) scaling
      (match p_max_iter params with Some n => n | None => 1000%Z end)
      (match p_tol params with Some t => t | None => 1 / 10000 end)
      (match p_positive params with Some b => b | None => false end)
      (match coef_init with
       | None => repeat 0 (dim 1 (values X0))
       | Some c => c
       end)
      returned results w0 w' /\
    coefs = map fst results /\ dual_gaps = map snd results.
Proof.
  unfold CoordinateDescent.enet_path. intros H.
  bind_as H u1 wa H1. bind_as H norm wb H2. bind_as H u3 wc H3.
  bind_as H X0 wd H4. bind_as H scaling we H5.
  bind_as H fitted0 wf H6. destruct fitted0 as [[[[X1 y1] means] gram'] Xy'].
  bind_as H ordered wg H7. apply ret_Ok_inv in H7. destruct H7 as [<- ->].
  bind_as H s wh Hloop.
  apply ret_Ok_inv in H. destruct H as [H ->]. inversion H; subst; clear H.
  assert (Hnorm : norm = match normalize with Some true => true | _ => false end).
  { destruct normalize as [[|]|].
    - bind_as H2 u wx Hw. apply ret_Ok_inv in H2. destruct H2 as [<- _].
      reflexivity.
    - apply ret_Ok_inv in H2. destruct H2 as [<- _]. reflexivity.
    - apply ret_Ok_inv in H2. destruct H2 as [<- _]. reflexivity. }
  subst norm.
  split; [reflexivity|].
  split; [apply sort_desc_perm|]. split; [apply sort_desc_descending|].
  apply path_loop_array in Hloop; cbn [s_model s_coefs s_dual_gaps s_coef_].
  - destruct Hloop as (results & Htrace & Hcs & Hgs).
    cbn [s_model s_coefs s_dual_gaps s_coef_] in Htrace, Hcs, Hgs.
    exists X0, X1, y1, scaling, wf, results.
    split; [eauto|]. split; [eauto 6|].
    split; [|split].
    + destruct coef_init; exact Htrace.
    + rewrite Hcs. simpl. rewrite skipn_all2, app_nil_r; [reflexivity|].
      rewrite length_map, length_seq. lia.
    + rewrite Hgs. simpl. rewrite skipn_all2, app_nil_r; [reflexivity|].
      unfold np_empty. rewrite length_map, length_seq. lia.
  - reflexivity.
  - rewrite length_map, length_seq. simpl. lia.
  - unfold np_empty. rewrite length_map, length_seq. simpl. lia.
Qed.

End PathTrace.

(** Two alphas and a solver that hands back its starting coefficients with
    the dual gap 1: both slots of [dual_gaps] hold 1. *)
Lemma enet_path_array_mode_trace_witness :
  exists returned coefs dual_gaps w',
    CoordinateDescent.enet_path Demo.keep_design Demo.keep_centred
      Demo.keep_pre_fit Demo.stalled Demo.stalled_sparse Demo.no_intercept
      Demo.stale_memory Demo.X_one Demo.y_one_R 1 None None (Some [2; 1]%R) tt
      None (Some false) (Some false) true None 0 false
      CoordinateDescent.no_params (World [] tt)
    = (Ok (@CoordinateDescent.Path unit unit returned coefs dual_gaps), w') /\
    returned = [2; 1]%R /\ dual_gaps = [1; 1]%R /\ descending returned.
Proof.
  do 4 eexists.
  match goal with |- ?run /\ _ => assert (Hrun : run) end.
  { run_path. reflexivity. }
  split; [exact Hrun|]. split; [reflexivity|]. split; [reflexivity|].
  pose proof Hrun as Hpath. apply enet_path_array_mode_trace in Hpath.
  destruct Hpath as (_ & _ & Hdesc & _). exact Hdesc.
Defined.

(* ================================================================== *)
(** ** stochastic_gradient.py: validation of the hyper-parameters *)

Section SGDValidation.

Import Np SGD.
Local Open Scope Q_scope.
Local Open Scope string_scope.

Lemma lookup_In {A} (k : string) (d : list (string * A)) :
  (exists v, lookup k d = Some v) <-> In k (map fst d).
Proof.
  induction d as [|[k' v'] t IH]; simpl.
  - split; [intros [v H]; discriminate H | intros []].
  - destruct (String.eqb_spec k k') as [->|Hne].
    + split; [intros _; left; reflexivity | intros _; eauto].
    + rewrite IH. split; [auto | intros [E|H]; [congruence | exact H]].
Qed.

Lemma lookup_None {A} (k : string) (d : list (string * A)) :
  lookup k d = None <-> ~ In k (map fst d).
Proof.
  rewrite <- lookup_In. destruct (lookup k d) as [v|].
  - split; [discriminate | intros H; exfalso; apply H; eauto].
  - split; [intros _ [v H]; discriminate H | reflexivity].
Qed.

(** The hyper-parameters that [_validate_params] lets through. *)
Definition valid_params (e : estimator) : Prop :=
  (0 < n_iter e)%Z /\
  0 <= l1_ratio e /\ l1_ratio e <= 1 /\
  0 <= alpha e /\
  (learning_rate e = "constant" \/ learning_rate e = "invscaling" ->
   0 < eta0 e) /\
  In (lower (penalty e)) ["none"; "l2"; "l1"; "elasticnet"] /\
  In (learning_rate e) ["constant"; "optimal"; "invscaling"; "pa1"; "pa2"] /\
  In (loss e)
    ["hinge"; "squared_hinge"; "perceptron"; "log"; "modified_huber";
     "squared_loss"; "huber"; "epsilon_insensitive";
     "squared_epsilon_insensitive"].

Lemma qltb_false (a b : Q) : qltb a b = false <-> b <= a.
Proof.
  unfold qltb. rewrite negb_false_iff. apply Qle_bool_iff.
Qed.

Lemma Qle_bool_false (a b : Q) : Qle_bool a b = false <-> b < a.
Proof.
  split.
  - intros H. apply Qnot_le_lt. intros Hle. apply Qle_bool_iff in Hle.
    congruence.
  - intros H. destruct (Qle_bool a b) eqn:E; [|reflexivity].
    apply Qle_bool_iff in E. exfalso. apply (Qlt_not_le _ _ H E).
Qed.

Lemma schedule_needs_eta0 (lr : string) :
  (lr =? "constant") || (lr =? "invscaling") = true <->
  lr = "constant" \/ lr = "invscaling".
Proof.
  rewrite orb_true_iff, !String.eqb_eq. reflexivity.
Qed.


Lemma _validate_params_Ok (w w' : world estimator) u :
  _validate_params w = (Ok u, w') -> valid_params (ext w) /\ w' = w.
Proof.
  unfold _validate_params, Py.bind, self_. 
  destruct (Z.leb_spec (n_iter (ext w)) 0); [discriminate|].
  destruct (Qle_bool 0 (l1_ratio (ext w))) eqn:Hl0; [|discriminate].
  destruct (Qle_bool (l1_ratio (ext w)) 1) eqn:Hl1; [|discriminate].
  cbn [andb negb].
  destruct (qltb (alpha (ext w)) 0) eqn:Ha; [discriminate|].
  destruct (((learning_rate (ext w) =? "constant")
             || (learning_rate (ext w) =? "invscaling"))
            && Qle_bool (eta0 (ext w)) 0) eqn:He; [discriminate|].
  unfold _get_penalty_type, _get_learning_rate_type.
  destruct (lookup (lower (penalty (ext w))) PENALTY_TYPES) as [v1|] eqn:Hpen;
    [|discriminate].
  destruct (lookup (learning_rate (ext w)) LEARNING_RATE_TYPES) as [v2|] eqn:Hlr;
    [|discriminate].
  destruct (lookup (loss (ext w)) loss_functions) as [v3|] eqn:Hloss;
    [|discriminate].
  unfold Py.ret. intros Hrun. inversion Hrun; subst. split; [|reflexivity].
  repeat split.
  - assumption.
  - apply Qle_bool_iff, Hl0.
  - apply Qle_bool_iff, Hl1.
  - apply qltb_false, Ha.
  - intros Hs. apply schedule_needs_eta0 in Hs. rewrite Hs in He.
    apply Qle_bool_false, He.
  - apply (lookup_In _ PENALTY_TYPES). eauto.
  - apply (lookup_In _ LEARNING_RATE_TYPES). eauto.
  - apply (lookup_In _ loss_functions). eauto.
Qed.


End SGDValidation.


(* ================================================================== *)
(** ** stochastic_gradient.py: what a binary fit hands to the solver *)

Section Frames.

Import Np SGD.

(** A method that leaves the attribute [f] of the estimator as it was. *)
Definition preserves {A B} (f : estimator -> B) (m : Method A) : Prop :=
  forall w a w', m w = (Ok a, w') -> f (ext w') = f (ext w).

Context {B : Type} (f : estimator -> B).

Lemma preserves_bind {A C} (m : Method A) (k : A -> Method C) :
  preserves f m -> (forall a, preserves f (k a)) -> preserves f (Py.bind m k).
Proof.
  intros Hm Hk w b w' H. bind_as H a w1 Hrun.
  rewrite (Hk _ _ _ _ H). apply (Hm _ _ _ Hrun).
Qed.

Lemma preserves_ret {A} (a : A) : preserves f (Py.ret a).
Proof. intros w x w' H. apply ret_Ok_inv in H. destruct H as [_ ->]. reflexivity. Qed.

Lemma preserves_raise {A} e : preserves f (@Py.raise estimator A e).
Proof. intros w x w' H. apply raise_Ok_inv in H. contradiction. Qed.

Lemma preserves_lift {A} (r : result A) : preserves f (Py.lift r).
Proof. intros w x w' H. apply lift_Ok_inv in H. destruct H as [_ ->]. reflexivity. Qed.

Lemma preserves_self : preserves f self_.
Proof. intros w x w' H. unfold self_ in H. inversion H. reflexivity. Qed.

Lemma preserves_assign (g : estimator -> estimator) :
  (forall e, f (g e) = f e) -> preserves f (assign g).
Proof. intros Hg w x w' H. unfold assign in H. inversion H. simpl. apply Hg. Qed.

Lemma preserves_mapM {A C} (k : A -> Method C) (l : list A) :
  (forall a, preserves f (k a)) -> preserves f (Py.mapM k l).
Proof.
  intros Hk. induction l as [|a t IH]; simpl.
  - apply preserves_ret.
  - apply preserves_bind; [apply Hk|]. intros b.
    apply preserves_bind; [exact IH|]. intros bs. apply preserves_ret.
Qed.

End Frames.

(** Follows the structure of a method to show that it preserves an
    attribute; what is left are the assignments to compare. *)
Ltac frame :=
  repeat first
    [ apply preserves_ret | apply preserves_raise | apply preserves_lift
    | apply preserves_self
    | apply preserves_assign; intros ?; reflexivity
    | apply preserves_bind; [|intros ?]
    | apply preserves_mapM; intros ?
    | match goal with
      | |- preserves _ (if ?c then _ else _) => destruct c
      | |- preserves _ (match ?x with _ => _ end) => destruct x
      end ].

Section BinaryFit.

Import Np SGD.
Local Open Scope Q_scope.
Local Open Scope string_scope.

Variable dloss : loss_function -> Q -> Q -> Q.
Variable plain_sgd : sgd_call -> result (list Q * Q).
Variable np_sqrt : Q -> Q.
Variable atleast2d_or_csr : samples -> result samples.
Variable column_or_1d : samples -> result samples.
Variable _check_partial_fit_first_call :
  option (list Z) -> option (list Z) -> result (list Z).
Variable compute_class_weight :
  option (list (Z * Q)) -> list Z -> list nat -> result (list Q).
Variable np_searchsorted : list Z -> list Z -> list nat.

Lemma _check_fit_data_Ok X (w w' : world estimator) u :
  _check_fit_data X w = (Ok u, w') -> w' = w.
Proof.
  unfold _check_fit_data. destruct (shape (values X)) as [|n [|p [|? ?]]];
    try (intros H; apply raise_Ok_inv in H; contradiction).
  destruct (negb _); intros H;
    [apply raise_Ok_inv in H; contradiction|].
  apply ret_Ok_inv in H. destruct H as [_ ->]. reflexivity.
Qed.

Lemma _validate_sample_weight_Ok sw n (w w' : world estimator) r :
  _validate_sample_weight sw n w = (Ok r, w') ->
  r = match sw with Some v => v | None => repeat 1 n end /\
  List.length r = n /\ w' = w.
Proof.
  unfold _validate_sample_weight.
  destruct (Nat.eqb_spec
              (List.length match sw with Some v => v | None => repeat 1 n end) n)
    as [E|E]; cbn [negb]; intros H.
  - apply ret_Ok_inv in H. destruct H as [<- ->]. auto.
  - apply raise_Ok_inv in H. contradiction.
Qed.

Lemma _get_penalty_type_Ok p (w w' : world estimator) v :
  _get_penalty_type p w = (Ok v, w') -> w' = w.
Proof.
  unfold _get_penalty_type. destruct (lookup _ _); intros H.
  - apply ret_Ok_inv in H. destruct H as [_ ->]. reflexivity.
  - apply raise_Ok_inv in H. contradiction.
Qed.

Lemma _get_learning_rate_type_Ok p (w w' : world estimator) v :
  _get_learning_rate_type p w = (Ok v, w') -> w' = w.
Proof.
  unfold _get_learning_rate_type. destruct (lookup _ _); intros H.
  - apply ret_Ok_inv in H. destruct H as [_ ->]. reflexivity.
  - apply raise_Ok_inv in H. contradiction.
Qed.

Lemma attribute_Ok {A} name (v : option A) (w w' : world estimator) a :
  attribute name v w = (Ok a, w') -> v = Some a /\ w' = w.
Proof.
  destruct v as [x|]; simpl; intros H.
  - apply ret_Ok_inv in H. destruct H as [-> ->]. auto.
  - apply raise_Ok_inv in H. contradiction.
Qed.

Lemma weight_at_Ok i (w w' : world estimator) q :
  weight_at i w = (Ok q, w') ->
  nth_error (_expanded_class_weight (ext w)) i = Some q /\ w' = w.
Proof.
  unfold weight_at. intros H. bind_as H e w1 He.
  apply self_Ok_inv in He. destruct He as [-> ->].
  destruct (nth_error _ i) as [x|].
  - apply ret_Ok_inv in H. destruct H as [-> ->]. auto.
  - apply raise_Ok_inv in H. contradiction.
Qed.

(** The labels as [_prepare_fit_binary] encodes them for the class
    [positive]. *)
Definition encode (positive : Z) (labels : list Z) : list Q :=
  map (fun l => if (l =? positive)%Z then 1 else - (1)) labels.

Lemma fit_binary_Ok i X a C lr n pos neg sw (w w' : world estimator) r :
  fit_binary plain_sgd i X a C lr n pos neg sw w = (Ok r, w') ->
  w' = w /\
  exists classes class_i call,
    classes_ (ext w) = Some classes /\ nth_error classes i = Some class_i /\
    plain_sgd call = Ok r /\
    c_y call = encode class_i (labels X) /\
    c_X call = values X /\ c_sparse call = is_sparse X /\
    c_sample_weight call = sw /\ c_n_iter call = n /\ c_alpha call = a /\
    c_C call = C /\ c_t call = t_ (ext w) /\
    c_pos_weight call = pos /\ c_neg_weight call = neg /\
    loss_function_ (ext w) = Some (c_loss call).
Proof.
  unfold fit_binary. intros H.
  bind_as H est w1 He. apply self_Ok_inv in He. destruct He as [-> ->].
  bind_as H classes w2 Hc. apply attribute_Ok in Hc. destruct Hc as [Hc ->].
  bind_as H class_i w3 Hi.
  assert (Hi' : nth_error classes i = Some class_i /\ w3 = w).
  { destruct (nth_error classes i) as [c|].
    - apply ret_Ok_inv in Hi. destruct Hi as [-> ->]. auto.
    - apply raise_Ok_inv in Hi. contradiction. }
  destruct Hi' as [Hci ->]. clear Hi.
  bind_as H coef_all w4 Hcoef. apply attribute_Ok in Hcoef.
  destruct Hcoef as [Hcoef ->].
  bind_as H intercept_all w5 Hint. apply attribute_Ok in Hint.
  destruct Hint as [Hint ->].
  destruct (if (List.length classes =? 2)%nat
            then (data (ravel coef_all), get1 intercept_all 0)
            else (row coef_all i, get1 intercept_all i)) as [coef intercept].
  bind_as H pt w6 Hpt. apply _get_penalty_type_Ok in Hpt. subst w6.
  bind_as H lrt w7 Hlrt. apply _get_learning_rate_type_Ok in Hlrt. subst w7.
  bind_as H lf w8 Hlf. apply attribute_Ok in Hlf. destruct Hlf as [Hlf ->].
  apply lift_Ok_inv in H. destruct H as [Hcall ->].
  split; [reflexivity|].
  exists classes, class_i. eexists.
  split; [exact Hc|]. split; [exact Hci|]. split; [exact Hcall|].
  cbn. repeat split; try reflexivity. exact Hlf.
Qed.

Lemma preserves__allocate_parameter_mem {B} (f : estimator -> B) nc nf ci ii :
  (forall c i e, f (set_parameters c i e) = f e) ->
  preserves f (_allocate_parameter_mem nc nf ci ii).
Proof.
  intros Hf. unfold _allocate_parameter_mem.
  destruct (2 <? nc)%nat;
    (apply preserves_bind; [frame|intros ?];
     apply preserves_bind; [apply preserves_assign; intros ?; apply Hf|intros ?];
     apply preserves_bind; [frame|intros ?];
     apply preserves_assign; intros ?; apply Hf).
Qed.

Lemma preserves__init_t {B} (f : estimator -> B) lf :
  (forall t e, f (set_t_ t e) = f e) ->
  preserves f (_init_t dloss np_sqrt lf).
Proof.
  intros Hf. unfold _init_t. apply preserves_bind; [frame|intros ?].
  apply preserves_assign. intros ?. apply Hf.
Qed.

(** X15.  A [_partial_fit] over two classes that returns has called
    [plain_sgd] once, with the targets encoded as +1 for the second of the
    two sorted classes and -1 for the other, with the sample weights given
    (ones when None), the class weight of the second class as positive and
    that of the first as negative weight, the counter [t_] it started from,
    and the loss selected for [loss]; what the solver returned is stored as
    a [coef_] of shape (1, n) and an [intercept_] of shape (1,). *)
Theorem partial_fit_binary_call
    X a C l lr n cl sw ci ii (w w' : world estimator) u X1 X2 known :
  _partial_fit dloss plain_sgd np_sqrt atleast2d_or_csr column_or_1d
    _check_partial_fit_first_call compute_class_weight np_searchsorted
    X a C l lr n cl sw ci ii w = (Ok u, w') ->
  atleast2d_or_csr X = Ok X1 -> column_or_1d X1 = Ok X2 ->
  _check_partial_fit_first_call (classes_ (ext w)) cl = Ok known ->
  List.length known = 2%nat ->
  exists negative positive cw lf call coef intercept,
    known = [negative; positive] /\
    compute_class_weight (class_weight (ext w)) known
      (np_searchsorted known (labels X2)) = Ok cw /\
    selected_loss (epsilon (ext w)) l = Some lf /\
    plain_sgd call = Ok (coef, intercept) /\
    c_X call = values X2 /\
    c_y call = encode positive (labels X2) /\
    c_sample_weight call
      = match sw with Some v => v | None => repeat 1 (dim 0 (values X2)) end /\
    nth_error cw 1 = Some (c_pos_weight call) /\
    nth_error cw 0 = Some (c_neg_weight call) /\
    c_loss call = lf /\ c_alpha call = a /\ c_n_iter call = n /\
    c_t call = Some (starting_t dloss np_sqrt (ext w) lf) /\
    coef_ (ext w') = Some (Array [1%nat; List.length coef] coef) /\
    intercept_ (ext w') = Some (Array [1%nat] [intercept]).
Proof.
  intros H HX1 HX2 Hknown Hlen.
  pose proof H as Hcount. apply _partial_fit_Ok in Hcount.
  unfold _partial_fit in H.
  bind_as H X1' wa Hv1. apply lift_Ok_inv in Hv1. destruct Hv1 as [Hv1 ->].
  rewrite HX1 in Hv1. inversion Hv1; subst X1'; clear Hv1.
  bind_as H X2' wb Hv2. apply lift_Ok_inv in Hv2. destruct Hv2 as [Hv2 ->].
  rewrite HX2 in Hv2. inversion Hv2; subst X2'; clear Hv2.
  bind_as H u1 w1 K1. apply _check_fit_data_Ok in K1. subst w1.
  bind_as H u2 w2 K2. apply _validate_params_Ok in K2. destruct K2 as [_ ->].
  bind_as H e2 wc He2. apply self_Ok_inv in He2. destruct He2 as [-> ->].
  bind_as H known' wd Hk. apply lift_Ok_inv in Hk. destruct Hk as [Hk ->].
  rewrite Hknown in Hk. inversion Hk; subst known'; clear Hk.
  bind_as H u3 w3 K3. apply assign_Ok_inv in K3. subst w3.
  bind_as H e3 we He3. apply self_Ok_inv in He3. destruct He3 as [-> ->].
  cbn [ext set_classes_ class_weight] in H.
  bind_as H cw wf Hcw. apply lift_Ok_inv in Hcw. destruct Hcw as [Hcw ->].
  bind_as H u4 w4 K4. apply assign_Ok_inv in K4. subst w4.
  cbn [ext warnings] in H.
  bind_as H sw' w5 K5. apply _validate_sample_weight_Ok in K5.
  destruct K5 as (Hsw & _ & ->).
  bind_as H e5 wg He5. apply self_Ok_inv in He5. destruct He5 as [-> ->].
  bind_as H u6 w6 K6.
  set (s5 := set_fit_state
               (loss_function_ (set_classes_ (Some known) (ext w))) cw
               (set_classes_ (Some known) (ext w))) in *.
  assert (F6 : classes_ (ext w6) = Some known /\
               _expanded_class_weight (ext w6) = cw /\
               epsilon (ext w6) = epsilon (ext w) /\
               t_ (ext w6) = t_ (ext w) /\ alpha (ext w6) = alpha (ext w) /\
               learning_rate (ext w6) = learning_rate (ext w)).
  { cbn [ext] in K6.
    assert (P : forall B (f : estimator -> B),
              (forall c i e, f (set_parameters c i e) = f e) ->
              f (ext w6) = f s5).
    { intros B f Hf. destruct (coef_ s5), ci;
        first [ apply ret_Ok_inv in K6; destruct K6 as [_ ->]; reflexivity
              | apply (preserves__allocate_parameter_mem f _ _ _ _ Hf _ _ _ K6) ]. }
    rewrite (P _ classes_), (P _ _expanded_class_weight), (P _ epsilon),
      (P _ t_), (P _ alpha), (P _ learning_rate);
      try (intros; reflexivity).
    repeat split. }
  destruct F6 as (F6c & F6w & F6e & F6t & F6a & F6r). clear K6.
  bind_as H lf wh Hlf. apply _get_loss_function_Ok in Hlf.
  destruct Hlf as [Hlf ->]. rewrite F6e in Hlf.
  bind_as H u7 w7 K7. apply assign_Ok_inv in K7. subst w7.
  bind_as H e7 wi He7. apply self_Ok_inv in He7. destruct He7 as [-> ->].
  cbn [ext warnings] in H.
  bind_as H u8 w8 Hinit.
  set (s7 := set_fit_state (Some lf) (_expanded_class_weight (ext w6)) (ext w6)) in *.
  assert (F8t : t_ (ext w8) = Some (starting_t dloss np_sqrt (ext w) lf)).
  { unfold starting_t. rewrite <- F6t. cbn [ext] in Hinit.
    change (t_ s7) with (t_ (ext w6)) in Hinit.
    destruct (t_ (ext w6)) as [t|] eqn:Et.
    - apply ret_Ok_inv in Hinit. destruct Hinit as [_ ->]. exact Et.
    - apply _init_t_Ok in Hinit. rewrite Hinit. f_equal.
      apply initial_t_reads; [exact F6a | exact F6r]. }
  assert (F8 : classes_ (ext w8) = Some known /\
               _expanded_class_weight (ext w8) = cw /\
               loss_function_ (ext w8) = Some lf).
  { assert (P : forall B (f : estimator -> B),
              (forall t e, f (set_t_ t e) = f e) -> f (ext w8) = f s7).
    { intros B f Hf. cbn [ext t_] in Hinit. destruct (t_ s7).
      - apply ret_Ok_inv in Hinit. destruct Hinit as [_ ->]. reflexivity.
      - apply (preserves__init_t f _ Hf _ _ _ Hinit). }
    rewrite (P _ classes_), (P _ _expanded_class_weight), (P _ loss_function_);
      try (intros; reflexivity).
    unfold s7. cbn. auto. }
  destruct F8 as (F8c & F8w & F8l). clear Hinit.
  rewrite Hlen in H. cbn [Nat.ltb Nat.leb Nat.eqb] in H.
  bind_as H u9 w9 Hfit. unfold _fit_binary in Hfit.
  bind_as Hfit pw wj Hpos. apply weight_at_Ok in Hpos. destruct Hpos as [Hpos ->].
  bind_as Hfit nw wk Hneg. apply weight_at_Ok in Hneg. destruct Hneg as [Hneg ->].
  bind_as Hfit r wl Hcall. destruct r as [coef intercept].
  apply fit_binary_Ok in Hcall.
  destruct Hcall as (-> & classes & class_i & call & Hc & Hci & Hsgd & Hy & HX
                     & _ & Hw & Hn & Ha & _ & Ht & Hp & Hng & Hl).
  apply assign_Ok_inv in Hfit. subst w9.
  bind_as H e9 wm He9. apply self_Ok_inv in He9. destruct He9 as [-> ->].
  bind_as H t wn Ht'. apply attribute_Ok in Ht'. destruct Ht' as [_ ->].
  apply assign_Ok_inv in H. subst w'.
  rewrite F8c in Hc. inversion Hc; subst classes; clear Hc.
  destruct known as [|negative [|positive [|? ?]]]; try discriminate Hlen.
  cbn in Hci. inversion Hci; subst class_i; clear Hci.
  rewrite F8w in Hpos, Hneg. rewrite F8l in Hl. inversion Hl as [Hl'].
  exists negative, positive, cw, lf, call, coef, intercept.
  repeat split; try assumption; try reflexivity.
  - rewrite Hw. exact Hsw.
  - rewrite Hp. exact Hpos.
  - rewrite Hng. exact Hneg.
  - symmetry. exact Hl'.
  - rewrite Ht. exact F8t.
Qed.

Lemma bind_congr {A C} (m : Method A) (k k' : A -> Method C) w :
  (forall a w1, m w = (Ok a, w1) -> k a w1 = k' a w1) ->
  Py.bind m k w = Py.bind m k' w.
Proof.
  intros Hk. unfold Py.bind. destruct (m w) as [[a|e] w1]; [|reflexivity].
  apply Hk. reflexivity.
Qed.

Lemma partial_fit_dispatch X a C l lr n cl sw ci ii (w w' : world estimator) u :
  _partial_fit dloss plain_sgd np_sqrt atleast2d_or_csr column_or_1d
    _check_partial_fit_first_call compute_class_weight np_searchsorted
    X a C l lr n cl sw ci ii w = (Ok u, w') ->
  exists known,
    _check_partial_fit_first_call (classes_ (ext w)) cl = Ok known /\
    (2 <= List.length known)%nat.
Proof.
  unfold _partial_fit. intros H.
  bind_as H X1 wa Hv1. apply lift_Ok_inv in Hv1. destruct Hv1 as [_ ->].
  bind_as H X2 wb Hv2. apply lift_Ok_inv in Hv2. destruct Hv2 as [_ ->].
  bind_as H u1 w1 K1. apply _check_fit_data_Ok in K1. subst w1.
  bind_as H u2 w2 K2. apply _validate_params_Ok in K2. destruct K2 as [_ ->].
  bind_as H e2 wc He2. apply self_Ok_inv in He2. destruct He2 as [-> ->].
  bind_as H known wd Hk. apply lift_Ok_inv in Hk. destruct Hk as [Hk ->].
  exists known. split; [exact Hk|].
  bind_as H u3 w3 K3. bind_as H e3 we He3. bind_as H cw wf Hcw.
  bind_as H u4 w4 K4. bind_as H sw' w5 K5. bind_as H e5 wg He5.
  bind_as H u6 w6 K6. bind_as H lf wh Hlf. bind_as H u7 w7 K7.
  bind_as H e7 wi He7. bind_as H u8 w8 Hinit. bind_as H u9 w9 Hfit.
  destruct (Nat.ltb_spec 2 (List.length known)); [lia|].
  destruct (Nat.eqb_spec (List.length known) 2); [lia|].
  apply raise_Ok_inv in Hfit. contradiction.
Qed.

(** X16.  A classifier cannot be fitted on fewer than two classes: when
    [_check_partial_fit_first_call] leaves fewer than two classes,
    [_partial_fit] does not return normally, and the solver has no part in
    the outcome, which is the same for every [plain_sgd]. *)
Theorem partial_fit_needs_two_classes
    X a C l lr n cl sw ci ii (w : world estimator) known :
  _check_partial_fit_first_call (classes_ (ext w)) cl = Ok known ->
  (List.length known < 2)%nat ->
  (forall u w',
     _partial_fit dloss plain_sgd np_sqrt atleast2d_or_csr column_or_1d
       _check_partial_fit_first_call compute_class_weight np_searchsorted
       X a C l lr n cl sw ci ii w <> (Ok u, w')) /\
  (forall other_sgd,
     _partial_fit dloss other_sgd np_sqrt atleast2d_or_csr column_or_1d
       _check_partial_fit_first_call compute_class_weight np_searchsorted
       X a C l lr n cl sw ci ii w
     = _partial_fit dloss plain_sgd np_sqrt atleast2d_or_csr column_or_1d
         _check_partial_fit_first_call compute_class_weight np_searchsorted
         X a C l lr n cl sw ci ii w).
Proof.
  intros Hknown Hlen. split.
  - intros u w' H. apply partial_fit_dispatch in H.
    destruct H as (known' & Hk & Hge). rewrite Hknown in Hk.
    inversion Hk; subst. lia.
  - intros other_sgd. unfold _partial_fit.
    apply bind_congr. intros X1 wa Hv1.
    apply lift_Ok_inv in Hv1. destruct Hv1 as [_ ->].
    apply bind_congr. intros X2 wb Hv2.
    apply lift_Ok_inv in Hv2. destruct Hv2 as [_ ->].
    apply bind_congr. intros u1 w1 K1. apply _check_fit_data_Ok in K1. subst w1.
    apply bind_congr. intros u2 w2 K2.
    apply _validate_params_Ok in K2. destruct K2 as [_ ->].
    apply bind_congr. intros e2 wc He2.
    apply self_Ok_inv in He2. destruct He2 as [-> ->].
    apply bind_congr. intros known' wd Hk.
    apply lift_Ok_inv in Hk. destruct Hk as [Hk ->].
    rewrite Hknown in Hk. inversion Hk; subst known'; clear Hk.
    do 11 (apply bind_congr; intros ? ? _).
    destruct (Nat.ltb_spec 2 (List.length known)); [lia|].
    destruct (Nat.eqb_spec (List.length known) 2); [lia|].
    reflexivity.
Qed.

End BinaryFit.

(** The two samples labelled 0 and 1: the solver sees the targets -1 and
    +1 and unit sample weights. *)
Lemma partial_fit_binary_call_witness :
  exists call coef intercept,
    Demo.idle_sgd call = Ok (coef, intercept) /\
    SGD.c_y call = [- (1); 1]%Q /\
    SGD.c_sample_weight call = [1; 1]%Q /\
    SGD.c_n_iter call = 1%Z.
Proof.
  pose (run := SGD._partial_fit Demo.hinge_dloss Demo.idle_sgd Exact.sqrt
                 Demo.accept Demo.accept Demo.first_call_classes
                 Demo.uniform_class_weight Demo.searchsorted Demo.X_two
                 (1 # 16) 1 "hinge" "optimal" 1 (Some [0; 1]%Z) None None None
                 (World [] Demo.sgd_optimal)).
  assert (Hrun : run = (Ok tt, snd run)) by (vm_compute; reflexivity).
  unfold run at 1 in Hrun.
  eapply partial_fit_binary_call with (X1 := Demo.X_two) (X2 := Demo.X_two)
    (known := [0; 1]%Z) in Hrun; try reflexivity.
  destruct Hrun as (negative & positive & cw & lf & call & coef & intercept
                    & Hk & _ & _ & Hsgd & _ & Hy & Hsw & _ & _ & _ & _ & Hn & _).
  injection Hk as _ <-.
  exists call, coef, intercept.
  split; [exact Hsgd|]. split; [exact Hy|]. split; [exact Hsw | exact Hn].
Defined.

(** One class only: a solver that always fails and one that always
    succeeds give the same outcome. *)
Lemma partial_fit_needs_two_classes_witness :
  SGD._partial_fit Demo.hinge_dloss (fun _ => Raise LinAlgError) Exact.sqrt
    Demo.accept Demo.accept Demo.first_call_classes
    Demo.uniform_class_weight Demo.searchsorted Demo.X_two
    (1 # 16) 1 "hinge" "optimal" 1 (Some [0]%Z) None None None
    (World [] Demo.sgd_optimal)
  = SGD._partial_fit Demo.hinge_dloss Demo.idle_sgd Exact.sqrt
      Demo.accept Demo.accept Demo.first_call_classes
      Demo.uniform_class_weight Demo.searchsorted Demo.X_two
      (1 # 16) 1 "hinge" "optimal" 1 (Some [0]%Z) None None None
      (World [] Demo.sgd_optimal).
Proof.
  apply (proj2 (partial_fit_needs_two_classes Demo.hinge_dloss Demo.idle_sgd
                  Exact.sqrt Demo.accept Demo.accept Demo.first_call_classes
                  Demo.uniform_class_weight Demo.searchsorted Demo.X_two
                  (1 # 16) 1 "hinge" "optimal" 1%Z (Some [0]%Z) None None None
                  (World [] Demo.sgd_optimal) [0]%Z eq_refl
                  (Nat.lt_succ_diag_r 1))).
Defined.

(** ** stochastic_gradient.py: allocation of the parameters *)

Section Allocation.

Import Np SGD.
Local Open Scope Q_scope.

Lemma shape_eqb_eq (a b : list nat) : shape_eqb a b = true <-> a = b.
Proof.
  unfold shape_eqb. destruct (list_eq_dec Nat.eq_dec a b); split; auto.
  discriminate.
Qed.

Lemma map_zero_seq (s n : nat) : map (fun _ : nat => 0) (seq s n) = repeat 0 n.
Proof.
  revert s. induction n as [|n IH]; intros s; [reflexivity|].
  cbn [seq map repeat]. f_equal. apply IH.
Qed.

Lemma tabulate1_zero n : data (tabulate1 n (fun _ => 0)) = repeat 0 n.
Proof. unfold tabulate1. cbn [data]. apply map_zero_seq. Qed.

Lemma flat_map_zero_seq (p s n : nat) :
  flat_map (fun _ : nat => map (fun _ : nat => 0) (seq 0 p)) (seq s n)
  = repeat 0 (n * p).
Proof.
  revert s. induction n as [|n IH]; intros s; [reflexivity|].
  cbn [seq flat_map Nat.mul]. rewrite IH, map_zero_seq, repeat_app.
  reflexivity.
Qed.

Lemma tabulate2_zero n p :
  data (tabulate2 n p (fun _ _ => 0)) = repeat 0 (n * p).
Proof. unfold tabulate2. cbn [data]. apply flat_map_zero_seq. Qed.

(** What [_allocate_parameter_mem] leaves behind: the two arrays, and the
    rest of the estimator as it was. *)
Lemma _allocate_parameter_mem_Ok nc nf ci ii (w w' : world estimator) u :
  _allocate_parameter_mem nc nf ci ii w = (Ok u, w') ->
  exists c b,
    w' = World (warnings w) (set_parameters (Some c) (Some b) (ext w)) /\
    shape c = (if (2 <? nc)%nat then [nc; nf] else [nf]) /\
    shape b = (if (2 <? nc)%nat then [nc] else [1%nat]) /\
    (ci = None ->
     data c = repeat 0 (if (2 <? nc)%nat then nc * nf else nf)%nat) /\
    (ii = None ->
     data b = repeat 0 (if (2 <? nc)%nat then nc else 1)%nat) /\
    (forall c0, ci = Some c0 -> data c = data c0) /\
    (forall b0, ii = Some b0 -> data b = data b0).
Proof.
  unfold _allocate_parameter_mem. intros H.
  destruct (2 <? nc)%nat.
  - bind_as H c w1 Hc. bind_as H u1 w2 Ha. apply assign_Ok_inv in Ha. subst w2.
    bind_as H b w3 Hb. apply assign_Ok_inv in H. subst w'.
    assert (Hc' : w1 = w /\ shape c = [nc; nf] /\
                  (ci = None -> data c = repeat 0 (nc * nf)) /\
                  (forall c0, ci = Some c0 -> data c = data c0)).
    { destruct ci as [c0|].
      - destruct (shape_eqb (shape c0) [nc; nf]) eqn:E; cbn [negb] in Hc;
          [|apply raise_Ok_inv in Hc; contradiction].
        apply ret_Ok_inv in Hc. destruct Hc as [<- ->].
        apply shape_eqb_eq in E.
        repeat split; [exact E | discriminate | intros ? [= <-]; reflexivity].
      - apply ret_Ok_inv in Hc. destruct Hc as [<- ->].
        repeat split; first [intros _; apply tabulate2_zero | discriminate]. }
    destruct Hc' as (-> & Hcs & Hcz & Hcd).
    assert (Hb' : w3 = World (warnings w)
                         (set_parameters (Some c) (intercept_ (ext w)) (ext w)) /\
                  shape b = [nc] /\
                  (ii = None -> data b = repeat 0 nc) /\
                  (forall b0, ii = Some b0 -> data b = data b0)).
    { destruct ii as [b0|].
      - destruct (shape_eqb (shape b0) [nc]) eqn:E; cbn [negb] in Hb;
          [|apply raise_Ok_inv in Hb; contradiction].
        apply ret_Ok_inv in Hb. destruct Hb as [<- ->].
        apply shape_eqb_eq in E.
        repeat split; [exact E | discriminate | intros ? [= <-]; reflexivity].
      - apply ret_Ok_inv in Hb. destruct Hb as [<- ->].
        repeat split; first [intros _; apply tabulate1_zero | discriminate]. }
    destruct Hb' as (-> & Hbs & Hbz & Hbd).
    exists c, b. cbn. repeat split; assumption.
  - bind_as H c w1 Hc. bind_as H u1 w2 Ha. apply assign_Ok_inv in Ha. subst w2.
    bind_as H b w3 Hb. apply assign_Ok_inv in H. subst w'.
    assert (Hc' : w1 = w /\ shape c = [nf] /\
                  (ci = None -> data c = repeat 0 nf) /\
                  (forall c0, ci = Some c0 -> data c = data c0)).
    { destruct ci as [c0|].
      - destruct (shape_eqb (shape (ravel c0)) [nf]) eqn:E; cbn [negb] in Hc;
          [|apply raise_Ok_inv in Hc; contradiction].
        apply ret_Ok_inv in Hc. destruct Hc as [<- ->].
        apply shape_eqb_eq in E.
        repeat split; [exact E | discriminate | intros ? [= <-]; reflexivity].
      - apply ret_Ok_inv in Hc. destruct Hc as [<- ->].
        repeat split; first [intros _; apply tabulate1_zero | discriminate]. }
    destruct Hc' as (-> & Hcs & Hcz & Hcd).
    assert (Hb' : w3 = World (warnings w)
                         (set_parameters (Some c) (intercept_ (ext w)) (ext w)) /\
                  shape b = [1%nat] /\
                  (ii = None -> data b = repeat 0 1) /\
                  (forall b0, ii = Some b0 -> data b = data b0)).
    { destruct ii as [b0|].
      - destruct (negb (shape_eqb (shape b0) [1%nat])
                  && negb (shape_eqb (shape b0) [])) eqn:E;
          [apply raise_Ok_inv in Hb; contradiction|].
        apply ret_Ok_inv in Hb. destruct Hb as [<- ->].
        repeat split; [discriminate | intros ? [= <-]; reflexivity].
      - apply ret_Ok_inv in Hb. destruct Hb as [<- ->].
        repeat split; first [intros _; apply tabulate1_zero | discriminate]. }
    destruct Hb' as (-> & Hbs & Hbz & Hbd).
    exists c, b. cbn. repeat split; assumption.
Qed.

(** X17.  When [_allocate_parameter_mem] returns, [coef_] and
    [intercept_] are set and have the shapes the dataset requires,
    (n_classes, n_features) and (n_classes,) for more than two classes,
    (n_features,) and (1,) otherwise; initial values that were passed are
    kept (flattened in the binary case), and what was not passed is all
    zeros. *)
Theorem allocate_parameter_mem_shapes nc nf ci ii (w w' : world estimator) u :
  _allocate_parameter_mem nc nf ci ii w = (Ok u, w') ->
  exists c b,
    coef_ (ext w') = Some c /\ intercept_ (ext w') = Some b /\
    shape c = (if (2 <? nc)%nat then [nc; nf] else [nf]) /\
    shape b = (if (2 <? nc)%nat then [nc] else [1%nat]) /\
    (ci = None ->
     data c = repeat 0 (if (2 <? nc)%nat then nc * nf else nf)%nat) /\
    (ii = None ->
     data b = repeat 0 (if (2 <? nc)%nat then nc else 1)%nat) /\
    (forall c0, ci = Some c0 -> data c = data c0) /\
    (forall b0, ii = Some b0 -> data b = data b0).
Proof.
  intros H. apply _allocate_parameter_mem_Ok in H.
  destruct H as (c & b & -> & Hrest). exists c, b.
  split; [reflexivity|]. split; [reflexivity | exact Hrest].
Qed.

End Allocation.

(** Three classes and two features, with initial intercepts. *)
Lemma allocate_parameter_mem_shapes_witness :
  exists c b,
    SGD.coef_ (ext (snd (SGD._allocate_parameter_mem 3 2 None
                           (Some (Np.Array [3%nat] [1; 2; 3]%Q))
                           (World [] Demo.sgd_optimal)))) = Some c /\
    Np.shape c = [3; 2]%nat /\ Np.data c = repeat 0%Q 6 /\
    SGD.intercept_ (ext (snd (SGD._allocate_parameter_mem 3 2 None
                                (Some (Np.Array [3%nat] [1; 2; 3]%Q))
                                (World [] Demo.sgd_optimal)))) = Some b /\
    Np.data b = [1; 2; 3]%Q.
Proof.
  pose (run := SGD._allocate_parameter_mem 3 2 None
                 (Some (Np.Array [3%nat] [1; 2; 3]%Q))
                 (World [] Demo.sgd_optimal)).
  assert (Hrun : run = (Ok tt, snd run)) by (vm_compute; reflexivity).
  unfold run at 1 in Hrun.
  apply allocate_parameter_mem_shapes in Hrun.
  destruct Hrun as (c & b & Hc & Hb & Hcs & _ & Hcz & _ & _ & Hbd).
  exists c, b. fold run.
  split; [exact Hc|]. split; [exact Hcs|]. split; [exact (Hcz eq_refl)|].
  split; [exact Hb|]. exact (Hbd _ eq_refl).
Defined.

(** ** stochastic_gradient.py: probability estimates *)

Module SGDProba.

Import Np SGD.
Local Open Scope Q_scope.
Local Open Scope string_scope.

(** What [decision_function] returns (it is inherited from
    [LinearClassifierMixin]): the confidence scores, an array of shape
    (n_samples,) or a 2-D array of shape (n_samples, n_columns). *)
Inductive scores : Type :=
| Scores1 (s : list Q)
| Scores2 (s : ndarray).

Definition n_samples (s : scores) : nat :=
  match s with
  | Scores1 v => List.length v
  | Scores2 a => dim 0 a
  end.

(** The outcomes of [predict_proba]: an array, an array holding [inf] (a
    division by zero, which the rationals cannot hold), an exception, or
    [NotImplementedError]. *)
Inductive outcome : Type :=
| Proba (p : ndarray)
| NotFinite
| Failed (e : exn)
| NotImplementedError (msg : string).

Definition qmin (a b : Q) : Q := if Qle_bool a b then a else b.
(** [np.clip(x, lo, hi)]. *)
Definition clip (lo hi x : Q) : Q := qmin (qmax x lo) hi.

(** [np.clip(scores, -1, 1, prob); prob += 1.; prob /= 2.] on one score. *)
Definition half_clipped (x : Q) : Q := (clip (-1) 1 x + 1) / 2.

(** One row of the multi-class normalisation: a row that sums to zero is
    set to ones and its sum to [len(self.classes_)]; every row is divided
    by its sum. *)
Definition normalize (n_classes : nat) (r : list Q) : list Q :=
  let prob_sum := qsum r in
  if Qeq_bool prob_sum 0
  then map (fun _ => 1 / inject_Z (Z.of_nat n_classes)) r
  else map (fun x => x / prob_sum) r.

Section PredictProba.

Variable design : Type.
Variable decision_function : design -> result scores.
Variable _predict_proba_lr : design -> result ndarray.
(** [%r] of a string. *)
Variable repr : string -> string.

Definition predict_proba (e : estimator) (X : design) : outcome :=
  if loss e =? "log" then
    match _predict_proba_lr X with
    | Ok p => Proba p
    | Raise ex => Failed ex
    end
  else if loss e =? "modified_huber" then
    match classes_ e with
    | None => Failed (TypeError "object of type 'NoneType' has no len()")
    | Some classes =>
        let binary := (List.length classes =? 2)%nat in
        match decision_function X with
        | Raise ex => Failed ex
        | Ok (Scores1 s) =>
            if binary then
              (* prob2 = np.ones((n, 2)); prob = prob2[:, 1];
                 prob2[:, 0] -= prob *)
              let prob := map half_clipped s in
              Proba (tabulate2 (List.length s) 2
                       (fun i j => if (j =? 0)%nat then 1 - nth i prob 0
                                   else nth i prob 0))
            else
              (* prob.sum(axis=1) of a 1-D array *)
              Failed (ValueError "axis(=1) out of bounds")
        | Ok (Scores2 s) =>
            if binary then
              (* np.clip with an output of shape (n,) *)
              Failed (ValueError "clip: Output array must have thesame shape as the input.")
            else
              let prob := map (map half_clipped) (rows s) in
              if (dim 0 s =? 0)%nat then
                (* prob_sum.reshape((0, -1)) *)
                Failed (ValueError "total size of new array must be unchanged")
              else if (List.length classes =? 0)%nat
                      && negb (dim 1 s =? 0)%nat
                      && existsb (fun r => Qeq_bool (qsum r) 0) prob then
                NotFinite
              else
                Proba (tabulate2 (dim 0 s) (dim 1 s)
                         (fun i j =>
                            nth j (normalize (List.length classes)
                                     (nth i prob [])) 0))
        end
    end
  else
    NotImplementedError
      ("predict_(log_)proba only supported when loss='log' or loss='modified_huber' ("
       ++ repr (loss e) ++ " given)").

End PredictProba.

Arguments predict_proba {design} _ _ _ _ _.

End SGDProba.

Section ProbaFacts.

Import Np SGD SGDProba.
Local Open Scope Q_scope.

Variable design : Type.
Variable decision_function : design -> result scores.
Variable _predict_proba_lr : design -> result ndarray.
Variable repr : string -> string.

Lemma nth_flat_map_rows (g : nat -> list Q) (p : nat) :
  (forall i, List.length (g i) = p) ->
  forall n s i j, (i < n)%nat -> (j < p)%nat ->
  nth (i * p + j) (flat_map g (seq s n)) 0 = nth j (g (s + i)%nat) 0.
Proof.
  intros Hg. induction n as [|n IH]; intros s i j Hi Hj; [lia|].
  cbn [seq flat_map]. destruct i as [|i].
  - cbn [Nat.mul Nat.add]. rewrite app_nth1 by (rewrite Hg; exact Hj).
    rewrite Nat.add_0_r. reflexivity.
  - rewrite app_nth2 by (rewrite Hg; cbn [Nat.mul]; lia).
    rewrite Hg. replace (S i * p + j - p)%nat with (i * p + j)%nat
      by (cbn [Nat.mul]; lia).
    rewrite IH by lia. f_equal. f_equal. lia.
Qed.

Lemma row_tabulate2 (n p : nat) (f : nat -> nat -> Q) (i : nat) :
  (i < n)%nat -> row (tabulate2 n p f) i = map (f i) (seq 0 p).
Proof.
  intros Hi. unfold row, get2, dim, tabulate2. cbn [shape data nth].
  apply map_ext_in. intros j Hj. apply in_seq in Hj.
  rewrite (nth_flat_map_rows (fun i => map (f i) (seq 0 p)) p)
    by (try (intros; rewrite length_map, length_seq; reflexivity); lia).
  cbn [Nat.add].
  rewrite (nth_indep _ 0 (f i 0%nat)) by (rewrite length_map, length_seq; lia).
  rewrite map_nth, seq_nth by lia. reflexivity.
Qed.

Lemma clip_bounds_unit (x : Q) : -1 <= clip (-1) 1 x /\ clip (-1) 1 x <= 1.
Proof.
  unfold clip, qmin, qmax.
  destruct (Qle_bool x (-1)) eqn:E1.
  - destruct (Qle_bool (-1) 1) eqn:E2; split; try Lqa.lra.
  - assert (H1 : ~ x <= -1)
      by (intros H; apply Qle_bool_iff in H; congruence).
    destruct (Qle_bool x 1) eqn:E2.
    + apply Qle_bool_iff in E2. split; Lqa.lra.
    + split; Lqa.lra.
Qed.

Lemma half_clipped_bounds (x : Q) : 0 <= half_clipped x /\ half_clipped x <= 1.
Proof.
  unfold half_clipped. destruct (clip_bounds_unit x) as [Hl Hu].
  split.
  - apply Qle_shift_div_l; Lqa.lra.
  - apply Qle_shift_div_r; Lqa.lra.
Qed.

Lemma qsum_nonneg (l : list Q) : Forall (fun x => 0 <= x) l -> 0 <= qsum l.
Proof.
  induction 1 as [|x l Hx _ IH]; cbn [qsum fold_right]; [Lqa.lra|].
  fold (qsum l). Lqa.lra.
Qed.

Lemma qsum_bounds_entry (l : list Q) :
  Forall (fun x => 0 <= x) l -> Forall (fun x => x <= qsum l) l.
Proof.
  induction 1 as [|x l Hx Hl IH]; constructor.
  - cbn [qsum fold_right]. fold (qsum l). pose proof (qsum_nonneg l Hl). Lqa.lra.
  - eapply Forall_impl; [|exact IH]. cbn beta. intros y Hy.
    cbn [qsum fold_right]. fold (qsum l). Lqa.lra.
Qed.

Lemma qsum_map_div (l : list Q) (s : Q) :
  qsum (map (fun x => x / s) l) == qsum l / s.
Proof.
  induction l as [|x l IH]; cbn [map qsum fold_right].
  - unfold Qdiv. ring.
  - fold (qsum l). fold (qsum (map (fun x => x / s) l)). rewrite IH.
    unfold Qdiv. ring.
Qed.

Lemma qsum_map_const (A : Type) (l : list A) (c : Q) :
  qsum (map (fun _ => c) l) == inject_Z (Z.of_nat (List.length l)) * c.
Proof.
  induction l as [|x l IH].
  - cbn. ring.
  - cbn [map qsum fold_right List.length].
    fold (qsum (map (fun _ => c) l)). rewrite IH.
    rewrite Nat2Z.inj_succ. unfold Z.succ. rewrite inject_Z_plus. ring.
Qed.

(** A normalised row of non-negative entries, as long as the classes, is a
    probability distribution. *)
Lemma normalize_distribution (k : nat) (r : list Q) :
  k <> 0%nat -> List.length r = k -> Forall (fun x => 0 <= x) r ->
  qsum (normalize k r) == 1 /\
  Forall (fun x => 0 <= x /\ x <= 1) (normalize k r).
Proof.
  intros Hk Hlen Hpos. unfold normalize.
  assert (Hkq : 0 < inject_Z (Z.of_nat k)).
  { change 0 with (inject_Z 0). rewrite <- Zlt_Qlt. lia. }
  destruct (Qeq_bool (qsum r) 0) eqn:E.
  - split.
    + rewrite qsum_map_const, Hlen. field. Lqa.lra.
    + apply Forall_forall. intros x Hx. apply in_map_iff in Hx.
      destruct Hx as (y & <- & _). split.
      * apply Qle_shift_div_l; [exact Hkq | Lqa.lra].
      * apply Qle_shift_div_r; [exact Hkq|].
        assert (1 <= inject_Z (Z.of_nat k)).
        { change 1 with (inject_Z 1). rewrite <- Zle_Qle. lia. }
        Lqa.lra.
  - assert (Hne : ~ qsum r == 0)
      by (intros H; apply Qeq_bool_iff in H; congruence).
    pose proof (qsum_nonneg r Hpos) as Hs.
    assert (Hsp : 0 < qsum r) by Lqa.lra.
    split.
    + rewrite qsum_map_div. field. exact Hne.
    + apply Forall_forall. intros x Hx. apply in_map_iff in Hx.
      destruct Hx as (y & <- & Hy). split.
      * apply Qle_shift_div_l; [exact Hsp|].
        rewrite Forall_forall in Hpos. specialize (Hpos y Hy). Lqa.lra.
      * apply Qle_shift_div_r; [exact Hsp|].
        pose proof (qsum_bounds_entry r Hpos) as Hb.
        rewrite Forall_forall in Hb. specialize (Hb y Hy). Lqa.lra.
Qed.

Lemma length_normalize (k : nat) (r : list Q) :
  List.length (normalize k r) = List.length r.
Proof.
  unfold normalize. destruct (Qeq_bool (qsum r) 0); apply length_map.
Qed.

Lemma nth_half_clipped (s : list Q) (i : nat) :
  nth i (map half_clipped s) 0 = half_clipped (nth i s 0) \/
  nth i (map half_clipped s) 0 = 0.
Proof.
  destruct (Nat.lt_ge_cases i (List.length s)) as [Hi|Hi].
  - left. rewrite (nth_indep _ 0 (half_clipped 0))
      by (rewrite length_map; exact Hi).
    apply map_nth.
  - right. apply nth_overflow. rewrite length_map. exact Hi.
Qed.

(** X18.  With loss 'modified_huber', classes fitted, and decision scores
    of the shape that goes with them ((n_samples,) for two classes, a
    non-empty (n_samples, n_classes) otherwise), [predict_proba] returns
    an array of shape (n_samples, n_classes) whose rows are probability
    distributions: every entry lies in [0, 1] and every row sums to 1,
    the rows whose clipped scores are all zero included. *)
Theorem predict_proba_rows_are_distributions
    (e : estimator) (X : design) (classes : list Z) (s : scores) :
  loss e = "modified_huber"%string ->
  classes_ e = Some classes -> classes <> [] ->
  decision_function X = Ok s ->
  match s with
  | Scores1 _ => List.length classes = 2%nat
  | Scores2 a => List.length classes <> 2%nat /\
                 dim 1 a = List.length classes /\ dim 0 a <> 0%nat
  end ->
  exists p,
    predict_proba decision_function _predict_proba_lr repr e X = Proba p /\
    shape p = [n_samples s; List.length classes] /\
    forall i, (i < n_samples s)%nat ->
      qsum (row p i) == 1 /\ Forall (fun x => 0 <= x /\ x <= 1) (row p i).
Proof.
  intros Hloss Hcl Hne Hs Hshape.
  unfold predict_proba. rewrite Hloss, Hcl, Hs.
  cbn [String.eqb Ascii.eqb Bool.eqb andb].
  destruct s as [v|a]; cbn [n_samples].
  - rewrite Hshape, Nat.eqb_refl. eexists. split; [reflexivity|].
    split; [reflexivity|].
    intros i Hi. rewrite row_tabulate2 by exact Hi.
    cbn [seq map Nat.eqb qsum fold_right].
    assert (Hb : 0 <= nth i (map half_clipped v) 0 <= 1).
    { rewrite (nth_indep _ 0 (half_clipped 0))
        by (rewrite length_map; exact Hi).
      rewrite map_nth. apply half_clipped_bounds. }
    split; [ring|].
    repeat constructor; Lqa.lra.
  - destruct Hshape as (Hnb & Hk & Hn).
    apply Nat.eqb_neq in Hnb. rewrite Hnb.
    apply Nat.eqb_neq in Hn. rewrite Hn.
    assert (Hl : (List.length classes =? 0)%nat = false).
    { apply Nat.eqb_neq. destruct classes; [congruence | discriminate]. }
    rewrite Hl. cbn [andb].
    eexists. split; [reflexivity|].
    split; [cbn [shape tabulate2]; rewrite Hk; reflexivity|].
    intros i Hi. rewrite row_tabulate2 by exact Hi.
    assert (Hrow : nth i (map (map half_clipped) (rows a)) []
                   = map half_clipped (row a i)).
    { unfold rows. rewrite map_map.
      rewrite (nth_indep _ [] (map half_clipped (row a 0%nat)))
        by (rewrite length_map, length_seq; exact Hi).
      rewrite (map_nth (fun i => map half_clipped (row a i))).
      rewrite seq_nth by exact Hi. reflexivity. }
    rewrite Hrow.
    assert (Hlen : List.length (map half_clipped (row a i)) = dim 1 a).
    { unfold row. rewrite !length_map, length_seq. reflexivity. }
    rewrite <- (length_normalize (List.length classes)) in Hlen.
    rewrite <- Hlen, map_nth_seq.
    apply normalize_distribution.
    + apply Nat.eqb_neq. exact Hl.
    + rewrite <- Hk. rewrite length_normalize in Hlen. exact Hlen.
    + apply Forall_forall. intros x Hx. apply in_map_iff in Hx.
      destruct Hx as (y & <- & _). apply half_clipped_bounds.
Qed.

End ProbaFacts.

Module ProbaDemo.

(** A fitted three-class 'modified_huber' classifier, and decision scores
    for two samples, the second with every score below -1. *)
Definition huber : SGD.estimator :=
  SGD.Estimator "modified_huber" "l2" "optimal" (1 # 10) (1 # 16) (3 # 20)
    true 5 false None 0 0 (1 # 2) false None (Some [0; 1; 2]%Z)
    (Some (Np.Array [3%nat; 1%nat] [1; 0; -1]%Q))
    (Some (Np.Array [3%nat] [0; 0; 0]%Q)) (Some 6%Q) None [].
Definition confidences : SGDProba.scores :=
  SGDProba.Scores2 (Np.Array [2%nat; 3%nat] [1 # 2; -3; 0; -2; -1; -5]%Q).
Definition decision_function (_ : unit) : result SGDProba.scores :=
  Ok confidences.
Definition no_lr (_ : unit) : result Np.ndarray := Raise LinAlgError.
Definition repr (s : string) : string := s.

End ProbaDemo.

Lemma predict_proba_rows_are_distributions_witness :
  exists p,
    SGDProba.predict_proba ProbaDemo.decision_function ProbaDemo.no_lr
      ProbaDemo.repr ProbaDemo.huber tt = SGDProba.Proba p /\
    Np.shape p = [2; 3]%nat /\
    forall i, (i < 2)%nat ->
      (Np.qsum (Np.row p i) == 1)%Q /\
      Forall (fun x => (0 <= x)%Q /\ (x <= 1)%Q) (Np.row p i).
Proof.
  apply (predict_proba_rows_are_distributions unit ProbaDemo.decision_function
           ProbaDemo.no_lr ProbaDemo.repr ProbaDemo.huber tt [0; 1; 2]%Z
           ProbaDemo.confidences).
  - reflexivity.
  - reflexivity.
  - discriminate.
  - reflexivity.
  - split; [discriminate|]. split; [reflexivity | discriminate].
Defined.

(** ** stochastic_gradient.py: the regressor *)

Module SGDRegressor.

Import Np SGD.
Local Open Scope Q_scope.
Local Open Scope py_scope.
Local Open Scope string_scope.

(** [BaseSGDRegressor.loss_functions]. *)
Definition loss_functions : list (string * loss_function) :=
  [("squared_loss", (SquaredLoss, []));
   ("huber", (Huber, [DEFAULT_EPSILON]));
   ("epsilon_insensitive", (EpsilonInsensitive, [DEFAULT_EPSILON]));
   ("squared_epsilon_insensitive", (SquaredEpsilonInsensitive, [DEFAULT_EPSILON]))].

(** The training data: [X] with its shape and storage, the targets [y]. *)
Record training : Type := Training {
  X_values : ndarray;
  X_sparse : bool;
  y_values : list Q
}.

Section Training.

(** From [sgd_fast], [utils] and numpy. *)
Variable dloss : loss_function -> Q -> Q -> Q.
Variable plain_sgd : sgd_call -> result (list Q * Q).
Variable np_sqrt : Q -> Q.
Variable check_arrays : training -> result training.
(** [column_or_1d(y, warn=True)], with the warnings it issues. *)
Variable column_or_1d : training -> result training * list warning.

Definition call {A} (r : result A * list warning) : Method A :=
  fun w => (fst r, World (warnings w ++ snd r) (ext w)).

(** [BaseSGD._validate_params], on the loss table of the regressor. *)
Definition _validate_params : Method unit :=
  self <- self_ ;;
  if (n_iter self <=? 0)%Z then raise (ValueError "n_iter must be > zero")
  else if negb (Qle_bool 0 (l1_ratio self) && Qle_bool (l1_ratio self) 1)
  then raise (ValueError "l1_ratio must be in [0, 1]")
  else if qltb (alpha self) 0 then raise (ValueError "alpha must be >= 0")
  else if ((learning_rate self =? "constant") || (learning_rate self =? "invscaling"))
          && Qle_bool (eta0 self) 0
  then raise (ValueError "eta0 must be > 0")
  else
    (* raises ValueError if not registered *)
    _get_penalty_type (penalty self) ;;;
    _get_learning_rate_type (learning_rate self) ;;;
    match lookup (loss self) loss_functions with
    | Some _ => ret tt
    | None => raise (ValueError "The loss is not supported. ")
    end.

(** [BaseSGD._get_loss_function], on the loss table of the regressor. *)
Definition _get_loss_function (loss : string) : Method loss_function :=
  self <- self_ ;;
  match lookup loss loss_functions with
  | Some (loss_class, args) =>
      let args := if (loss =? "huber") || (loss =? "epsilon_insensitive")
                     || (loss =? "squared_epsilon_insensitive")
                  then [epsilon self] else args in
      ret (loss_class, args)
  | None => raise (ValueError "The loss is not supported. ")
  end.

Definition _check_fit_data (X : training) : Method unit :=
  match shape (X_values X) with
  | [n_samples; _] =>
      if negb (n_samples =? List.length (y_values X))%nat
      then raise (ValueError "Shapes of X and y do not match.")
      else ret tt
  | _ => raise (ValueError "wrong number of values to unpack")
  end.

Definition _fit_regressor (X : training) (alpha C : Q)
    (loss learning_rate : string) (sample_weight : list Q) (n_iter : Z)
  : Method unit :=
  (* _make_dataset *)
  let intercept_decay := if X_sparse X then SPARSE_INTERCEPT_DECAY else 1 in
  loss_function <- _get_loss_function loss ;;
  self <- self_ ;;
  penalty_type <- _get_penalty_type (penalty self) ;;
  learning_rate_type <- _get_learning_rate_type learning_rate ;;
  (match t_ self with
   | None => _init_t dloss np_sqrt loss_function
   | Some _ => ret tt
   end) ;;;
  self <- self_ ;;
  intercept_all <- attribute "intercept_" (intercept_ self) ;;
  intercept <- (match data intercept_all with
                | b :: _ => ret b
                | [] => raise (IndexError "index out of bounds")
                end) ;;
  coef <- attribute "coef_" (coef_ self) ;;
  '(coef, intercept) <-
    lift (plain_sgd
            (SgdCall (data coef) intercept loss_function penalty_type alpha C
               (l1_ratio self) (X_values X) (X_sparse X) (y_values X)
               sample_weight n_iter
               (if fit_intercept self then 1 else 0)%Z (verbose self)
               (if shuffle self then 1 else 0)%Z (random_state self)
               1 1 learning_rate_type (eta0 self) (power_t self) (t_ self)
               intercept_decay)) ;;
  (* np.atleast_1d(intercept) *)
  assign (set_parameters (Some (vector coef)) (Some (Array [1%nat] [intercept]))).

Definition _partial_fit (X : training) (alpha C : Q)
    (loss learning_rate : string) (n_iter : Z)
    (sample_weight : option (list Q))
    (coef_init intercept_init : option ndarray) : Method unit :=
  X <- lift (check_arrays X) ;;
  X <- call (column_or_1d X) ;;
  let n_samples := dim 0 (X_values X) in
  let n_features := dim 1 (X_values X) in
  _check_fit_data X ;;;
  _validate_params ;;;
  (* Allocate datastructures from input arguments *)
  sample_weight <- _validate_sample_weight sample_weight n_samples ;;
  self <- self_ ;;
  (match coef_ self with
   | None => _allocate_parameter_mem 1 n_features coef_init intercept_init
   | Some _ => ret tt
   end) ;;;
  _fit_regressor X alpha C loss learning_rate sample_weight n_iter ;;;
  self <- self_ ;;
  t <- attribute "t_" (t_ self) ;;
  assign (set_t_ (Some (t + inject_Z (n_iter * Z.of_nat n_samples)))).

Definition partial_fit (X : training) (sample_weight : option (list Q))
  : Method unit :=
  self <- self_ ;;
  _partial_fit X (alpha self) 1 (loss self) (learning_rate self) 1
    sample_weight None None.

Definition _fit (X : training) (alpha C : Q) (loss learning_rate : string)
    (coef_init intercept_init : option ndarray)
    (sample_weight : option (list Q)) : Method unit :=
  self <- self_ ;;
  '(coef_init, intercept_init) <-
    (match warm_start self, coef_ self with
     | true, Some c =>
         ret (match coef_init with None => Some c | Some c' => Some c' end,
              match intercept_init with
              | None => intercept_ self
              | Some b => Some b
              end)
     | _, _ =>
         assign (set_parameters None None) ;;;
         ret (coef_init, intercept_init)
     end) ;;
  (* Clear iteration count for multiple call to fit. *)
  assign (set_t_ None) ;;;
  self <- self_ ;;
  _partial_fit X alpha C loss learning_rate (n_iter self) sample_weight
    coef_init intercept_init.

Definition fit (X : training) (coef_init intercept_init : option ndarray)
    (sample_weight : option (list Q)) : Method unit :=
  self <- self_ ;;
  _fit X (alpha self) 1 (loss self) (learning_rate self) coef_init
    intercept_init sample_weight.

End Training.

End SGDRegressor.

Section RegressorFacts.

Import Np SGD SGDRegressor.
Local Open Scope Q_scope.
Local Open Scope string_scope.

Variable dloss : loss_function -> Q -> Q -> Q.
Variable plain_sgd : sgd_call -> result (list Q * Q).
Variable np_sqrt : Q -> Q.
Variable check_arrays : training -> result training.
Variable column_or_1d : training -> result training * list warning.

Lemma call_Ok_inv {A} (r : result A * list warning) (w w' : world estimator) a :
  call r w = (Ok a, w') ->
  fst r = Ok a /\ w' = World (warnings w ++ snd r) (ext w).
Proof. unfold call. intros H. inversion H. split; reflexivity. Qed.

Lemma regressor_check_fit_data_Ok X (w w' : world estimator) u :
  SGDRegressor._check_fit_data X w = (Ok u, w') -> w' = w.
Proof.
  unfold SGDRegressor._check_fit_data.
  destruct (shape (X_values X)) as [|n [|p [|? ?]]];
    try (intros H; apply raise_Ok_inv in H; contradiction).
  destruct (negb _); intros H;
    [apply raise_Ok_inv in H; contradiction|].
  apply ret_Ok_inv in H. destruct H as [_ ->]. reflexivity.
Qed.

Lemma regressor_validate_params_Ok (w w' : world estimator) u :
  SGDRegressor._validate_params w = (Ok u, w') -> w' = w.
Proof.
  unfold SGDRegressor._validate_params. intros H.
  bind_as H e w1 He. apply self_Ok_inv in He. destruct He as [-> ->].
  repeat match type of H with
         | (if ?c then _ else _) _ = _ =>
             destruct c; [apply raise_Ok_inv in H; contradiction|]
         end.
  bind_as H p w2 Hp. apply _get_penalty_type_Ok in Hp. subst w2.
  bind_as H l w3 Hl. apply _get_learning_rate_type_Ok in Hl. subst w3.
  destruct (lookup _ _).
  - apply ret_Ok_inv in H. destruct H as [_ ->]. reflexivity.
  - apply raise_Ok_inv in H. contradiction.
Qed.

(** The loss object that the regressor builds for a loss name. *)
Definition regression_loss (eps : Q) (l : string) : option loss_function :=
  if l =? "squared_loss" then Some (SquaredLoss, [])
  else if l =? "huber" then Some (Huber, [eps])
  else if l =? "epsilon_insensitive" then Some (EpsilonInsensitive, [eps])
  else if l =? "squared_epsilon_insensitive"
       then Some (SquaredEpsilonInsensitive, [eps])
  else None.

Lemma regressor_get_loss_function_Ok l (w w' : world estimator) lf :
  SGDRegressor._get_loss_function l w = (Ok lf, w') ->
  regression_loss (epsilon (ext w)) l = Some lf /\ w' = w.
Proof.
  unfold SGDRegressor._get_loss_function, regression_loss. intros H.
  bind_as H e w1 He. apply self_Ok_inv in He. destruct He as [-> ->].
  unfold SGDRegressor.loss_functions in H. cbn [lookup] in H.
  destruct (String.eqb_spec l "squared_loss") as [->|_].
  { apply ret_Ok_inv in H. destruct H as [<- ->]. split; reflexivity. }
  destruct (String.eqb_spec l "huber") as [->|_].
  { apply ret_Ok_inv in H. destruct H as [<- ->]. split; reflexivity. }
  destruct (String.eqb_spec l "epsilon_insensitive") as [->|_].
  { apply ret_Ok_inv in H. destruct H as [<- ->]. split; reflexivity. }
  destruct (String.eqb_spec l "squared_epsilon_insensitive") as [->|_].
  { apply ret_Ok_inv in H. destruct H as [<- ->]. split; reflexivity. }
  apply raise_Ok_inv in H. contradiction.
Qed.

(** One training pass of the regressor. *)
Lemma _fit_regressor_Ok X a C l lr sw n (w w' : world estimator) u :
  _fit_regressor dloss plain_sgd np_sqrt X a C l lr sw n w = (Ok u, w') ->
  exists lf c b call coef intercept,
    regression_loss (epsilon (ext w)) l = Some lf /\
    coef_ (ext w) = Some c /\ intercept_ (ext w) = Some b /\
    plain_sgd call = Ok (coef, intercept) /\
    c_coef call = data c /\
    c_X call = X_values X /\ c_y call = y_values X /\
    c_sample_weight call = sw /\
    c_pos_weight call = 1 /\ c_neg_weight call = 1 /\
    c_loss call = lf /\ c_alpha call = a /\ c_n_iter call = n /\
    c_t call = Some (starting_t dloss np_sqrt (ext w) lf) /\
    coef_ (ext w') = Some (vector coef) /\
    intercept_ (ext w') = Some (Array [1%nat] [intercept]) /\
    t_ (ext w') = Some (starting_t dloss np_sqrt (ext w) lf) /\
    warnings w' = warnings w.
Proof.
  unfold _fit_regressor. intros H.
  bind_as H lf w1 Hlf. apply regressor_get_loss_function_Ok in Hlf.
  destruct Hlf as [Hlf ->].
  bind_as H e w2 He. apply self_Ok_inv in He. destruct He as [-> ->].
  bind_as H pty w3 Hp. apply _get_penalty_type_Ok in Hp. subst w3.
  bind_as H lrt w4 Hl. apply _get_learning_rate_type_Ok in Hl. subst w4.
  bind_as H u1 w5 Hinit.
  assert (Hw5 : t_ (ext w5) = Some (starting_t dloss np_sqrt (ext w) lf) /\
                coef_ (ext w5) = coef_ (ext w) /\
                intercept_ (ext w5) = intercept_ (ext w) /\
                warnings w5 = warnings w).
  { unfold starting_t. destruct (t_ (ext w)) as [t|] eqn:Et.
    - apply ret_Ok_inv in Hinit. destruct Hinit as [_ ->].
      repeat split. exact Et.
    - unfold _init_t in Hinit.
      bind_as Hinit e0 w0 He0. apply self_Ok_inv in He0.
      destruct He0 as [-> ->]. apply assign_Ok_inv in Hinit. subst w5.
      repeat split. }
  clear Hinit. destruct Hw5 as (Ht5 & Hc5 & Hb5 & Hwarn5).
  bind_as H e5 w6 He5. apply self_Ok_inv in He5. destruct He5 as [-> ->].
  bind_as H b w7 Hb. apply attribute_Ok in Hb. destruct Hb as [Hb ->].
  bind_as H b0 w8 Hb0.
  assert (Hw8 : w8 = w5).
  { destruct (data b).
    - apply raise_Ok_inv in Hb0. contradiction.
    - apply ret_Ok_inv in Hb0. destruct Hb0 as [_ ->]. reflexivity. }
  clear Hb0. subst w8.
  bind_as H c w9 Hc. apply attribute_Ok in Hc. destruct Hc as [Hc ->].
  bind_as H fitted w10 Hsgd. apply lift_Ok_inv in Hsgd.
  destruct Hsgd as [Hsgd ->]. destruct fitted as [coef intercept].
  apply assign_Ok_inv in H. subst w'.
  exists lf, c, b. eexists. exists coef, intercept.
  split; [exact Hlf|].
  split; [rewrite <- Hc5; exact Hc|].
  split; [rewrite <- Hb5; exact Hb|].
  split; [exact Hsgd|].
  cbn. repeat split; first [exact Ht5 | exact Hwarn5].
Qed.

(** X19.  A [_partial_fit] of the regressor that returns has called
    [plain_sgd] once, on the validated data, with both class weights 1.0,
    the sample weights given (ones when None), the loss built for the
    loss name, and the counter it started from ([t_], or its initial
    value when [t_] is None); it continues from a [coef_] that is already
    there and otherwise from [coef_init] or zeros; it stores what the
    solver returned as [coef_] and an [intercept_] of shape (1,), advances
    [t_] by n_iter * n_samples, and adds the warnings of [column_or_1d]
    only. *)
Theorem regressor_partial_fit_call
    X a C l lr n sw ci ii (w w' : world estimator) u X1 X2 ws :
  SGDRegressor._partial_fit dloss plain_sgd np_sqrt check_arrays column_or_1d
    X a C l lr n sw ci ii w = (Ok u, w') ->
  check_arrays X = Ok X1 -> column_or_1d X1 = (Ok X2, ws) ->
  exists lf call coef intercept,
    regression_loss (epsilon (ext w)) l = Some lf /\
    plain_sgd call = Ok (coef, intercept) /\
    c_X call = X_values X2 /\ c_y call = y_values X2 /\
    c_sample_weight call
      = match sw with
        | Some v => v
        | None => repeat 1 (dim 0 (X_values X2))
        end /\
    c_pos_weight call = 1 /\ c_neg_weight call = 1 /\
    c_loss call = lf /\ c_alpha call = a /\ c_n_iter call = n /\
    c_t call = Some (starting_t dloss np_sqrt (ext w) lf) /\
    (forall c, coef_ (ext w) = Some c -> c_coef call = data c) /\
    (coef_ (ext w) = None ->
     forall c0, ci = Some c0 -> c_coef call = data c0) /\
    (coef_ (ext w) = None -> ci = None ->
     c_coef call = repeat 0 (dim 1 (X_values X2))) /\
    coef_ (ext w') = Some (vector coef) /\
    intercept_ (ext w') = Some (Array [1%nat] [intercept]) /\
    t_ (ext w')
      = Some (starting_t dloss np_sqrt (ext w) lf
              + inject_Z (n * Z.of_nat (dim 0 (X_values X2)))) /\
    warnings w' = (warnings w ++ ws)%list.
Proof.
  intros H HX1 HX2. unfold SGDRegressor._partial_fit in H.
  bind_as H X1' wa Hv1. apply lift_Ok_inv in Hv1. destruct Hv1 as [Hv1 ->].
  rewrite HX1 in Hv1. inversion Hv1; subst X1'; clear Hv1.
  bind_as H X2' wb Hv2. apply call_Ok_inv in Hv2. destruct Hv2 as [Hv2 ->].
  rewrite HX2 in Hv2. cbn [fst] in Hv2. inversion Hv2; subst X2'; clear Hv2.
  rewrite HX2 in H. cbn [snd] in H.
  bind_as H u1 w1 K1. apply regressor_check_fit_data_Ok in K1. subst w1.
  bind_as H u2 w2 K2. apply regressor_validate_params_Ok in K2. subst w2.
  bind_as H sw' w3 K3. apply _validate_sample_weight_Ok in K3.
  destruct K3 as (-> & _ & ->).
  bind_as H e3 w4 He3. apply self_Ok_inv in He3. destruct He3 as [-> ->].
  cbn [ext] in H.
  bind_as H u4 w5 Halloc.
  bind_as H u5 w6 Hfit. apply _fit_regressor_Ok in Hfit.
  destruct Hfit as (lf & c & b & call & coef & intercept & Hlf & Hc & Hb
                    & Hsgd & Hcoef & HcX & Hcy & Hsw & Hpw & Hnw & Hloss
                    & Ha & Hn & Ht & Hc6 & Hb6 & Ht6 & Hwarn6).
  bind_as H e6 w7 He6. apply self_Ok_inv in He6. destruct He6 as [-> ->].
  bind_as H t w8 Ht8. apply attribute_Ok in Ht8. destruct Ht8 as [Ht8 ->].
  apply assign_Ok_inv in H. subst w'.
  rewrite Ht6 in Ht8. injection Ht8 as <-.
  assert (Hw5 : epsilon (ext w5) = epsilon (ext w) /\
                starting_t dloss np_sqrt (ext w5) lf
                = starting_t dloss np_sqrt (ext w) lf /\
                warnings w5 = (warnings w ++ ws)%list /\
                (forall c', coef_ (ext w) = Some c' -> c = c') /\
                (coef_ (ext w) = None ->
                 (forall c0, ci = Some c0 -> data c = data c0) /\
                 (ci = None -> data c = repeat 0 (dim 1 (X_values X2))))).
  { destruct (coef_ (ext w)) as [c1|] eqn:Ec.
    - apply ret_Ok_inv in Halloc. destruct Halloc as [_ ->].
      cbn [ext warnings] in *. repeat split; try discriminate.
      intros c' [= <-]. congruence.
    - apply _allocate_parameter_mem_Ok in Halloc.
      destruct Halloc as (c2 & b2 & -> & Hsc & _ & Hz & _ & Hd & _).
      cbn in Hc. injection Hc as ->.
      cbn [ext warnings]. repeat split; try discriminate.
      + exact Hd.
      + exact Hz. }
  destruct Hw5 as (He5 & Hs5 & Hwarn5 & Hsome & Hnone).
  rewrite He5 in Hlf. rewrite Hs5 in Ht, Ht6.
  exists lf, call, coef, intercept.
  split; [exact Hlf|]. split; [exact Hsgd|]. split; [exact HcX|].
  split; [exact Hcy|]. split; [exact Hsw|]. split; [exact Hpw|].
  split; [exact Hnw|]. split; [exact Hloss|]. split; [exact Ha|].
  split; [exact Hn|]. split; [exact Ht|].
  split; [intros c' Hc'; rewrite Hcoef; f_equal; apply Hsome; exact Hc'|].
  split; [intros Hno c0 Hc0; rewrite Hcoef; apply (proj1 (Hnone Hno)); exact Hc0|].
  split; [intros Hno Hci; rewrite Hcoef; apply (proj2 (Hnone Hno)); exact Hci|].
  cbn [ext warnings set_t_ coef_ intercept_ t_].
  split; [exact Hc6|]. split; [exact Hb6|].
  split; [rewrite Hs5; reflexivity|]. rewrite Hwarn6. exact Hwarn5.
Qed.

Lemma regressor_partial_fit_init_unused
    X a C l lr n sw ci ii ci' ii' (w : world estimator) c :
  coef_ (ext w) = Some c ->
  SGDRegressor._partial_fit dloss plain_sgd np_sqrt check_arrays column_or_1d
    X a C l lr n sw ci ii w
  = SGDRegressor._partial_fit dloss plain_sgd np_sqrt check_arrays column_or_1d
      X a C l lr n sw ci' ii' w.
Proof.
  intros Hc. unfold SGDRegressor._partial_fit.
  apply bind_congr. intros X1 wa Hv1.
  apply lift_Ok_inv in Hv1. destruct Hv1 as [_ ->].
  apply bind_congr. intros X2 wb Hv2.
  apply call_Ok_inv in Hv2. destruct Hv2 as [_ ->].
  apply bind_congr. intros u1 w1 K1.
  apply regressor_check_fit_data_Ok in K1. subst w1.
  apply bind_congr. intros u2 w2 K2.
  apply regressor_validate_params_Ok in K2. subst w2.
  apply bind_congr. intros sw' w3 K3.
  apply _validate_sample_weight_Ok in K3. destruct K3 as (_ & _ & ->).
  apply bind_congr. intros e3 w4 He3.
  apply self_Ok_inv in He3. destruct He3 as [-> ->].
  cbn [ext]. rewrite Hc. reflexivity.
Qed.

Lemma bind_ret_l {A B} (x : A) (k : A -> Method B) (w : world estimator) :
  Py.bind (Py.ret x) k w = k x w.
Proof. reflexivity. Qed.

(** X20.  A regressor with [warm_start] that already has a [coef_]
    ignores the [coef_init] and [intercept_init] passed to [fit]: memory is
    allocated only while [coef_] is None, so the outcome of [fit] is the
    same whatever initial values are given. *)
Theorem regressor_warm_fit_ignores_init
    X ci ii ci' ii' sw (w : world estimator) c :
  warm_start (ext w) = true -> coef_ (ext w) = Some c ->
  SGDRegressor.fit dloss plain_sgd np_sqrt check_arrays column_or_1d
    X ci ii sw w
  = SGDRegressor.fit dloss plain_sgd np_sqrt check_arrays column_or_1d
      X ci' ii' sw w.
Proof.
  intros Hwarm Hc. unfold SGDRegressor.fit.
  apply bind_congr. intros e w1 He.
  apply self_Ok_inv in He. destruct He as [-> ->].
  unfold SGDRegressor._fit.
  apply bind_congr. intros e w1 He.
  apply self_Ok_inv in He. destruct He as [-> ->].
  rewrite Hwarm, Hc.
  rewrite !bind_ret_l. cbv beta iota.
  apply bind_congr. intros u1 w2 Ha. apply assign_Ok_inv in Ha. subst w2.
  apply bind_congr. intros e w3 He.
  apply self_Ok_inv in He. destruct He as [-> ->].
  apply (regressor_partial_fit_init_unused _ _ _ _ _ _ _ _ _ _ _ _ c).
  cbn. exact Hc.
Qed.

End RegressorFacts.

Module RegressorDemo.

(** A squared-loss regressor with the 'invscaling' schedule, fresh and
    warm-started after a fit; two samples with one feature; validation
    helpers that accept their argument. *)
Definition fresh : SGD.estimator :=
  SGD.Estimator "squared_loss" "l2" "invscaling" (1 # 10) (1 # 16) (3 # 20)
    true 5 false None 0 (1 # 100) (1 # 4) false None None None None None
    None [].
Definition warm : SGD.estimator :=
  SGD.Estimator "squared_loss" "l2" "invscaling" (1 # 10) (1 # 16) (3 # 20)
    true 5 false None 0 (1 # 100) (1 # 4) true None None
    (Some (Np.Array [1%nat] [2]%Q)) (Some (Np.Array [1%nat] [1]%Q))
    (Some 11%Q) None [].
Definition X_two : SGDRegressor.training :=
  SGDRegressor.Training (Np.Array [2%nat; 1%nat] [1; -1]%Q) false [3; 4]%Q.
Definition check_arrays (X : SGDRegressor.training)
  : result SGDRegressor.training := Ok X.
Definition column_or_1d (X : SGDRegressor.training)
  : result SGDRegressor.training * list warning := (Ok X, []).

End RegressorDemo.

(** A first [partial_fit]-style pass on the fresh regressor starts from
    zeros and from the counter 1. *)
Lemma regressor_partial_fit_call_witness :
  exists call coef intercept,
    Demo.idle_sgd call = Ok (coef, intercept) /\
    SGD.c_y call = [3; 4]%Q /\
    SGD.c_coef call = [0]%Q /\
    SGD.c_pos_weight call = 1%Q /\
    SGD.c_t call = Some 1%Q.
Proof.
  pose (run := SGDRegressor._partial_fit Demo.hinge_dloss Demo.idle_sgd
                 Exact.sqrt RegressorDemo.check_arrays
                 RegressorDemo.column_or_1d RegressorDemo.X_two
                 (1 # 16) 1 "squared_loss" "invscaling" 1 None None None
                 (World [] RegressorDemo.fresh)).
  assert (Hrun : run = (Ok tt, snd run)) by (vm_compute; reflexivity).
  unfold run at 1 in Hrun.
  eapply regressor_partial_fit_call with (X1 := RegressorDemo.X_two)
    (X2 := RegressorDemo.X_two) (ws := []) in Hrun; try reflexivity.
  destruct Hrun as (lf & call & coef & intercept & _ & Hsgd & _ & Hy & _
                    & Hpw & _ & _ & _ & _ & Ht & _ & _ & Hzero & _).
  exists call, coef, intercept.
  split; [exact Hsgd|]. split; [exact Hy|].
  split; [exact (Hzero eq_refl eq_refl)|].
  split; [exact Hpw | exact Ht].
Defined.

(** The warm regressor fitted with and without initial values. *)
Lemma regressor_warm_fit_ignores_init_witness :
  SGDRegressor.fit Demo.hinge_dloss Demo.idle_sgd Exact.sqrt
    RegressorDemo.check_arrays RegressorDemo.column_or_1d RegressorDemo.X_two
    (Some (Np.Array [1%nat] [5]%Q)) (Some (Np.Array [1%nat] [7]%Q)) None
    (World [] RegressorDemo.warm)
  = SGDRegressor.fit Demo.hinge_dloss Demo.idle_sgd Exact.sqrt
      RegressorDemo.check_arrays RegressorDemo.column_or_1d
      RegressorDemo.X_two None None None (World [] RegressorDemo.warm).
Proof.
  apply (regressor_warm_fit_ignores_init Demo.hinge_dloss Demo.idle_sgd
           Exact.sqrt RegressorDemo.check_arrays RegressorDemo.column_or_1d
           RegressorDemo.X_two (Some (Np.Array [1%nat] [5]%Q))
           (Some (Np.Array [1%nat] [7]%Q)) None None None
           (World [] RegressorDemo.warm) (Np.Array [1%nat] [2]%Q)
           eq_refl eq_refl).
Defined.

(* ================================================================== *)
(** ** coordinate_descent.py: the choice of alpha by cross-validation *)

Module LinearModelCV.

Import CoordinateDescent.
Local Open Scope R_scope.
Local Open Scope py_scope.

(** What one [_path_residuals] job returns: the mean squared errors along
    the alphas, and the [l1_ratio] of the job. *)
Definition residuals : Type := (list R * R)%type.

(** [itertools.groupby(results, operator.itemgetter(1))]: the runs of
    consecutive results with the same [l1_ratio]. *)
Fixpoint groupby (results : list residuals) : list (R * list residuals) :=
  match results with
  | [] => []
  | (m, k) :: t =>
      match groupby t with
      | (k', g) :: rest =>
          if Req_dec_T k k' then (k, (m, k) :: g) :: rest
          else (k, [(m, k)]) :: (k', g) :: rest
      | [] => [(k, [(m, k)])]
      end
  end.

(** [mse_alphas.T] and [np.mean(mse_alphas, axis=0)] for the 2-D array
    [mse_alphas] of the rows of a group, which are as long as its first. *)
Definition transposed (rows : list (list R)) : list (list R) :=
  map (fun j => map (fun r => nth j r 0) rows)
      (seq 0 (List.length (hd [] rows))).
Definition mean_axis0 (rows : list (list R)) : list R :=
  map (fun c => rsum c / INR (List.length rows)) (transposed rows).

(** [np.argmin]: the first position of the minimum. *)
Fixpoint argmin_from (best : nat) (least : R) (i : nat) (l : list R) : nat :=
  match l with
  | [] => best
  | x :: t => if Rlt_dec x least then argmin_from i x (S i) t
              else argmin_from best least (S i) t
  end.
Definition argmin (l : list R) : result nat :=
  match l with
  | [] => Raise (ValueError "attempt to get argmin of an empty sequence")
  | x :: t => Ok (argmin_from 0 x 1 t)
  end.

(** The local variables of the loop; [best_mse] is [None] while it is
    [np.inf], the other two while they are unbound. *)
Record selection : Type := Selection {
  best_mse : option R;
  best_alpha : option R;
  best_l1_ratio : option R;
  all_mse_paths : list (list (list R))
}.

Section Selection.

Variable W : Type.

(** The body of the loop of [LinearModelCV.fit] over the groups (lines
    976-986). *)
Definition cv_step (alphas : list R) (group : R * list residuals)
    (s : selection) : M W selection :=
  let '(l1_ratio, members) := group in
  let mse_alphas := map fst members in
  let mse := mean_axis0 mse_alphas in
  i_best_alpha <- lift (argmin mse) ;;
  let this_best_mse := nth i_best_alpha mse 0 in
  let paths := all_mse_paths s ++ [transposed mse_alphas] in
  if match best_mse s with
     | None => true
     | Some least => if Rlt_dec this_best_mse least then true else false
     end
  then
    alpha <- (match nth_error alphas i_best_alpha with
              | Some a => ret a
              | None => raise (IndexError "index out of bounds")
              end) ;;
    ret (Selection (Some this_best_mse) (Some alpha) (Some l1_ratio) paths)
  else
    ret (Selection (best_mse s) (best_alpha s) (best_l1_ratio s) paths).

Fixpoint cv_loop (alphas : list R) (groups : list (R * list residuals))
    (s : selection) : M W selection :=
  match groups with
  | [] => ret s
  | g :: rest => s <- cv_step alphas g s ;; cv_loop alphas rest s
  end.

(** The selection of [LinearModelCV.fit] (lines 962-989) from the results
    of the [_path_residuals] jobs, in the order in which [Parallel]
    returns them: [l1_ratio_], [alpha_] and [all_mse_paths]. *)
Definition cv_select (alphas : list R) (results : list residuals)
  : M W (R * R * list (list (list R))) :=
  s <- cv_loop alphas (groupby results) (Selection None None None []) ;;
  l1_ratio_ <- local "best_l1_ratio" (best_l1_ratio s) ;;
  alpha_ <- local "best_alpha" (best_alpha s) ;;
  ret (l1_ratio_, alpha_, all_mse_paths s).

End Selection.

Arguments cv_step {W} _ _ _ _.
Arguments cv_loop {W} _ _ _ _.
Arguments cv_select {W} _ _ _.

End LinearModelCV.

Section SelectionFacts.

Import CoordinateDescent LinearModelCV.
Local Open Scope R_scope.

Variable W : Type.

Lemma np_argmin_from_first (l pre : list R) (best : nat) :
  (best < List.length pre)%nat ->
  (forall j, (j < List.length pre)%nat -> nth best pre 0 <= nth j pre 0) ->
  (forall j, (j < best)%nat -> nth best pre 0 < nth j pre 0) ->
  let r := argmin_from best (nth best pre 0) (List.length pre) l in
  (r < List.length (pre ++ l))%nat /\
  (forall j, (j < List.length (pre ++ l))%nat ->
     nth r (pre ++ l) 0 <= nth j (pre ++ l) 0) /\
  (forall j, (j < r)%nat -> nth r (pre ++ l) 0 < nth j (pre ++ l) 0).
Proof.
  revert pre best. induction l as [|x t IH]; intros pre best Hb Hmin Hfirst.
  - cbn [argmin_from]. rewrite app_nil_r. auto.
  - cbn [argmin_from].
    assert (Hlen : List.length (pre ++ [x]) = S (List.length pre))
      by (rewrite length_app; cbn; lia).
    assert (Hx : nth (List.length pre) (pre ++ [x]) 0 = x)
      by (rewrite app_nth2, Nat.sub_diag by lia; reflexivity).
    assert (Hold : forall j, (j < List.length pre)%nat ->
                     nth j (pre ++ [x]) 0 = nth j pre 0)
      by (intros j Hj; apply app_nth1; exact Hj).
    replace (pre ++ x :: t) with ((pre ++ [x]) ++ t)
      by (rewrite <- app_assoc; reflexivity).
    destruct (Rlt_dec x (nth best pre 0)) as [Hlt|Hge].
    + pose proof (IH (pre ++ [x]) (List.length pre)) as IH'.
      cbv zeta in IH'. rewrite Hx, Hlen in IH'. apply IH'.
      * lia.
      * intros j Hj.
        destruct (Nat.eq_dec j (List.length pre)) as [->|Hne].
        -- rewrite Hx. lra.
        -- rewrite Hold by lia. specialize (Hmin j ltac:(lia)). lra.
      * intros j Hj. rewrite Hold by lia.
        specialize (Hmin j Hj). lra.
    + pose proof (IH (pre ++ [x]) best) as IH'.
      cbv zeta in IH'. rewrite (Hold best Hb), Hlen in IH'. apply IH'.
      * lia.
      * intros j Hj.
        destruct (Nat.eq_dec j (List.length pre)) as [->|Hne].
        -- rewrite Hx. lra.
        -- rewrite Hold by lia. apply Hmin. lia.
      * intros j Hj. rewrite Hold by lia.
        apply Hfirst. exact Hj.
Qed.

Lemma np_argmin_first (l : list R) (i : nat) :
  argmin l = Ok i ->
  (i < List.length l)%nat /\
  (forall j, (j < List.length l)%nat -> nth i l 0 <= nth j l 0) /\
  (forall j, (j < i)%nat -> nth i l 0 < nth j l 0).
Proof.
  destruct l as [|x t]; [discriminate|]. cbn [argmin]. intros [= <-].
  apply (np_argmin_from_first t [x] 0%nat).
  - cbn. lia.
  - intros j Hj. cbn in Hj. assert (j = 0%nat) by lia. subst. cbn. lra.
  - intros j Hj. lia.
Qed.

(** The mean squared errors of a group along the alphas. *)
Definition cv_mse (members : list residuals) : list R :=
  mean_axis0 (map fst members).

(** The candidate (group [g], position [i]) is the first among the groups
    [done] that has the least error. *)
Definition first_least (done : list (R * list residuals))
    (g : nat) (members : list residuals) (i : nat) : Prop :=
  (i < List.length (cv_mse members))%nat /\
  (forall h other j,
     nth_error done h = Some other ->
     (j < List.length (cv_mse (snd other)))%nat ->
     nth i (cv_mse members) 0 <= nth j (cv_mse (snd other)) 0) /\
  (forall h other j,
     (h < g)%nat -> nth_error done h = Some other ->
     (j < List.length (cv_mse (snd other)))%nat ->
     nth i (cv_mse members) 0 < nth j (cv_mse (snd other)) 0) /\
  (forall j, (j < i)%nat ->
     nth i (cv_mse members) 0 < nth j (cv_mse members) 0).

Definition selected (alphas : list R) (done : list (R * list residuals))
    (s : selection) : Prop :=
  match best_mse s with
  | None => done = [] /\ best_alpha s = None /\ best_l1_ratio s = None
  | Some least =>
      exists g l1_ratio members i alpha,
        best_alpha s = Some alpha /\ best_l1_ratio s = Some l1_ratio /\
        nth_error done g = Some (l1_ratio, members) /\
        nth_error alphas i = Some alpha /\
        least = nth i (cv_mse members) 0 /\
        first_least done g members i
  end.

Lemma cv_step_selected alphas done group s s' (w w' : world W) :
  selected alphas done s ->
  cv_step alphas group s w = (Ok s', w') ->
  selected alphas (done ++ [group]) s' /\ w' = w.
Proof.
  intros Hsel H. destruct group as [l1 members]. unfold cv_step in H.
  bind_as H i w1 Harg. apply lift_Ok_inv in Harg. destruct Harg as [Harg ->].
  apply np_argmin_first in Harg. fold (cv_mse members) in Harg, H.
  destruct Harg as (Hi & Hmin & Hfirst).
  assert (Hnew : forall h other,
            nth_error (done ++ [(l1, members)]) h = Some other ->
            (h < List.length done)%nat /\ nth_error done h = Some other \/
            h = List.length done /\ other = (l1, members)).
  { intros h other Hh.
    destruct (Nat.lt_ge_cases h (List.length done)) as [Hlt|Hge].
    - left. rewrite nth_error_app1 in Hh by exact Hlt. auto.
    - right. rewrite nth_error_app2 in Hh by exact Hge.
      destruct (h - List.length done)%nat as [|d] eqn:E.
      + cbn in Hh. injection Hh as <-. split; [lia | reflexivity].
      + cbn in Hh. destruct d; discriminate. }
  assert (Hupdate : forall a,
            nth_error alphas i = Some a ->
            (forall h other j,
               nth_error done h = Some other ->
               (j < List.length (cv_mse (snd other)))%nat ->
               nth i (cv_mse members) 0 < nth j (cv_mse (snd other)) 0) ->
            selected alphas (done ++ [(l1, members)])
              (Selection (Some (nth i (cv_mse members) 0)) (Some a) (Some l1)
                 (all_mse_paths s ++ [transposed (map fst members)]))).
  { intros a Ha Hbelow. unfold selected. cbn [best_mse best_alpha best_l1_ratio].
    exists (List.length done), l1, members, i, a.
    split; [reflexivity|]. split; [reflexivity|].
    split; [rewrite nth_error_app2, Nat.sub_diag by lia; reflexivity|].
    split; [exact Ha|]. split; [reflexivity|].
    split; [exact Hi|]. split; [|split; [|exact Hfirst]].
    - intros h other j Hh Hj. apply Hnew in Hh.
      destruct Hh as [[_ Hh]|[_ ->]].
      + left. eapply Hbelow; eassumption.
      + apply Hmin. exact Hj.
    - intros h other j Hlt Hh Hj. apply Hnew in Hh.
      destruct Hh as [[_ Hh]|[Heq _]]; [|lia].
      eapply Hbelow; eassumption. }
  unfold selected in Hsel.
  destruct (best_mse s) as [least|] eqn:Eb.
  - destruct Hsel as (g & l0 & members0 & i0 & a0 & Ha0 & Hl0 & Hg & Hia
                      & Hleast & Hi0 & Hmin0 & Hbefore0 & Hfirst0).
    destruct (Rlt_dec (nth i (cv_mse members) 0) least) as [Hlt|Hge].
    + bind_as H a w2 Ha.
      assert (Ha' : nth_error alphas i = Some a /\ w2 = w).
      { destruct (nth_error alphas i).
        - apply ret_Ok_inv in Ha. destruct Ha as [-> ->]. auto.
        - apply raise_Ok_inv in Ha. contradiction. }
      destruct Ha' as [Ha' ->].
      apply ret_Ok_inv in H. destruct H as [<- ->].
      split; [|reflexivity]. apply Hupdate; [exact Ha'|].
      intros h other j Hh Hj. specialize (Hmin0 h other j Hh Hj). lra.
    + apply ret_Ok_inv in H. destruct H as [<- ->].
      split; [|reflexivity]. unfold selected.
      cbn [best_mse best_alpha best_l1_ratio].
      exists g, l0, members0, i0, a0.
      split; [exact Ha0|]. split; [exact Hl0|].
      assert (Hg' : (g < List.length done)%nat)
        by (apply nth_error_Some; congruence).
      split; [rewrite nth_error_app1 by exact Hg'; exact Hg|].
      split; [exact Hia|]. split; [exact Hleast|].
      split; [exact Hi0|]. split; [|split; [|exact Hfirst0]].
      * intros h other j Hh Hj. apply Hnew in Hh.
        destruct Hh as [[_ Hh]|[_ ->]].
        -- eapply Hmin0; eassumption.
        -- cbn [snd] in Hj |- *. specialize (Hmin j Hj). lra.
      * intros h other j Hlt Hh Hj. apply Hnew in Hh.
        destruct Hh as [[_ Hh]|[Heq _]]; [|lia].
        eapply Hbefore0; eassumption.
  - destruct Hsel as (-> & _ & _).
    bind_as H a w2 Ha.
    assert (Ha' : nth_error alphas i = Some a /\ w2 = w).
    { destruct (nth_error alphas i).
      - apply ret_Ok_inv in Ha. destruct Ha as [-> ->]. auto.
      - apply raise_Ok_inv in Ha. contradiction. }
    destruct Ha' as [Ha' ->].
    apply ret_Ok_inv in H. destruct H as [<- ->].
    split; [|reflexivity]. apply Hupdate; [exact Ha'|].
    intros h other j Hh. destruct h; discriminate.
Qed.

Lemma cv_loop_selected alphas rest :
  forall done s s' (w w' : world W),
    selected alphas done s ->
    cv_loop alphas rest s w = (Ok s', w') ->
    selected alphas (done ++ rest) s' /\ w' = w.
Proof.
  induction rest as [|g rest IH]; intros done s s' w w' Hsel H.
  - cbn [cv_loop] in H. apply ret_Ok_inv in H. destruct H as [<- ->].
    rewrite app_nil_r. auto.
  - cbn [cv_loop] in H. bind_as H s1 w1 Hstep.
    apply (cv_step_selected alphas done g s s1 w w1 Hsel) in Hstep.
    destruct Hstep as [Hsel1 ->].
    replace (done ++ g :: rest) with ((done ++ [g]) ++ rest)
      by (rewrite <- app_assoc; reflexivity).
    eapply IH; eassumption.
Qed.

(** X21.  When the selection of [LinearModelCV.fit] returns, [l1_ratio_]
    is the l1_ratio of one group of consecutive jobs and [alpha_] the
    entry of [alphas] at one position such that the mean over the folds of
    the MSE of that group at that position is the least of all groups and
    positions, and strictly less than at every earlier group and every
    earlier position in the group: ties go to the first candidate. *)
Theorem cv_select_first_least
    (alphas : list R) (results : list residuals) (w w' : world W)
    (l1_ratio_ alpha_ : R) (paths : list (list (list R))) :
  cv_select alphas results w = (Ok (l1_ratio_, alpha_, paths), w') ->
  w' = w /\
  exists g members i,
    nth_error (groupby results) g = Some (l1_ratio_, members) /\
    nth_error alphas i = Some alpha_ /\
    first_least (groupby results) g members i.
Proof.
  unfold cv_select. intros H.
  bind_as H s w1 Hloop.
  apply (cv_loop_selected alphas (groupby results) [] _ s w w1) in Hloop;
    [|cbn; auto].
  destruct Hloop as [Hsel ->]. cbn [app] in Hsel.
  bind_as H l1 w2 Hl. apply local_Ok_inv in Hl. destruct Hl as [Hl ->].
  bind_as H a w3 Ha. apply local_Ok_inv in Ha. destruct Ha as [Ha ->].
  apply ret_Ok_inv in H. destruct H as [H ->]. injection H as -> -> _.
  split; [reflexivity|].
  unfold selected in Hsel. destruct (best_mse s) as [least|].
  - destruct Hsel as (g & l0 & members & i & a0 & Ha0 & Hl0 & Hg & Hi & _ & Hf).
    rewrite Ha in Ha0. rewrite Hl in Hl0.
    injection Ha0 as <-. injection Hl0 as <-.
    exists g, members, i. auto.
  - destruct Hsel as (_ & _ & Hnone). congruence.
Qed.

End SelectionFacts.

Module CVDemo.

(** Three jobs: two folds for the l1_ratio 1, whose mean errors along the
    alphas are 2, 2 and 3, and one fold for the l1_ratio 2, with the
    errors 2, 5 and 5. *)
Definition alphas : list R := [4; 2; 1]%R.
Definition results : list LinearModelCV.residuals :=
  [([3; 1; 4], 1); ([1; 3; 2], 1); ([2; 5; 5], 2)]%R.

End CVDemo.

(** Evaluates the comparisons of reals in a selection on concrete data. *)
Ltac decide_selection :=
  repeat match goal with
         | |- context [Req_dec_T ?a ?b] =>
             destruct (Req_dec_T a b) as [?E|?E];
             [try (exfalso; lra) | try (exfalso; apply E; lra)]
         | |- context [Rlt_dec ?a ?b] =>
             destruct (Rlt_dec a b) as [?E|?E];
             [try (exfalso; lra) | try (exfalso; apply E; lra)]
         end.

(** The selection returns the l1_ratio 1 and the alpha 4: the first group
    wins at its first position, although its second position and the other
    group reach the same error. *)
Lemma cv_select_first_least_witness :
  exists g members i,
    nth_error (LinearModelCV.groupby CVDemo.results) g = Some (1%R, members) /\
    nth_error CVDemo.alphas i = Some 4%R /\
    first_least (LinearModelCV.groupby CVDemo.results) g members i.
Proof.
  assert (Hrun : exists paths,
            LinearModelCV.cv_select CVDemo.alphas CVDemo.results (World [] tt)
            = (Ok (1%R, 4%R, paths), World [] tt)).
  { eexists.
    unfold LinearModelCV.cv_select, LinearModelCV.cv_loop,
      LinearModelCV.cv_step, LinearModelCV.groupby, CVDemo.results,
      CVDemo.alphas, Py.bind, Py.ret, Py.lift, Py.local.
    repeat (progress (cbn -[Rlt_dec Req_dec_T Rplus Rdiv Rmult IZR];
                      decide_selection)).
    reflexivity. }
  destruct Hrun as [paths Hrun].
  apply cv_select_first_least in Hrun.
  exact (proj2 Hrun).
Defined.

(* ================================================================== *)
(** ** stochastic_gradient.py: one binary problem per class *)

Section MulticlassFit.

Import Np SGD.
Local Open Scope Q_scope.
Local Open Scope string_scope.

Variable dloss : loss_function -> Q -> Q -> Q.
Variable plain_sgd : sgd_call -> result (list Q * Q).
Variable np_sqrt : Q -> Q.
Variable atleast2d_or_csr : samples -> result samples.
Variable column_or_1d : samples -> result samples.
Variable _check_partial_fit_first_call :
  option (list Z) -> option (list Z) -> result (list Z).
Variable compute_class_weight :
  option (list (Z * Q)) -> list Z -> list nat -> result (list Q).
Variable np_searchsorted : list Z -> list Z -> list nat.

(** The call of [plain_sgd] that fits the class [i] against the rest, from
    the parameters [c0] and [b0], and its result [r]. *)
Definition one_vs_rest (known : list Z) (X : samples) (a : Q) (n : Z)
    (sw cw : list Q) (lf : loss_function) (start : Q) (c0 b0 : ndarray)
    (i : nat) (r : list Q * Q) : Prop :=
  exists class_i call,
    nth_error known i = Some class_i /\
    plain_sgd call = Ok r /\
    c_X call = values X /\
    c_y call = encode class_i (labels X) /\
    c_sample_weight call = sw /\
    nth_error cw i = Some (c_pos_weight call) /\
    c_neg_weight call = 1 /\
    c_coef call = row c0 i /\ c_intercept call = get1 b0 i /\
    c_loss call = lf /\ c_alpha call = a /\ c_n_iter call = n /\
    c_t call = Some start.

Lemma fit_binary_one_vs_rest i X a C lr n pos_weight sw
    (w w' : world estimator) r known cw lf start c0 b0 :
  fit_binary plain_sgd i X a C lr n pos_weight 1 sw w = (Ok r, w') ->
  classes_ (ext w) = Some known -> (List.length known =? 2)%nat = false ->
  nth_error cw i = Some pos_weight ->
  loss_function_ (ext w) = Some lf -> t_ (ext w) = Some start ->
  coef_ (ext w) = Some c0 -> intercept_ (ext w) = Some b0 ->
  w' = w /\ one_vs_rest known X a n sw cw lf start c0 b0 i r.
Proof.
  unfold fit_binary. intros H Hk Hlen Hcw Hloss Ht Hc0 Hb0.
  bind_as H est w1 He. apply self_Ok_inv in He. destruct He as [-> ->].
  bind_as H classes w2 Hc. apply attribute_Ok in Hc. destruct Hc as [Hc ->].
  rewrite Hk in Hc. injection Hc as <-.
  bind_as H class_i w3 Hi.
  assert (Hi' : nth_error known i = Some class_i /\ w3 = w).
  { destruct (nth_error known i) as [c|].
    - apply ret_Ok_inv in Hi. destruct Hi as [-> ->]. auto.
    - apply raise_Ok_inv in Hi. contradiction. }
  destruct Hi' as [Hci ->]. clear Hi.
  bind_as H coef_all w4 Hcoef. apply attribute_Ok in Hcoef.
  destruct Hcoef as [Hcoef ->]. rewrite Hc0 in Hcoef. injection Hcoef as <-.
  bind_as H intercept_all w5 Hint. apply attribute_Ok in Hint.
  destruct Hint as [Hint ->]. rewrite Hb0 in Hint. injection Hint as <-.
  rewrite Hlen in H.
  bind_as H pty w6 Hpt. apply _get_penalty_type_Ok in Hpt. subst w6.
  bind_as H lrt w7 Hlrt. apply _get_learning_rate_type_Ok in Hlrt. subst w7.
  bind_as H lf' w8 Hlf. apply attribute_Ok in Hlf. destruct Hlf as [Hlf ->].
  rewrite Hloss in Hlf. injection Hlf as <-.
  apply lift_Ok_inv in H. destruct H as [Hcall ->].
  split; [reflexivity|].
  exists class_i. eexists.
  split; [exact Hci|]. split; [exact Hcall|].
  cbn. repeat split; try reflexivity; assumption.
Qed.

Lemma fit_each_one_vs_rest X a C lr n sw (w : world estimator)
    known cw lf start c0 b0 :
  classes_ (ext w) = Some known -> (List.length known =? 2)%nat = false ->
  _expanded_class_weight (ext w) = cw ->
  loss_function_ (ext w) = Some lf -> t_ (ext w) = Some start ->
  coef_ (ext w) = Some c0 -> intercept_ (ext w) = Some b0 ->
  forall l fitted w',
    Py.mapM (fun i =>
               Py.bind (weight_at i)
                 (fun pw => fit_binary plain_sgd i X a C lr n pw 1 sw)) l w
    = (Ok fitted, w') ->
    w' = w /\
    Forall2 (one_vs_rest known X a n sw cw lf start c0 b0) l fitted.
Proof.
  intros Hk Hlen Hcw Hloss Ht Hc0 Hb0.
  induction l as [|i l IH]; intros fitted w' H.
  - cbn [Py.mapM] in H. apply ret_Ok_inv in H. destruct H as [<- ->].
    split; [reflexivity | constructor].
  - cbn [Py.mapM] in H.
    bind_as H r w1 Hone. bind_as Hone pw w0 Hw.
    apply weight_at_Ok in Hw. destruct Hw as [Hw ->]. rewrite Hcw in Hw.
    apply (fit_binary_one_vs_rest i X a C lr n pw sw w w1 r known cw lf start
             c0 b0) in Hone; try assumption.
    destruct Hone as [-> Hone].
    bind_as H rest w2 Hrest. apply IH in Hrest. destruct Hrest as [-> Hrest].
    apply ret_Ok_inv in H. destruct H as [<- ->].
    split; [reflexivity | constructor; assumption].
Qed.

(** X22.  A [_partial_fit] over more than two classes that returns has
    fitted one binary problem per class, in the order of the classes and
    all from the same state: the call for class i has the targets +1 for
    that class and -1 for the rest, the class weight of class i as positive
    and 1.0 as negative weight, row i of [coef_] and entry i of
    [intercept_] as they were when training started, and the same counter
    and loss as every other call; the results replace the rows of [coef_]
    and the entries of [intercept_]. *)
Theorem partial_fit_multiclass_calls
    X a C l lr n cl sw ci ii (w w' : world estimator) u X1 X2 known :
  _partial_fit dloss plain_sgd np_sqrt atleast2d_or_csr column_or_1d
    _check_partial_fit_first_call compute_class_weight np_searchsorted
    X a C l lr n cl sw ci ii w = (Ok u, w') ->
  atleast2d_or_csr X = Ok X1 -> column_or_1d X1 = Ok X2 ->
  _check_partial_fit_first_call (classes_ (ext w)) cl = Ok known ->
  (2 < List.length known)%nat ->
  exists cw lf c0 b0 fitted,
    compute_class_weight (class_weight (ext w)) known
      (np_searchsorted known (labels X2)) = Ok cw /\
    selected_loss (epsilon (ext w)) l = Some lf /\
    (ci = None -> forall c, coef_ (ext w) = Some c ->
       c0 = c /\ intercept_ (ext w) = Some b0) /\
    (ci = None -> coef_ (ext w) = None ->
       shape c0 = [List.length known; dim 1 (values X2)] /\
       data c0 = repeat 0 (List.length known * dim 1 (values X2))) /\
    Forall2
      (one_vs_rest known X2 a n
         match sw with Some v => v | None => repeat 1 (dim 0 (values X2)) end
         cw lf (starting_t dloss np_sqrt (ext w) lf) c0 b0)
      (seq 0 (List.length known)) fitted /\
    coef_ (ext w')
      = Some (of_rows (dim 0 c0) (dim 1 c0)
                (map fst fitted ++ skipn (List.length fitted) (rows c0))) /\
    intercept_ (ext w')
      = Some (Array (shape b0)
                (map snd fitted ++ skipn (List.length fitted) (data b0))).
Proof.
  intros H HX1 HX2 Hknown Hlen.
  unfold _partial_fit in H.
  bind_as H X1' wa Hv1. apply lift_Ok_inv in Hv1. destruct Hv1 as [Hv1 ->].
  rewrite HX1 in Hv1. inversion Hv1; subst X1'; clear Hv1.
  bind_as H X2' wb Hv2. apply lift_Ok_inv in Hv2. destruct Hv2 as [Hv2 ->].
  rewrite HX2 in Hv2. inversion Hv2; subst X2'; clear Hv2.
  bind_as H u1 w1 K1. apply _check_fit_data_Ok in K1. subst w1.
  bind_as H u2 w2 K2. apply _validate_params_Ok in K2. destruct K2 as [_ ->].
  bind_as H e2 wc He2. apply self_Ok_inv in He2. destruct He2 as [-> ->].
  bind_as H known' wd Hk. apply lift_Ok_inv in Hk. destruct Hk as [Hk ->].
  rewrite Hknown in Hk. inversion Hk; subst known'; clear Hk.
  bind_as H u3 w3 K3. apply assign_Ok_inv in K3. subst w3.
  bind_as H e3 we He3. apply self_Ok_inv in He3. destruct He3 as [-> ->].
  cbn [ext set_classes_ class_weight] in H.
  bind_as H cw wf Hcw. apply lift_Ok_inv in Hcw. destruct Hcw as [Hcw ->].
  bind_as H u4 w4 K4. apply assign_Ok_inv in K4. subst w4.
  cbn [ext warnings] in H.
  bind_as H sw' w5 K5. apply _validate_sample_weight_Ok in K5.
  destruct K5 as (Hsw & _ & ->).
  bind_as H e5 wg He5. apply self_Ok_inv in He5. destruct He5 as [-> ->].
  bind_as H u6 w6 K6.
  set (s5 := set_fit_state
               (loss_function_ (set_classes_ (Some known) (ext w))) cw
               (set_classes_ (Some known) (ext w))) in *.
  assert (F6 : classes_ (ext w6) = Some known /\
               _expanded_class_weight (ext w6) = cw /\
               epsilon (ext w6) = epsilon (ext w) /\
               t_ (ext w6) = t_ (ext w) /\ alpha (ext w6) = alpha (ext w) /\
               learning_rate (ext w6) = learning_rate (ext w)).
  { cbn [ext] in K6.
    assert (P : forall B (f : estimator -> B),
              (forall c i e, f (set_parameters c i e) = f e) ->
              f (ext w6) = f s5).
    { intros B f Hf. destruct (coef_ s5), ci;
        first [ apply ret_Ok_inv in K6; destruct K6 as [_ ->]; reflexivity
              | apply (preserves__allocate_parameter_mem f _ _ _ _ Hf _ _ _ K6) ]. }
    rewrite (P _ classes_), (P _ _expanded_class_weight), (P _ epsilon),
      (P _ t_), (P _ alpha), (P _ learning_rate);
      try (intros; reflexivity).
    repeat split. }
  destruct F6 as (F6c & F6w & F6e & F6t & F6a & F6r).
  assert (G6 : (ci = None -> forall c, coef_ (ext w) = Some c ->
                  coef_ (ext w6) = Some c /\
                  intercept_ (ext w6) = intercept_ (ext w)) /\
               (ci = None -> coef_ (ext w) = None ->
                  exists c b,
                    coef_ (ext w6) = Some c /\ intercept_ (ext w6) = Some b /\
                    shape c = [List.length known; dim 1 (values X2)] /\
                    data c = repeat 0 (List.length known * dim 1 (values X2)))).
  { cbn [ext] in K6. change (coef_ s5) with (coef_ (ext w)) in K6.
    split.
    - intros -> c Hc. rewrite Hc in K6.
      apply ret_Ok_inv in K6. destruct K6 as [_ ->]. cbn. auto.
    - intros -> Hc. rewrite Hc in K6.
      apply _allocate_parameter_mem_Ok in K6.
      destruct K6 as (c & b & -> & Hsc & _ & Hz & _).
      apply Nat.ltb_lt in Hlen. rewrite Hlen in Hsc, Hz.
      exists c, b. cbn. repeat split; [exact Hsc | exact (Hz eq_refl)]. }
  clear K6.
  bind_as H lf wh Hlf. apply _get_loss_function_Ok in Hlf.
  destruct Hlf as [Hlf ->]. rewrite F6e in Hlf.
  bind_as H u7 w7 K7. apply assign_Ok_inv in K7. subst w7.
  bind_as H e7 wi He7. apply self_Ok_inv in He7. destruct He7 as [-> ->].
  cbn [ext warnings] in H.
  bind_as H u8 w8 Hinit.
  set (s7 := set_fit_state (Some lf) (_expanded_class_weight (ext w6)) (ext w6)) in *.
  assert (F8t : t_ (ext w8) = Some (starting_t dloss np_sqrt (ext w) lf)).
  { unfold starting_t. rewrite <- F6t. cbn [ext] in Hinit.
    change (t_ s7) with (t_ (ext w6)) in Hinit.
    destruct (t_ (ext w6)) as [t|] eqn:Et.
    - apply ret_Ok_inv in Hinit. destruct Hinit as [_ ->]. exact Et.
    - apply _init_t_Ok in Hinit. rewrite Hinit. f_equal.
      apply initial_t_reads; [exact F6a | exact F6r]. }
  assert (F8 : classes_ (ext w8) = Some known /\
               _expanded_class_weight (ext w8) = cw /\
               loss_function_ (ext w8) = Some lf /\
               coef_ (ext w8) = coef_ (ext w6) /\
               intercept_ (ext w8) = intercept_ (ext w6)).
  { assert (P : forall B (f : estimator -> B),
              (forall t e, f (set_t_ t e) = f e) -> f (ext w8) = f s7).
    { intros B f Hf. cbn [ext t_] in Hinit. destruct (t_ s7).
      - apply ret_Ok_inv in Hinit. destruct Hinit as [_ ->]. reflexivity.
      - apply (preserves__init_t dloss np_sqrt f _ Hf _ _ _ Hinit). }
    rewrite (P _ classes_), (P _ _expanded_class_weight), (P _ loss_function_),
      (P _ coef_), (P _ intercept_);
      try (intros; reflexivity).
    unfold s7. cbn. auto. }
  destruct F8 as (F8c & F8w & F8l & F8p & F8i). clear Hinit.
  pose proof Hlen as Hlt. apply Nat.ltb_lt in Hlt. rewrite Hlt in H.
  bind_as H u9 w9 Hfit. unfold _fit_multiclass in Hfit.
  bind_as Hfit e8 wj He8. apply self_Ok_inv in He8. destruct He8 as [-> ->].
  bind_as Hfit classes wk Hc. apply attribute_Ok in Hc. destruct Hc as [Hc ->].
  rewrite F8c in Hc. injection Hc as <-.
  bind_as Hfit fitted wl Hmap.
  apply assign_Ok_inv in Hfit. subst w9.
  bind_as H e9 wm He9. apply self_Ok_inv in He9. destruct He9 as [-> ->].
  bind_as H t wn Ht'. apply attribute_Ok in Ht'. destruct Ht' as [_ ->].
  apply assign_Ok_inv in H. subst w'.
  assert (Hne : (List.length known =? 2)%nat = false)
    by (apply Nat.eqb_neq; lia).
  destruct (coef_ (ext w8)) as [c0|] eqn:Ec0.
  2:{ destruct known as [|k0 known']; [cbn in Hlen; lia|].
      cbn [List.length seq Py.mapM] in Hmap.
      bind_as Hmap r0 wo Hone. bind_as Hone pw wp Hw.
      apply weight_at_Ok in Hw. destruct Hw as [_ ->].
      unfold fit_binary in Hone.
      bind_as Hone est wq He. apply self_Ok_inv in He. destruct He as [-> ->].
      bind_as Hone cls wr Hcl. apply attribute_Ok in Hcl. destruct Hcl as [_ ->].
      bind_as Hone ci0 ws Hci0.
      assert (ws = w8).
      { destruct (nth_error cls 0).
        - apply ret_Ok_inv in Hci0. destruct Hci0 as [_ ->]. reflexivity.
        - apply raise_Ok_inv in Hci0. contradiction. }
      subst ws.
      bind_as Hone call wt Hcoef. apply attribute_Ok in Hcoef.
      destruct Hcoef as [Hcoef _]. congruence. }
  destruct (intercept_ (ext w8)) as [b0|] eqn:Eb0.
  2:{ destruct known as [|k0 known']; [cbn in Hlen; lia|].
      cbn [List.length seq Py.mapM] in Hmap.
      bind_as Hmap r0 wo Hone. bind_as Hone pw wp Hw.
      apply weight_at_Ok in Hw. destruct Hw as [_ ->].
      unfold fit_binary in Hone.
      bind_as Hone est wq He. apply self_Ok_inv in He. destruct He as [-> ->].
      bind_as Hone cls wr Hcl. apply attribute_Ok in Hcl. destruct Hcl as [_ ->].
      bind_as Hone ci0 ws Hci0.
      assert (ws = w8).
      { destruct (nth_error cls 0).
        - apply ret_Ok_inv in Hci0. destruct Hci0 as [_ ->]. reflexivity.
        - apply raise_Ok_inv in Hci0. contradiction. }
      subst ws.
      bind_as Hone call wt Hcoef. apply attribute_Ok in Hcoef.
      destruct Hcoef as [_ ->].
      bind_as Hone call2 wu Hint. apply attribute_Ok in Hint.
      destruct Hint as [Hint _]. congruence. }
  apply (fit_each_one_vs_rest X2 a C lr n sw' w8 known cw lf
           (starting_t dloss np_sqrt (ext w) lf) c0 b0 F8c Hne F8w F8l F8t
           Ec0 Eb0) in Hmap.
  destruct Hmap as [-> Hall].
  exists cw, lf, c0, b0, fitted.
  split; [exact Hcw|]. split; [exact Hlf|].
  split.
  { intros Hci c Hc. destruct G6 as [G6 _].
    destruct (G6 Hci c Hc) as [G6c G6i].
    rewrite <- F8p in G6c. rewrite <- F8i in G6i.
    split; congruence. }
  split.
  { intros Hci Hc. destruct G6 as [_ G6].
    destruct (G6 Hci Hc) as (c & b & G6c & _ & Hsc & Hz).
    rewrite <- F8p in G6c. assert (c0 = c) by congruence. subst c. auto. }
  split; [rewrite <- Hsw; exact Hall|].
  cbn [ext warnings set_t_ set_parameters coef_ intercept_].
  rewrite Ec0, Eb0. cbn [option_map]. split; reflexivity.
Qed.

End MulticlassFit.

Module MulticlassDemo.

(** Three samples with one feature, one of each of three classes. *)
Definition X_three : SGD.samples :=
  SGD.Samples (Np.Array [3%nat; 1%nat] [1; 0; -1]%Q) false [0; 1; 2]%Z.

End MulticlassDemo.

(** A first pass of the hinge classifier over three classes: three calls,
    each from zeros. *)
Lemma partial_fit_multiclass_calls_witness :
  exists cw lf c0 b0 fitted,
    Np.data c0 = [0; 0; 0]%Q /\
    Forall2
      (one_vs_rest Demo.idle_sgd [0; 1; 2]%Z MulticlassDemo.X_three (1 # 16) 1
         [1; 1; 1]%Q cw lf
         (starting_t Demo.hinge_dloss Exact.sqrt Demo.sgd_optimal lf) c0 b0)
      [0; 1; 2]%nat fitted.
Proof.
  pose (run := SGD._partial_fit Demo.hinge_dloss Demo.idle_sgd Exact.sqrt
                 Demo.accept Demo.accept Demo.first_call_classes
                 Demo.uniform_class_weight Demo.searchsorted
                 MulticlassDemo.X_three (1 # 16) 1 "hinge" "optimal" 1
                 (Some [0; 1; 2]%Z) None None None
                 (World [] Demo.sgd_optimal)).
  assert (Hrun : run = (Ok tt, snd run)) by (vm_compute; reflexivity).
  unfold run at 1 in Hrun.
  eapply partial_fit_multiclass_calls with (X1 := MulticlassDemo.X_three)
    (X2 := MulticlassDemo.X_three) (known := [0; 1; 2]%Z) in Hrun;
    [| reflexivity | reflexivity | reflexivity | cbn; lia].
  destruct Hrun as (cw & lf & c0 & b0 & fitted & _ & _ & _ & Hzero & Hall & _).
  exists cw, lf, c0, b0, fitted.
  split; [exact (proj2 (Hzero eq_refl eq_refl)) | exact Hall].
Defined.

(* ================================================================== *)
(** ** ridge.py: the iteration limit *)

Section IterationLimit.

Import Np Ridge.
Local Open Scope Q_scope.
Local Open Scope string_scope.

Variable W : Type.
Variable L : numerics.

Lemma bind_congr_run {A C} (m : M W A) (k k' : A -> M W C) (w : world W) :
  (forall a w1, m w = (Ok a, w1) -> k a w1 = k' a w1) ->
  Py.bind m k w = Py.bind m k' w.
Proof.
  intros Hk. unfold Py.bind. destruct (m w) as [[a|e] w1]; [|reflexivity].
  apply Hk. reflexivity.
Qed.

Lemma bind_congr_first {A C} (m m' : M W A) (k : A -> M W C) (w : world W) :
  m w = m' w -> Py.bind m k w = Py.bind m' k w.
Proof. intros Hm. unfold Py.bind. rewrite Hm. reflexivity. Qed.

Lemma mapM_congr {A C} (f g : A -> M W C) (l : list A) :
  (forall a w, f a w = g a w) -> forall w, Py.mapM f l w = Py.mapM g l w.
Proof.
  intros Hfg. induction l as [|a l IH]; intros w; [reflexivity|].
  cbn [Py.mapM]. unfold Py.bind at 1 3. rewrite Hfg.
  destruct (g a w) as [[b|e] w1]; [|reflexivity].
  unfold Py.bind. rewrite IH. reflexivity.
Qed.

(** In its kernel form the conjugate-gradient solver does not pass
    [max_iter] on. *)
Lemma _solve_sparse_cg_wide X y alpha max_iter max_iter' tol (w : world W) :
  (dim 0 X <? dim 1 X)%nat = true ->
  _solve_sparse_cg L X y alpha max_iter tol w
  = _solve_sparse_cg L X y alpha max_iter' tol w.
Proof.
  intros Hwide. unfold _solve_sparse_cg. rewrite Hwide.
  unfold Py.bind at 1 3.
  rewrite (mapM_congr _
             (fun i =>
                Py.bind (index alpha i)
                  (fun a =>
                     Py.bind
                       (let '(coef, info) :=
                          sp_cg L (dim 0 X)
                            (fun x => map2 Qplus (matvec X (rmatvec X x))
                                        (map (Qmult a) x))
                            (column y i) None tol in
                        Py.ret (rmatvec X coef, info))
                       (fun '(coef, info) =>
                          if (info =? 0)%Z then Py.ret coef
                          else Py.raise (ValueError "Failed with error code")))));
    [reflexivity|].
  intros i v. reflexivity.
Qed.

(** X23.  For a design with more features than samples, [max_iter] has no
    effect on [ridge_regression] unless the solver asked for is 'lsqr':
    the conjugate-gradient solver then works on the kernel system and
    calls [cg] without an iteration limit, and the Cholesky and SVD
    solvers have none. *)
Theorem ridge_regression_wide_ignores_max_iter
    (Xd : design) (y : ndarray) (alpha : list Q) (sample_weight : weight)
    (solver : string) (max_iter max_iter' : option Z) (tol : Q)
    (w : world W) (n p : nat) :
  shape (values Xd) = [n; p] -> (n < p)%nat -> solver <> "lsqr" ->
  ridge_regression L Xd y alpha sample_weight solver max_iter tol w
  = ridge_regression L Xd y alpha sample_weight solver max_iter' tol w.
Proof.
  intros Hshape Hwide Hsolver. unfold ridge_regression.
  apply bind_congr_run. intros [n0 p0] w1 Hu.
  unfold unpack2 in Hu. rewrite Hshape in Hu.
  apply ret_Ok_inv in Hu. destruct Hu as [Hu ->].
  injection Hu as <- <-.
  destruct (2 <? ndim y)%nat; [reflexivity|].
  destruct (if (ndim y =? 1)%nat then (reshape_column y, true) else (y, false))
    as [y1 ravel_].
  apply bind_congr_run. intros [n1 t1] w2 _.
  destruct (negb (n =? n1)%nat); [reflexivity|].
  apply bind_congr_run. intros s1 w3 Hs1.
  assert (Hs1' : s1 <> "lsqr").
  { destruct (solver =? "auto").
    - apply ret_Ok_inv in Hs1. destruct Hs1 as [<- _].
      destruct (is_array Xd); discriminate.
    - destruct ((solver =? "lsqr") && negb (has_lsqr L)).
      + bind_as Hs1 u0 w0 Hw. apply ret_Ok_inv in Hs1.
        destruct Hs1 as [<- _]. discriminate.
      + apply ret_Ok_inv in Hs1. destruct Hs1 as [<- _]. exact Hsolver. }
  apply bind_congr_run. intros s2 w4 Hs2.
  assert (Hs2' : (s2 =? "lsqr") = false).
  { apply String.eqb_neq.
    destruct (has_sample_weight sample_weight && negb (s1 =? "dense_cholesky")).
    - bind_as Hs2 u0 w0 Hw. apply ret_Ok_inv in Hs2.
      destruct Hs2 as [<- _]. discriminate.
    - apply ret_Ok_inv in Hs2. destruct Hs2 as [<- _]. exact Hs1'. }
  destruct (negb ((List.length alpha =? 1)%nat || (List.length alpha =? t1)%nat));
    [reflexivity|].
  apply bind_congr_first. rewrite Hs2'.
  assert (Hdim : (dim 0 (values Xd) <? dim 1 (values Xd))%nat = true).
  { unfold dim. rewrite Hshape. cbn [nth]. apply Nat.ltb_lt. exact Hwide. }
  destruct (s2 =? "sparse_cg"); [|reflexivity].
  apply bind_congr_first. apply _solve_sparse_cg_wide. exact Hdim.
Qed.

End IterationLimit.

(** The zero 1x2 design, with and without an iteration limit. *)
Lemma ridge_regression_wide_ignores_max_iter_witness :
  Ridge.ridge_regression Exact.reference Demo.X_zero_wide Demo.y_one [1]%Q
    (Ridge.WFloat 1) "sparse_cg" (Some 1%Z) Demo.tol (World [] tt)
  = Ridge.ridge_regression Exact.reference Demo.X_zero_wide Demo.y_one [1]%Q
      (Ridge.WFloat 1) "sparse_cg" None Demo.tol (World [] tt).
Proof.
  apply (@ridge_regression_wide_ignores_max_iter unit Exact.reference
           Demo.X_zero_wide Demo.y_one [1]%Q (Ridge.WFloat 1) "sparse_cg"
           (Some 1%Z) None Demo.tol (World [] tt) 1 2 eq_refl
           (Nat.lt_succ_diag_r 1)).
  discriminate.
Defined.

(* ================================================================== *)
(** ** stochastic_gradient.py: what a fit leaves on the classifier *)

Section FitState.

Import Np SGD.
Local Open Scope Q_scope.
Local Open Scope string_scope.

Variable dloss : loss_function -> Q -> Q -> Q.
Variable plain_sgd : sgd_call -> result (list Q * Q).
Variable np_sqrt : Q -> Q.
Variable atleast2d_or_csr : samples -> result samples.
Variable column_or_1d : samples -> result samples.
Variable _check_partial_fit_first_call :
  option (list Z) -> option (list Z) -> result (list Z).
Variable compute_class_weight :
  option (list (Z * Q)) -> list Z -> list nat -> result (list Q).
Variable np_unique : list Z -> list Z.
Variable np_searchsorted : list Z -> list Z -> list nat.

Ltac frame_methods :=
  unfold _partial_fit, _fit_multiclass, _fit_binary, fit_binary, weight_at,
    _get_loss_function, _init_t, _allocate_parameter_mem,
    _validate_sample_weight, _validate_params, _check_fit_data,
    _get_penalty_type, _get_learning_rate_type, attribute;
  frame.

Lemma preserves_class_weight__partial_fit X a C l lr n cl sw ci ii :
  preserves class_weight
    (_partial_fit dloss plain_sgd np_sqrt atleast2d_or_csr column_or_1d
       _check_partial_fit_first_call compute_class_weight np_searchsorted
       X a C l lr n cl sw ci ii).
Proof. frame_methods. Qed.

Lemma _partial_fit_classes X a C l lr n cl sw ci ii (w w' : world estimator) u :
  _partial_fit dloss plain_sgd np_sqrt atleast2d_or_csr column_or_1d
    _check_partial_fit_first_call compute_class_weight np_searchsorted
    X a C l lr n cl sw ci ii w = (Ok u, w') ->
  exists known,
    _check_partial_fit_first_call (classes_ (ext w)) cl = Ok known /\
    classes_ (ext w') = Some known.
Proof.
  unfold _partial_fit. intros H.
  bind_as H X1 wa Hv1. apply lift_Ok_inv in Hv1. destruct Hv1 as [_ ->].
  bind_as H X2 wb Hv2. apply lift_Ok_inv in Hv2. destruct Hv2 as [_ ->].
  bind_as H u1 w1 K1. apply _check_fit_data_Ok in K1. subst w1.
  bind_as H u2 w2 K2. apply _validate_params_Ok in K2. destruct K2 as [_ ->].
  bind_as H e2 wc He2. apply self_Ok_inv in He2. destruct He2 as [-> ->].
  bind_as H known wd Hk. apply lift_Ok_inv in Hk. destruct Hk as [Hk ->].
  bind_as H u3 w3 K3. apply assign_Ok_inv in K3. subst w3.
  exists known. split; [exact Hk|].
  match type of H with
  | ?m _ = _ => assert (Hp : preserves classes_ m) by frame_methods
  end.
  rewrite (Hp _ _ _ H). reflexivity.
Qed.

(** X24.  When [fit] returns, the classes the classifier knew before are
    forgotten: [classes_] is what [_check_partial_fit_first_call] makes of
    the distinct labels of this [y] alone.  A [class_weight] passed to
    [fit] stays on the estimator as its [class_weight] afterwards;
    without one the attribute is as it was. *)
Theorem fit_resets_classes_keeps_class_weight
    X ci ii cw sw (w w' : world estimator) u X1 :
  fit dloss plain_sgd np_sqrt atleast2d_or_csr column_or_1d
    _check_partial_fit_first_call compute_class_weight np_unique
    np_searchsorted X ci ii cw sw w = (Ok u, w') ->
  atleast2d_or_csr X = Ok X1 ->
  (exists known,
     _check_partial_fit_first_call None (Some (np_unique (labels X1)))
     = Ok known /\
     classes_ (ext w') = Some known) /\
  class_weight (ext w')
  = match cw with
    | Some given => Some given
    | None => class_weight (ext w)
    end.
Proof.
  unfold fit, _fit, _fit_prepare. intros H HX1.
  bind_as H e0 w0 He0. apply self_Ok_inv in He0. destruct He0 as [-> ->].
  bind_as H prepared w5 Hprep.
  bind_as Hprep u1 w1 K1. apply assign_Ok_inv in K1. subst w1.
  bind_as Hprep u2 w2 K2.
  assert (F2 : classes_ (ext w2) = None /\
               class_weight (ext w2)
               = match cw with
                 | Some given => Some given
                 | None => class_weight (ext w)
                 end).
  { destruct cw as [given|].
    - bind_as K2 u0 wx Hw. apply warn_Ok_inv in Hw. subst wx.
      apply assign_Ok_inv in K2. subst w2. split; reflexivity.
    - apply ret_Ok_inv in K2. destruct K2 as [_ ->]. split; reflexivity. }
  clear K2. destruct F2 as [F2c F2w].
  bind_as Hprep X1' w3 Hv. apply lift_Ok_inv in Hv. destruct Hv as [Hv ->].
  rewrite HX1 in Hv. inversion Hv; subst X1'; clear Hv.
  bind_as Hprep e2 w4 He2. apply self_Ok_inv in He2. destruct He2 as [-> ->].
  bind_as Hprep inits w6 Hinit.
  assert (F6 : classes_ (ext w6) = None /\
               class_weight (ext w6) = class_weight (ext w2)).
  { destruct (warm_start (ext w2)), (coef_ (ext w2));
      first [ apply ret_Ok_inv in Hinit; destruct Hinit as [_ ->];
              split; [exact F2c | reflexivity]
            | bind_as Hinit u0 wx Ha; apply assign_Ok_inv in Ha; subst wx;
              apply ret_Ok_inv in Hinit; destruct Hinit as [_ ->];
              split; [exact F2c | reflexivity] ]. }
  clear Hinit. destruct F6 as [F6c F6w]. destruct inits as [ci' ii'].
  bind_as Hprep u7 w7 K7. apply assign_Ok_inv in K7. subst w7.
  apply ret_Ok_inv in Hprep. destruct Hprep as [<- ->].
  bind_as H e8 w8 He8. apply self_Ok_inv in He8. destruct He8 as [-> ->].
  pose proof H as Hcw.
  apply preserves_class_weight__partial_fit in Hcw.
  apply _partial_fit_classes in H. destruct H as (known & Hk & Hc).
  cbn [ext set_t_ classes_ class_weight] in Hk, Hcw.
  rewrite F6c in Hk. rewrite F6w, F2w in Hcw.
  split; [exists known; split; assumption | exact Hcw].
Qed.

End FitState.

(** A fit of the hinge classifier with class weights given to [fit]. *)
Lemma fit_resets_classes_keeps_class_weight_witness :
  SGD.class_weight
    (ext (snd (SGD.fit Demo.hinge_dloss Demo.idle_sgd Exact.sqrt Demo.accept
                 Demo.accept Demo.first_call_classes Demo.uniform_class_weight
                 LearningCurve.np_unique Demo.searchsorted Demo.X_two None None
                 (Some [(0%Z, 2%Q); (1%Z, 3%Q)]) None
                 (World [] (Demo.sgd_warm 9)))))
  = Some [(0%Z, 2%Q); (1%Z, 3%Q)].
Proof.
  pose (run := SGD.fit Demo.hinge_dloss Demo.idle_sgd Exact.sqrt Demo.accept
                 Demo.accept Demo.first_call_classes Demo.uniform_class_weight
                 LearningCurve.np_unique Demo.searchsorted Demo.X_two None None
                 (Some [(0%Z, 2%Q); (1%Z, 3%Q)]) None
                 (World [] (Demo.sgd_warm 9))).
  assert (Hrun : run = (Ok tt, snd run)) by (vm_compute; reflexivity).
  unfold run at 1 in Hrun.
  eapply fit_resets_classes_keeps_class_weight with (X1 := Demo.X_two) in Hrun;
    [|reflexivity].
  exact (proj2 Hrun).
Defined.
